(** * get-releasenote: the changelog-section parser, embedded from
      [src/main.py] (class [Parser]) and [src/src/main.py] (module-level
      functions).

    Python [str] values are lists of code points; the development covers
    code points below 256, so a code point is an [ascii].  The Python
    library calls the program makes ([str.partition], [str.strip],
    [str.format], [re], [packaging.version]) are modelled first, then the
    two source files, then the properties. *)

From Stdlib Require Import Ascii String List Arith Bool Lia.
Import ListNotations.

(** ** Python strings *)

Definition str := list ascii.

Definition lit (s : string) : str := list_ascii_of_string s.
Coercion lit : string >-> str.

Local Open Scope string_scope.
Local Open Scope list_scope.
Local Open Scope nat_scope.

Module Py.

Definition code (c : ascii) : nat := nat_of_ascii c.

(** [str.isspace] on one code point below 256: the ASCII table of
    CPython (TAB, LF, VT, FF, CR, FS, GS, RS, US, SPACE) and the two
    Latin-1 code points NEL (0x85) and NBSP (0xA0). *)
Definition isspace (c : ascii) : bool :=
  let n := code c in
  ((9 <=? n) && (n <=? 13)) || ((28 <=? n) && (n <=? 32))
  || (n =? 133) || (n =? 160).

Fixpoint lstrip (s : str) : str :=
  match s with
  | c :: s' => if isspace c then lstrip s' else s
  | [] => []
  end.

Definition rstrip (s : str) : str := rev (lstrip (rev s)).

(** [s.strip()] *)
Definition strip (s : str) : str := rstrip (lstrip s).

Fixpoint str_eqb (a b : str) : bool :=
  match a, b with
  | [], [] => true
  | x :: a', y :: b' => Ascii.eqb x y && str_eqb a' b'
  | _, _ => false
  end.

(** [s.startswith(pre)] *)
Fixpoint startswith (pre s : str) : bool :=
  match pre, s with
  | [], _ => true
  | p :: pre', c :: s' => Ascii.eqb p c && startswith pre' s'
  | _ :: _, [] => false
  end.

(** [s[a:b]] for indices [0 <= a], [0 <= b]. *)
Definition slice (s : str) (a b : nat) : str := firstn (b - a) (skipn a s).

(** [s[a:]] *)
Definition slice_from (s : str) (a : nat) : str := skipn a s.

(** The scan of [s.partition(sep)] for a non-empty [sep]: the text
    before the first occurrence and the text after it. *)
Fixpoint split_first (sep s : str) : option (str * str) :=
  if startswith sep s then Some ([], skipn (length sep) s)
  else match s with
       | [] => None
       | c :: s' =>
           match split_first sep s' with
           | Some (before, after) => Some (c :: before, after)
           | None => None
           end
       end.

(** [s.partition(sep)]: [None] is [ValueError: empty separator];
    when [sep] does not occur the result is [(s, "", "")]. *)
Definition partition (s sep : str) : option (str * str * str) :=
  match sep with
  | [] => None
  | _ :: _ =>
      match split_first sep s with
      | Some (before, after) => Some (before, sep, after)
      | None => Some (s, [], [])
      end
  end.

(** [sub in s] *)
Fixpoint contains (sub s : str) : bool :=
  startswith sub s
  || match s with
     | [] => false
     | _ :: s' => contains sub s'
     end.

End Py.

Example strip_example : Py.strip "  a b  " = "a b".
Proof. reflexivity. Qed.

Example partition_example :
  Py.partition "xx--yy--zz" "--" = Some (lit "xx", lit "--", lit "yy--zz").
Proof. reflexivity. Qed.

(** ** Python regular expressions ([re])

    The fragment of the pattern language the program's own patterns are
    written in: literals, [.], sets, [\d], the anchors [^] and [$], greedy
    [*], [+] and [?], alternation, capturing, named and non-capturing
    groups, back-references and negative look-ahead.  The matcher is the
    backtracking search of CPython's engine: alternatives in order, greedy
    repeats first, captures restored on backtracking. *)

Module Re.

Inductive class_item : Type :=
| CChar (c : ascii)
| CRange (lo hi : ascii)
| CDigit.

Inductive regex : Type :=
| Empty
| Chr (c : ascii)
| Any
| Class (neg : bool) (items : list class_item)
| Bol
| Eol
| Seq (r1 r2 : regex)
| Alt (r1 r2 : regex)
| Star (r : regex)
| Plus (r : regex)
| Opt (r : regex)
| Group (i : nat) (r : regex)
| Backref (i : nat)
| NegLook (r : regex).

Definition is_digit (c : ascii) : bool :=
  (48 <=? Py.code c) && (Py.code c <=? 57).

Definition item_matches (c : ascii) (it : class_item) : bool :=
  match it with
  | CChar x => Ascii.eqb x c
  | CRange lo hi => (Py.code lo <=? Py.code c) && (Py.code c <=? Py.code hi)
  | CDigit => is_digit c
  end.

Definition class_matches (neg : bool) (items : list class_item) (c : ascii)
  : bool :=
  xorb neg (existsb (item_matches c) items).

Definition newline : ascii := "010"%char.

(** A position in the subject string: the code point before it, the
    text from it on, and its index. *)
Record cursor : Type := { prev : option ascii; rest : str; pos : nat }.

Definition next (c : ascii) (s : str) (cur : cursor) : cursor :=
  {| prev := Some c; rest := s; pos := S (pos cur) |}.

(** [seek p s n k]: the cursor [k] code points further (or at the end). *)
Fixpoint seek (p : option ascii) (s : str) (n k : nat) : cursor :=
  match k, s with
  | S k', c :: s' => seek (Some c) s' (S n) k'
  | _, _ => {| prev := p; rest := s; pos := n |}
  end.

Definition cursor_at (s : str) (i : nat) : cursor := seek None s 0 i.

(** The span of a group: start, end and the text between. *)
Definition span : Type := (nat * nat * str)%type.
Definition caps : Type := list (nat * span).

Fixpoint lookup (i : nat) (cs : caps) : option span :=
  match cs with
  | [] => None
  | (j, sp) :: cs' => if i =? j then Some sp else lookup i cs'
  end.

Definition outcome : Type := option (cursor * caps).
Definition cont : Type := cursor -> caps -> outcome.

Definition at_bol (multiline : bool) (cur : cursor) : bool :=
  match prev cur with
  | None => true
  | Some c => multiline && Ascii.eqb c newline
  end.

Definition at_eol (multiline : bool) (cur : cursor) : bool :=
  match rest cur with
  | [] => true
  | c :: s => Ascii.eqb c newline
              && (multiline || match s with [] => true | _ => false end)
  end.

(** A greedy repeat with no upper bound, [n] bounding the iterations
    left: one more iteration of [body] is tried first, the tail [k]
    after it fails; an iteration that consumed nothing goes to the
    tail at once. *)
Fixpoint repeat (body : cursor -> caps -> cont -> outcome) (k : cont)
  (n : nat) (cur : cursor) (cs : caps) : outcome :=
  match n with
  | 0 => k cur cs
  | S n' =>
      match body cur cs
              (fun cur' cs' =>
                 if pos cur' =? pos cur then k cur' cs'
                 else repeat body k n' cur' cs') with
      | Some res => Some res
      | None => k cur cs
      end
  end.

Fixpoint rmatch (ml : bool) (r : regex) (cur : cursor) (cs : caps)
  (k : cont) {struct r} : outcome :=
  match r with
  | Empty => k cur cs
  | Chr c =>
      match rest cur with
      | x :: s => if Ascii.eqb x c then k (next x s cur) cs else None
      | [] => None
      end
  | Any =>
      match rest cur with
      | x :: s => if Ascii.eqb x newline then None else k (next x s cur) cs
      | [] => None
      end
  | Class neg items =>
      match rest cur with
      | x :: s =>
          if class_matches neg items x then k (next x s cur) cs else None
      | [] => None
      end
  | Bol => if at_bol ml cur then k cur cs else None
  | Eol => if at_eol ml cur then k cur cs else None
  | Seq r1 r2 =>
      rmatch ml r1 cur cs (fun cur' cs' => rmatch ml r2 cur' cs' k)
  | Alt r1 r2 =>
      match rmatch ml r1 cur cs k with
      | Some res => Some res
      | None => rmatch ml r2 cur cs k
      end
  | Star r1 => repeat (rmatch ml r1) k (S (length (rest cur))) cur cs
  | Plus r1 =>
      rmatch ml r1 cur cs
        (fun cur' cs' =>
           repeat (rmatch ml r1) k (S (length (rest cur'))) cur' cs')
  | Opt r1 =>
      match rmatch ml r1 cur cs k with
      | Some res => Some res
      | None => k cur cs
      end
  | Group i r1 =>
      rmatch ml r1 cur cs
        (fun cur' cs' =>
           k cur' ((i, (pos cur, pos cur',
                        firstn (pos cur' - pos cur) (rest cur))) :: cs'))
  | Backref i =>
      match lookup i cs with
      | Some (_, _, t) =>
          if Py.startswith t (rest cur)
          then k (seek (prev cur) (rest cur) (pos cur) (length t)) cs
          else None
      | None => None
      end
  | NegLook r1 =>
      match rmatch ml r1 cur cs (fun cur' cs' => Some (cur', cs')) with
      | Some _ => None
      | None => k cur cs
      end
  end.

(** A match object: [m.start()], [m.end()] and the groups. *)
Record match_ : Type := { m_start : nat; m_end : nat; m_caps : caps }.

(** The accepting continuation; [must_advance] refuses an empty match
    at the starting index [n0]. *)
Definition accept (must_advance : bool) (n0 : nat) : cont :=
  fun cur cs =>
    if must_advance && (pos cur =? n0) then None else Some (cur, cs).

Definition match_at (ml : bool) (r : regex) (must_advance : bool)
  (cur : cursor) : option match_ :=
  match rmatch ml r cur [] (accept must_advance (pos cur)) with
  | Some (cur', cs) =>
      Some {| m_start := pos cur; m_end := pos cur'; m_caps := cs |}
  | None => None
  end.

(** The scan of [search]: the first index from the cursor on at which
    the pattern matches. *)
Fixpoint scan (ml : bool) (r : regex) (must_advance : bool)
  (p : option ascii) (s : str) (n : nat) {struct s} : option match_ :=
  match match_at ml r must_advance {| prev := p; rest := s; pos := n |} with
  | Some m => Some m
  | None =>
      match s with
      | [] => None
      | c :: s' => scan ml r false (Some c) s' (S n)
      end
  end.

End Re.

(** ** Compiling pattern text ([re.compile])

    One left-to-right pass with a stack of open groups.  [None] stands for
    [re.error] and for pattern syntax outside the fragment above (lazy and
    counted repeats, look-behind, inline flags, the other escapes). *)

Module ReParse.
Import Re.

Inductive gkind : Type :=
| KTop
| KCap (i : nat)
| KNonCap
| KNeg.

(** An open group: the finished alternatives and the items of the
    current one, both latest first. *)
Record frame : Type :=
  { f_kind : gkind; f_alts : list regex; f_seq : list regex }.

Inductive mode : Type :=
| MNormal
| MName (acc : str)
| MClass (neg : bool) (acc : list class_item).

Record pstate : Type :=
  { p_mode : mode;
    p_top : frame;
    p_stack : list frame;
    p_can_repeat : bool;
    p_ngroups : nat;
    p_closed : list nat;
    p_names : list (str * nat) }.

Fixpoint cat (items : list regex) : regex :=
  match items with
  | [] => Empty
  | [x] => x
  | x :: xs => Seq x (cat xs)
  end.

Fixpoint alt (branches : list regex) : regex :=
  match branches with
  | [] => Empty
  | [x] => x
  | x :: xs => Alt x (alt xs)
  end.

Definition build (f : frame) : regex :=
  alt (rev (cat (rev (f_seq f)) :: f_alts f)).

Definition initial : pstate :=
  {| p_mode := MNormal;
     p_top := {| f_kind := KTop; f_alts := []; f_seq := [] |};
     p_stack := []; p_can_repeat := false; p_ngroups := 0;
     p_closed := []; p_names := [] |}.

Definition push_item (repeatable : bool) (x : regex) (st : pstate)
  : pstate :=
  let f := p_top st in
  {| p_mode := MNormal;
     p_top := {| f_kind := f_kind f; f_alts := f_alts f;
                 f_seq := x :: f_seq f |};
     p_stack := p_stack st; p_can_repeat := repeatable;
     p_ngroups := p_ngroups st; p_closed := p_closed st;
     p_names := p_names st |}.

Definition open_group (kind : gkind) (st : pstate) : pstate :=
  {| p_mode := MNormal;
     p_top := {| f_kind := kind; f_alts := []; f_seq := [] |};
     p_stack := p_top st :: p_stack st; p_can_repeat := false;
     p_ngroups := match kind with
                  | KCap _ => S (p_ngroups st)
                  | _ => p_ngroups st
                  end;
     p_closed := p_closed st; p_names := p_names st |}.

Definition close_group (st : pstate) : option pstate :=
  match p_stack st with
  | [] => None
  | parent :: stack' =>
      let body := build (p_top st) in
      let reopened :=
        {| p_mode := MNormal; p_top := parent; p_stack := stack';
           p_can_repeat := false; p_ngroups := p_ngroups st;
           p_closed := match f_kind (p_top st) with
                       | KCap i => i :: p_closed st
                       | _ => p_closed st
                       end;
           p_names := p_names st |} in
      match f_kind (p_top st) with
      | KTop => None
      | KCap i => Some (push_item true (Group i body) reopened)
      | KNonCap => Some (push_item true body reopened)
      | KNeg => Some (push_item false (NegLook body) reopened)
      end
  end.

Definition next_branch (st : pstate) : pstate :=
  let f := p_top st in
  {| p_mode := MNormal;
     p_top := {| f_kind := f_kind f;
                 f_alts := cat (rev (f_seq f)) :: f_alts f;
                 f_seq := [] |};
     p_stack := p_stack st; p_can_repeat := false;
     p_ngroups := p_ngroups st; p_closed := p_closed st;
     p_names := p_names st |}.

Definition quantify (q : regex -> regex) (st : pstate) : option pstate :=
  if p_can_repeat st then
    match f_seq (p_top st) with
    | x :: items =>
        let f := p_top st in
        Some {| p_mode := MNormal;
                p_top := {| f_kind := f_kind f; f_alts := f_alts f;
                            f_seq := q x :: items |};
                p_stack := p_stack st; p_can_repeat := false;
                p_ngroups := p_ngroups st; p_closed := p_closed st;
                p_names := p_names st |}
    | [] => None
    end
  else None.

Definition set_mode (m : mode) (st : pstate) : pstate :=
  {| p_mode := m; p_top := p_top st; p_stack := p_stack st;
     p_can_repeat := p_can_repeat st; p_ngroups := p_ngroups st;
     p_closed := p_closed st; p_names := p_names st |}.

Definition is_upper (c : ascii) : bool :=
  (65 <=? Py.code c) && (Py.code c <=? 90).
Definition is_lower (c : ascii) : bool :=
  (97 <=? Py.code c) && (Py.code c <=? 122).
Definition is_word (c : ascii) : bool :=
  is_upper c || is_lower c || is_digit c || Ascii.eqb c "_"%char.

(** An ASCII code point that a backslash makes a literal: printable and
    neither a letter nor a digit. *)
Definition is_punct (c : ascii) : bool :=
  (32 <=? Py.code c) && (Py.code c <=? 126)
  && negb (is_upper c || is_lower c || is_digit c).

Definition is_repeat_suffix (s : str) : bool :=
  match s with
  | c :: _ => Ascii.eqb c "?"%char || Ascii.eqb c "+"%char
  | [] => false
  end.

Definition starts_with_digit (s : str) : bool :=
  match s with
  | c :: _ => is_digit c
  | [] => false
  end.

(** A named group opens: the name is an identifier not used before. *)
Definition open_named (name : str) (st : pstate) : option pstate :=
  match name with
  | [] => None
  | c :: _ =>
      if is_digit c then None
      else if existsb (fun e => Py.str_eqb (fst e) name) (p_names st)
      then None
      else
        let st' := open_group (KCap (S (p_ngroups st))) st in
        Some {| p_mode := MNormal; p_top := p_top st';
                p_stack := p_stack st'; p_can_repeat := false;
                p_ngroups := p_ngroups st'; p_closed := p_closed st';
                p_names := (name, p_ngroups st') :: p_names st |}
  end.

(** An escape outside a set. *)
Definition escape (e : ascii) (after : str) (st : pstate)
  : option pstate :=
  if Ascii.eqb e "d"%char then
    Some (push_item true (Class false [CDigit]) st)
  else if Ascii.eqb e "n"%char then Some (push_item true (Chr newline) st)
  else if Ascii.eqb e "t"%char then
    Some (push_item true (Chr "009"%char) st)
  else if Ascii.eqb e "r"%char then
    Some (push_item true (Chr "013"%char) st)
  else if is_digit e then
    let g := Py.code e - 48 in
    if starts_with_digit after then None
    else if existsb (Nat.eqb g) (p_closed st)
         then Some (push_item true (Backref g) st)
         else None
  else if is_punct e then Some (push_item true (Chr e) st)
  else None.

(** An escape inside a set. *)
Definition class_escape (e : ascii) : option class_item :=
  if Ascii.eqb e "d"%char then Some CDigit
  else if Ascii.eqb e "n"%char then Some (CChar newline)
  else if Ascii.eqb e "t"%char then Some (CChar "009"%char)
  else if Ascii.eqb e "r"%char then Some (CChar "013"%char)
  else if is_punct e then Some (CChar e)
  else None.

Definition finish (st : pstate) : option (regex * nat * list (str * nat)) :=
  match p_mode st, p_stack st, f_kind (p_top st) with
  | MNormal, [], KTop =>
      Some (build (p_top st), p_ngroups st, p_names st)
  | _, _, _ => None
  end.

Definition ch_is (c : ascii) (x : ascii) : bool := Ascii.eqb c x.
Arguments ch_is c x%_char.

Fixpoint parse (s : str) (st : pstate) {struct s}
  : option (regex * nat * list (str * nat)) :=
  match p_mode st with
  | MName acc =>
      match s with
      | [] => None
      | c :: s' =>
          if ch_is c ">" then
            match open_named (rev acc) st with
            | Some st' => parse s' st'
            | None => None
            end
          else if is_word c then parse s' (set_mode (MName (c :: acc)) st)
          else None
      end
  | MClass neg acc =>
      match s with
      | [] => None
      | c :: s' =>
          if ch_is c "]" then
            match acc with
            | [] => None
            | _ :: _ => parse s' (push_item true (Class neg (rev acc)) st)
            end
          else if ch_is c "[" then None
          else if ch_is c "\" then
            match s' with
            | [] => None
            | e :: s'' =>
                match class_escape e, s'' with
                | None, _ => None
                | Some it, d :: x :: _ =>
                    if ch_is d "-" && negb (ch_is x "]") then None
                    else parse s'' (set_mode (MClass neg (it :: acc)) st)
                | Some it, _ =>
                    parse s'' (set_mode (MClass neg (it :: acc)) st)
                end
            end
          else
            match s' with
            | d :: x :: s3 =>
                if ch_is d "-" && negb (ch_is x "]") then
                  if ch_is x "\" || ch_is x "[" then None
                  else if Py.code c <=? Py.code x then
                    parse s3 (set_mode (MClass neg (CRange c x :: acc)) st)
                  else None
                else parse s' (set_mode (MClass neg (CChar c :: acc)) st)
            | _ => parse s' (set_mode (MClass neg (CChar c :: acc)) st)
            end
      end
  | MNormal =>
      match s with
      | [] => finish st
      | c :: s' =>
          if ch_is c "\" then
            match s' with
            | [] => None
            | e :: s'' =>
                match escape e s'' st with
                | Some st' => parse s'' st'
                | None => None
                end
            end
          else if ch_is c "(" then
            match s' with
            | q :: s'' =>
                if ch_is q "?" then
                  match s'' with
                  | k :: s3 =>
                      if ch_is k ":" then parse s3 (open_group KNonCap st)
                      else if ch_is k "!" then parse s3 (open_group KNeg st)
                      else if ch_is k "P" then
                        match s3 with
                        | a :: s4 =>
                            if ch_is a "<"
                            then parse s4 (set_mode (MName []) st)
                            else None
                        | [] => None
                        end
                      else None
                  | [] => None
                  end
                else parse s' (open_group (KCap (S (p_ngroups st))) st)
            | [] => None
            end
          else if ch_is c ")" then
            match close_group st with
            | Some st' => parse s' st'
            | None => None
            end
          else if ch_is c "|" then parse s' (next_branch st)
          else if ch_is c "*" then
            if is_repeat_suffix s' then None
            else match quantify Star st with
                 | Some st' => parse s' st'
                 | None => None
                 end
          else if ch_is c "+" then
            if is_repeat_suffix s' then None
            else match quantify Plus st with
                 | Some st' => parse s' st'
                 | None => None
                 end
          else if ch_is c "?" then
            if is_repeat_suffix s' then None
            else match quantify Opt st with
                 | Some st' => parse s' st'
                 | None => None
                 end
          else if ch_is c "[" then
            match s' with
            | x :: s'' =>
                if ch_is x "^" then parse s'' (set_mode (MClass true []) st)
                else parse s' (set_mode (MClass false []) st)
            | [] => None
            end
          else if ch_is c "." then parse s' (push_item true Any st)
          else if ch_is c "^" then parse s' (push_item false Bol st)
          else if ch_is c "$" then parse s' (push_item false Eol st)
          else if ch_is c "{" then None
          else parse s' (push_item true (Chr c) st)
      end
  end.

End ReParse.

(** ** The [re] interface the program uses *)

Module re.

(** A compiled pattern object. *)
Record pattern : Type :=
  { source : str;
    multiline : bool;
    prog : Re.regex;
    groups : nat;
    groupindex : list (str * nat) }.

(** [re.compile(src, re.MULTILINE)] when [ml], [re.compile(src)]
    otherwise. *)
Definition compile (src : str) (ml : bool) : option pattern :=
  match ReParse.parse src ReParse.initial with
  | Some (r, n, names) =>
      Some {| source := src; multiline := ml; prog := r; groups := n;
              groupindex := names |}
  | None => None
  end.

(** [p.match(s)] *)
Definition match_ (p : pattern) (s : str) : option Re.match_ :=
  Re.match_at (multiline p) (prog p) false (Re.cursor_at s 0).

Definition search_from (p : pattern) (s : str) (start : nat)
  (must_advance : bool) : option Re.match_ :=
  let cur := Re.cursor_at s start in
  Re.scan (multiline p) (prog p) must_advance
    (Re.prev cur) (Re.rest cur) (Re.pos cur).

(** [p.search(s, start)] *)
Definition search (p : pattern) (s : str) (start : nat)
  : option Re.match_ :=
  search_from p s start false.

(** [m.group(i)]: [None] when the group took no part in the match. *)
Definition group (m : Re.match_) (i : nat) : option str :=
  match Re.lookup i (Re.m_caps m) with
  | Some (_, _, t) => Some t
  | None => None
  end.

Fixpoint index_of (name : str) (names : list (str * nat)) : option nat :=
  match names with
  | [] => None
  | (n, i) :: names' =>
      if Py.str_eqb n name then Some i else index_of name names'
  end.

(** [m.group(name)]: the outer [None] is [IndexError: no such group]. *)
Definition group_named (p : pattern) (m : Re.match_) (name : str)
  : option (option str) :=
  match index_of name (groupindex p) with
  | Some i => Some (group m i)
  | None => None
  end.

(** The replacement template of [re.sub]: literal code points and
    [\1] .. [\9]. *)
Inductive ritem : Type :=
| RLit (c : ascii)
| RGroup (i : nat).

Fixpoint parse_template (ngroups : nat) (t : str) : option (list ritem) :=
  match t with
  | [] => Some []
  | c :: t' =>
      if ReParse.ch_is c "\" then
        match t' with
        | [] => None
        | e :: t'' =>
            let item :=
              if ReParse.ch_is e "\" then Some (RLit e)
              else if ReParse.ch_is e "n" then Some (RLit Re.newline)
              else if Re.is_digit e && negb (ReParse.starts_with_digit t'')
              then
                let g := Py.code e - 48 in
                if (1 <=? g) && (g <=? ngroups) then Some (RGroup g)
                else None
              else None in
            match item, parse_template ngroups t'' with
            | Some it, Some items => Some (it :: items)
            | _, _ => None
            end
        end
      else
        match parse_template ngroups t' with
        | Some items => Some (RLit c :: items)
        | None => None
        end
  end.

Fixpoint expand (m : Re.match_) (items : list ritem) : str :=
  match items with
  | [] => []
  | RLit c :: items' => c :: expand m items'
  | RGroup i :: items' =>
      match group m i with
      | Some t => t
      | None => []
      end ++ expand m items'
  end.

(** The loop of [sub]: [i] is the end of the last match and
    [must_advance] is set after an empty one. *)
Fixpoint sub_loop (p : pattern) (items : list ritem) (s : str)
  (fuel i : nat) (must_advance : bool) : str :=
  match fuel with
  | 0 => Py.slice_from s i
  | S fuel' =>
      match search_from p s i must_advance with
      | None => Py.slice_from s i
      | Some m =>
          Py.slice s i (Re.m_start m) ++ expand m items
          ++ sub_loop p items s fuel' (Re.m_end m)
               (Re.m_start m =? Re.m_end m)
      end
  end.

(** [re.sub(pat, repl, s)] *)
Definition sub (pat repl s : str) : option str :=
  match compile pat false with
  | None => None
  | Some p =>
      match parse_template (groups p) repl with
      | None => None
      | Some items => Some (sub_loop p items s (2 * length s + 2) 0 false)
      end
  end.

End re.

(** ** [str.format] with keyword arguments

    Replacement fields hold a bare keyword name; [{{] and [}}] are the
    escaped braces.  [None] stands for the [KeyError], [IndexError] or
    [ValueError] of a malformed or unknown field, and for fields with a
    conversion, a format spec, an attribute or an index.  On the templates
    whose fields are plain names ([plain_fields], below) [None] is an
    exception raised by [str.format]. *)

Module Format.

Definition kwargs : Type := list (str * str).

Fixpoint get (kw : kwargs) (name : str) : option str :=
  match kw with
  | [] => None
  | (n, v) :: kw' => if Py.str_eqb n name then Some v else get kw' name
  end.

(** [field] is [Some acc] inside a replacement field, [acc] holding the
    name read so far, latest code point first. *)
Fixpoint scan (kw : kwargs) (field : option str) (s : str) {struct s}
  : option str :=
  match field, s with
  | None, [] => Some []
  | Some _, [] => None
  | None, c :: s' =>
      if ReParse.ch_is c "{" then
        match s' with
        | d :: s'' =>
            if ReParse.ch_is d "{"
            then option_map (cons c) (scan kw None s'')
            else scan kw (Some []) s'
        | [] => None
        end
      else if ReParse.ch_is c "}" then
        match s' with
        | d :: s'' =>
            if ReParse.ch_is d "}"
            then option_map (cons c) (scan kw None s'')
            else None
        | [] => None
        end
      else option_map (cons c) (scan kw None s')
  | Some acc, c :: s' =>
      if ReParse.ch_is c "}" then
        match get kw (rev acc), scan kw None s' with
        | Some v, Some out => Some (v ++ out)
        | _, _ => None
        end
      else if ReParse.is_word c then scan kw (Some (c :: acc)) s'
      else None
  end.

(** [template.format] applied to the keyword arguments [kw] *)
Definition format (template : str) (kw : kwargs) : option str :=
  scan kw None template.

End Format.

(** ** [packaging.version]

    The version library is outside the repository: [parse] turns text
    into a version ([None] is [InvalidVersion]), versions are ordered by
    [lt], a strict order, and [show] is [str(v)]. *)

Class Packaging : Type :=
  { Version : Type;
    parse_version : str -> option Version;
    lt : Version -> Version -> bool;
    show : Version -> str;
    lt_irrefl : forall v, lt v v = false;
    lt_asym : forall v w, lt v w = true -> lt w v = false }.

(** ** Outcomes *)

Inductive error : Type :=
(** [ValueError("Cannot find TOWNCRIER start mark (...) in file ...")] *)
| StartMarkNotFound (start_line : str)
(** [ValueError("Cannot find TOWNCRIER version head mark (...) in file ...")] *)
| HeadMarkNotFound (pattern changes_file : str)
(** [ValueError("The distribution version ... is older than ...")] *)
| DistributionOlder (dver fver changes_file : str)
(** [ValueError("The distribution version ... is younger than ...")] *)
| DistributionYounger (dver fver changes_file : str)
(** [ValueError("Git head '...' doesn't point at a tag")] *)
| NotATag (head : str)
(** [ValueError("Git tag '...' mismatches with version '...'")] *)
| TagMismatch (tag version : str)
(** [ValueError("No one of 'version', 'version_file' is set")] *)
| NoVersionSource
(** [ValueError("version and version_file arguments are ambiguous")] *)
| AmbiguousVersionSource
(** [ValueError("Unable to determine version in file '...'")] *)
| VersionNotDetermined (version_file : str)
(** [ValueError("fix_issue_regex and fix_issue_repl should be used
    together")] *)
| FixIssueNotPaired
(** [ValueError("file '...' doesn't exist")] *)
| FileMissing (name : str)
(** [ValueError("empty separator")], raised by [str.partition] *)
| EmptySeparator
(** [InvalidVersion], raised by [parse_version] *)
| InvalidVersion (text : str)
(** [TypeError], raised by [parse_version(None)] *)
| VersionIsNone
(** [IndexError("no such group")], raised by [match.group] *)
| NoSuchGroup (name : str)
(** [str.format] or [re.compile] raised, or the pattern is outside the
    modelled fragment *)
| PatternRejected.

Inductive result (A : Type) : Type :=
| Ok (a : A)
| Raise (e : error).
Arguments Ok {A} a.
Arguments Raise {A} e.

Definition bind {A B : Type} (x : result A) (f : A -> result B) : result B :=
  match x with
  | Ok a => f a
  | Raise e => Raise e
  end.

Notation "x <- e ;; k" := (bind e (fun x => k))
  (at level 61, e at next level, right associativity).
Notation "e ;;; k" := (bind e (fun _ => k))
  (at level 61, right associativity).

(** The text of the two version-mismatch errors. *)
Definition message_older (dver fver changes_file : str) : str :=
  lit "The distribution version " ++ dver ++ lit " is older than "
  ++ fver ++ lit " (from '" ++ changes_file ++ lit "')."
  ++ [Re.newline] ++ lit "Hint: push git tag with the latest version.".

Definition message_younger (dver fver changes_file : str) : str :=
  lit "The distribution version " ++ dver ++ lit " is younger than "
  ++ fver ++ lit " (from '" ++ changes_file ++ lit "')."
  ++ [Re.newline] ++ lit "Hint: run 'towncrier' again.".

Definition message (e : error) : option str :=
  match e with
  | DistributionOlder d f c => Some (message_older d f c)
  | DistributionYounger d f c => Some (message_younger d f c)
  | _ => None
  end.

(** ** [Context]

    [files] is the directory tree under [root]: the text of each file
    that exists. *)
Record Context : Type :=
  { files : str -> option str;
    version : str }.

Definition read_file (ctx : Context) (name : str) : result str :=
  match files ctx name with
  | Some text => Ok text
  | None => Raise (FileMissing name)
  end.

Definition nonempty (s : str) : bool :=
  match s with
  | [] => false
  | _ :: _ => true
  end.

Definition double_quote : ascii := "034"%char.

(** The [version] and [date] fields of the heading template. *)
Definition version_field : str :=
  "(?P<version>[0-9][0-9.abcr]+(\.post[0-9]+)?)".
Definition bracketed_version_field : str :=
  "\[(?P<version>[0-9][0-9.abcr]+(\.post[0-9]+)?)\]".
Definition date_field : str := "\d+-\d+-\d+".

(** [VERSION_RE], the same in both files:
    [^{version} *= *{spec}] with [version] the alternation of the two
    names and [spec] a quote, the text up to the same quote, the quote. *)
Definition VERSION_RE_source : option str :=
  Format.format "^{version} *= *{spec}"
    [(lit "version", lit "(?:__version__|version)");
     (lit "spec",
      lit "([" ++ [double_quote] ++ lit "'])((?:(?!\1).)*)\1")].

Definition VERSION_RE : option re.pattern :=
  match VERSION_RE_source with
  | Some src => re.compile src true
  | None => None
  end.

(** ** [src/src/main.py]: the module-level functions *)

Section Functions.
Context {P : Packaging}.

Definition check_changes_version (declared_version : str)
  (found_version : option str) (changes_file : str) : result unit :=
  match found_version with
  | Some found =>
      if Py.str_eqb declared_version found then Ok tt
      else
        match parse_version declared_version with
        | None => Raise (InvalidVersion declared_version)
        | Some dver =>
            match parse_version found with
            | None => Raise (InvalidVersion found)
            | Some fver =>
                if lt dver fver
                then Raise (DistributionOlder (show dver) (show fver)
                              changes_file)
                else Raise (DistributionYounger (show dver) (show fver)
                              changes_file)
            end
        end
  | None =>
      match parse_version declared_version with
      | None => Raise (InvalidVersion declared_version)
      | Some _ => Raise VersionIsNone
      end
  end.

Definition _parse_changes (changes changes_file version start_line
  head_line fix_issue_regex fix_issue_repl name : str) : result str :=
  match Py.partition changes start_line with
  | None => Raise EmptySeparator
  | Some (_, sep, msg) =>
      if negb (nonempty sep) then Raise (StartMarkNotFound start_line)
      else
        let msg := Py.strip msg in
        match Format.format head_line
                [(lit "version", version_field);
                 (lit "date", date_field);
                 (lit "name", name)] with
        | None => Raise PatternRejected
        | Some src =>
            match re.compile src true with
            | None => Raise PatternRejected
            | Some head_re =>
                match re.match_ head_re msg with
                | None =>
                    Raise (HeadMarkNotFound (re.source head_re)
                             changes_file)
                | Some m =>
                    match re.group_named head_re m "version" with
                    | None => Raise (NoSuchGroup "version")
                    | Some found_version =>
                        check_changes_version version found_version
                          changes_file ;;;
                        let msg :=
                          match re.search head_re msg (Re.m_end m) with
                          | Some m2 =>
                              Py.slice msg (Re.m_end m) (Re.m_start m2)
                          | None => Py.slice_from msg (Re.m_end m)
                          end in
                        if nonempty fix_issue_regex then
                          match re.sub fix_issue_regex fix_issue_repl
                                  msg with
                          | None => Raise PatternRejected
                          | Some msg' => Ok (Py.strip msg')
                          end
                        else Ok (Py.strip msg)
                    end
                end
            end
        end
  end.

Definition check_fix_issue (fix_issue_regex fix_issue_repl : str)
  : result unit :=
  if nonempty fix_issue_regex && negb (nonempty fix_issue_repl)
     || negb (nonempty fix_issue_regex) && nonempty fix_issue_repl
  then Raise FixIssueNotPaired
  else Ok tt.

Definition parse_changes (ctx : Context) (changes_file start_line
  head_line fix_issue_regex fix_issue_repl name : str) : result str :=
  check_fix_issue fix_issue_regex fix_issue_repl ;;;
  changes <- read_file ctx changes_file ;;
  _parse_changes changes changes_file (version ctx) start_line head_line
    fix_issue_regex fix_issue_repl name.

Definition find_version (ctx : Context) (version_file version : str)
  : result (option str) :=
  if negb (nonempty version) && negb (nonempty version_file)
  then Raise NoVersionSource
  else if nonempty version then
    if nonempty version_file then Raise AmbiguousVersionSource
    else Ok (Some version)
  else
    txt <- read_file ctx version_file ;;
    match VERSION_RE with
    | None => Raise PatternRejected
    | Some p =>
        match re.search p txt 0 with
        | Some m => Ok (re.group m 2)
        | None => Raise (VersionNotDetermined version_file)
        end
    end.

Definition check_head (version : str) (head : option str) : result unit :=
  match head with
  | None | Some [] => Ok tt
  | Some head =>
      let pre : str := "refs/tags/" in
      if negb (Py.startswith pre head) then Raise (NotATag head)
      else
        let tag := Py.slice_from head (length pre) in
        if negb (Py.str_eqb tag version)
           && negb (Py.str_eqb tag (lit "v" ++ version))
        then Raise (TagMismatch tag version)
        else Ok tt
  end.

End Functions.

(** ** [src/main.py]: class [Parser] *)

Module Parser.

(** The attributes set by [__init__]. *)
Record t : Type := { changes_file : str; name : str }.

Section Methods.
Context {P : Packaging}.
Variable self : t.

Definition check_head (version : str) (head : option str)
  : result unit :=
  match head with
  | None | Some [] => Ok tt
  | Some head =>
      let pre : str := "refs/tags/" in
      if negb (Py.startswith pre head) then Raise (NotATag head)
      else
        let tag := Py.slice_from head (length pre) in
        if negb (Py.str_eqb tag version)
           && negb (Py.str_eqb tag (lit "v" ++ version))
        then Raise (TagMismatch tag version)
        else Ok tt
  end.

Definition check_changes_version (declared_version : str)
  (found_version : option str) : result unit :=
  match found_version with
  | Some found =>
      if Py.str_eqb declared_version found then Ok tt
      else
        match parse_version declared_version with
        | None => Raise (InvalidVersion declared_version)
        | Some dver =>
            match parse_version found with
            | None => Raise (InvalidVersion found)
            | Some fver =>
                if lt dver fver
                then Raise (DistributionOlder (show dver) (show fver)
                              (changes_file self))
                else Raise (DistributionYounger (show dver) (show fver)
                              (changes_file self))
            end
        end
  | None =>
      match parse_version declared_version with
      | None => Raise (InvalidVersion declared_version)
      | Some _ => Raise VersionIsNone
      end
  end.

Definition find_version (ctx : Context) (version_file version : str)
  : result (option str) :=
  if negb (nonempty version) && negb (nonempty version_file)
  then Raise NoVersionSource
  else if nonempty version then
    if nonempty version_file then Raise AmbiguousVersionSource
    else Ok (Some version)
  else
    txt <- read_file ctx version_file ;;
    match VERSION_RE with
    | None => Raise PatternRejected
    | Some p =>
        match re.search p txt 0 with
        | Some m => Ok (re.group m 2)
        | None => Raise (VersionNotDetermined version_file)
        end
    end.

Definition parse (ctx : Context) (start_line head_line fix_issue_regex
  fix_issue_repl : str) (input_check_ref : option str) : result str :=
  if nonempty fix_issue_regex && negb (nonempty fix_issue_repl)
     || negb (nonempty fix_issue_regex) && nonempty fix_issue_repl
  then Raise FixIssueNotPaired
  else
    check_head (version ctx) input_check_ref ;;;
    changes <- read_file ctx (changes_file self) ;;
    match Py.partition changes start_line with
    | None => Raise EmptySeparator
    | Some (_, sep, msg) =>
        if negb (nonempty sep) then Raise (StartMarkNotFound start_line)
        else
          let msg := Py.strip msg in
          match Format.format head_line
                  [(lit "version", bracketed_version_field);
                   (lit "date", date_field);
                   (lit "name", name self)] with
          | None => Raise PatternRejected
          | Some src =>
              match re.compile src true with
              | None => Raise PatternRejected
              | Some head_re =>
                  match re.match_ head_re msg with
                  | None =>
                      Raise (HeadMarkNotFound (re.source head_re)
                               (changes_file self))
                  | Some m =>
                      match re.group_named head_re m "version" with
                      | None => Raise (NoSuchGroup "version")
                      | Some found_version =>
                          check_changes_version (version ctx)
                            found_version ;;;
                          let msg :=
                            match re.search head_re msg (Re.m_end m) with
                            | Some m2 =>
                                Py.slice msg (Re.m_end m)
                                  (Re.m_start m2)
                            | None => Py.slice_from msg (Re.m_end m)
                            end in
                          if nonempty fix_issue_regex then
                            match re.sub fix_issue_regex fix_issue_repl
                                    msg with
                            | None => Raise PatternRejected
                            | Some msg' => Ok (Py.strip msg')
                            end
                          else Ok (Py.strip msg)
                      end
                  end
              end
          end
    end.

End Methods.

End Parser.

(** ** A version library for examples: release segments only

    The versions [N(.N)*] of PEP 440, ordered by their release tuple
    with trailing zeros dropped; every other text is rejected. *)

Module Release.

Definition digit_value (c : ascii) : nat := Py.code c - 48.

(** Numbers between dots; [cur] is the number being read. *)
Fixpoint segments (s : str) (cur : option nat) : option (list nat) :=
  match s with
  | [] =>
      match cur with
      | Some n => Some [n]
      | None => None
      end
  | c :: s' =>
      if Re.is_digit c then
        segments s' (Some (10 * match cur with
                                | Some n => n
                                | None => 0
                                end + digit_value c))
      else if ReParse.ch_is c "." then
        match cur, segments s' None with
        | Some n, Some ns => Some (n :: ns)
        | _, _ => None
        end
      else None
  end.

Definition parse_release (s : str) : option (list nat) :=
  segments s None.

Fixpoint strip_zeros (v : list nat) : list nat :=
  match v with
  | [] => []
  | n :: v' =>
      match n, strip_zeros v' with
      | 0, [] => []
      | _, t => n :: t
      end
  end.

Fixpoint lex_lt (v w : list nat) : bool :=
  match v, w with
  | _, [] => false
  | [], _ :: _ => true
  | a :: v', b :: w' => (a <? b) || ((a =? b) && lex_lt v' w')
  end.

Definition before (v w : list nat) : bool :=
  lex_lt (strip_zeros v) (strip_zeros w).

Definition digit_char (n : nat) : ascii := ascii_of_nat (48 + n).

Fixpoint decimal (fuel n : nat) (acc : str) : str :=
  match fuel with
  | 0 => acc
  | S fuel' =>
      let acc' := digit_char (n mod 10) :: acc in
      if n <? 10 then acc' else decimal fuel' (n / 10) acc'
  end.

Fixpoint render (v : list nat) : str :=
  match v with
  | [] => []
  | [n] => decimal (S n) n []
  | n :: v' => decimal (S n) n [] ++ lit "." ++ render v'
  end.

Lemma lex_lt_irrefl : forall v, lex_lt v v = false.
Proof.
  induction v as [|a v IH]; simpl; [reflexivity|].
  rewrite Nat.ltb_irrefl, Nat.eqb_refl, IH. reflexivity.
Qed.

Lemma lex_lt_asym : forall v w, lex_lt v w = true -> lex_lt w v = false.
Proof.
  induction v as [|a v IH]; intros [|b w] H; simpl in *;
    try reflexivity; try discriminate.
  apply orb_true_iff in H. apply orb_false_iff.
  destruct H as [H|H].
  - apply Nat.ltb_lt in H. split.
    + apply Nat.ltb_ge. lia.
    + replace (b =? a) with false; [reflexivity|].
      symmetry. apply Nat.eqb_neq. lia.
  - apply andb_true_iff in H. destruct H as [E H].
    apply Nat.eqb_eq in E. subst b. split.
    + apply Nat.ltb_irrefl.
    + rewrite (IH _ H). apply andb_false_r.
Qed.

#[export] Instance packaging : Packaging :=
  {| Version := list nat;
     parse_version := parse_release;
     lt := before;
     show := render;
     lt_irrefl := fun v => lex_lt_irrefl (strip_zeros v);
     lt_asym := fun v w => lex_lt_asym (strip_zeros v) (strip_zeros w) |}.

End Release.

(** * Properties *)

(** ** Strings *)

Section StringFacts.

Lemma str_eqb_eq : forall a b, Py.str_eqb a b = true <-> a = b.
Proof.
  induction a as [|x a IH]; intros [|y b]; simpl; split; intro H;
    try reflexivity; try discriminate.
  - apply andb_true_iff in H. destruct H as [E H].
    apply Ascii.eqb_eq in E. apply IH in H. congruence.
  - injection H as -> ->. rewrite Ascii.eqb_refl. simpl.
    apply IH. reflexivity.
Qed.

Lemma str_eqb_refl : forall a, Py.str_eqb a a = true.
Proof. intro a. apply str_eqb_eq. reflexivity. Qed.

Lemma str_eqb_neq : forall a b, a <> b -> Py.str_eqb a b = false.
Proof.
  intros a b H. destruct (Py.str_eqb a b) eqn:E; [|reflexivity].
  apply str_eqb_eq in E. contradiction.
Qed.

Lemma startswith_app : forall pre t, Py.startswith pre (pre ++ t) = true.
Proof.
  induction pre as [|p pre IH]; intro t; simpl; [reflexivity|].
  rewrite Ascii.eqb_refl. apply IH.
Qed.

Lemma startswith_inv :
  forall pre s, Py.startswith pre s = true -> exists t, s = pre ++ t.
Proof.
  induction pre as [|p pre IH]; intros s H; simpl in *.
  - exists s. reflexivity.
  - destruct s as [|c s]; [discriminate|].
    apply andb_true_iff in H. destruct H as [E H].
    apply Ascii.eqb_eq in E. subst c.
    destruct (IH _ H) as [t ->]. exists t. reflexivity.
Qed.

Lemma skipn_length_app :
  forall (pre t : str), skipn (length pre) (pre ++ t) = t.
Proof. induction pre; intro t; simpl; auto. Qed.

(** [sep] occurs in [s]. *)
Definition occurs (sep s : str) : Prop :=
  exists before after, s = before ++ sep ++ after.

(** [before] and [after] surround the first occurrence of [sep]. *)
Definition first_occurrence (s sep before after : str) : Prop :=
  s = before ++ sep ++ after
  /\ forall b a, s = b ++ sep ++ a -> length before <= length b.

Lemma split_first_sound :
  forall sep s before after,
    Py.split_first sep s = Some (before, after) ->
    first_occurrence s sep before after.
Proof.
  intros sep s. induction s as [|c s IH]; intros before after H.
  - simpl in H. destruct (Py.startswith sep []) eqn:E; [|discriminate].
    injection H as <- <-. destruct sep; [|discriminate].
    split; [reflexivity | intros; simpl; lia].
  - simpl in H. destruct (Py.startswith sep (c :: s)) eqn:E.
    + injection H as <- <-. apply startswith_inv in E.
      destruct E as [t E]. split.
      * rewrite E, skipn_length_app. reflexivity.
      * intros; simpl; lia.
    + destruct (Py.split_first sep s) as [[b0 a0]|] eqn:E2;
        [|discriminate].
      injection H as <- <-. destruct (IH _ _ eq_refl) as [Hs Hmin].
      split.
      * simpl. rewrite <- Hs. reflexivity.
      * intros b a Hb. destruct b as [|x b].
        -- simpl in Hb. rewrite Hb, startswith_app in E. discriminate.
        -- simpl in Hb. injection Hb as _ Hb. simpl.
           apply le_n_S. eapply Hmin. exact Hb.
Qed.

Lemma split_first_none :
  forall sep s, Py.split_first sep s = None -> ~ occurs sep s.
Proof.
  intros sep s. induction s as [|c s IH]; intros H [b [a Hs]].
  - simpl in H. destruct (Py.startswith sep []) eqn:E; [discriminate|].
    destruct b; [|discriminate]. simpl in Hs.
    rewrite Hs, startswith_app in E. discriminate.
  - simpl in H. destruct (Py.startswith sep (c :: s)) eqn:E;
      [discriminate|].
    destruct (Py.split_first sep s) as [[b0 a0]|] eqn:E2; [discriminate|].
    destruct b as [|x b].
    + simpl in Hs. rewrite Hs, startswith_app in E. discriminate.
    + simpl in Hs. injection Hs as _ Hs. apply IH; [reflexivity|].
      exists b, a. exact Hs.
Qed.

Lemma first_occurrence_unique :
  forall s sep b1 a1 b2 a2,
    first_occurrence s sep b1 a1 -> first_occurrence s sep b2 a2 ->
    b1 = b2 /\ a1 = a2.
Proof.
  intros s sep b1 a1 b2 a2 [H1 M1] [H2 M2].
  assert (L : length b1 = length b2).
  { apply Nat.le_antisymm; [eapply M1 | eapply M2]; eassumption. }
  assert (B : b1 = b2).
  { assert (F : firstn (length b1) s = b1).
    { rewrite H1. rewrite firstn_app, Nat.sub_diag, firstn_all. simpl.
      apply app_nil_r. }
    rewrite H2, L in F. rewrite firstn_app, Nat.sub_diag, firstn_all in F.
    simpl in F. rewrite app_nil_r in F. congruence. }
  subst b2. split; [reflexivity|].
  rewrite H1 in H2. apply app_inv_head in H2. apply app_inv_head in H2.
  exact H2.
Qed.

Lemma split_first_complete :
  forall s sep before after,
    first_occurrence s sep before after ->
    Py.split_first sep s = Some (before, after).
Proof.
  intros s sep before after H.
  destruct (Py.split_first sep s) as [[b a]|] eqn:E.
  - apply split_first_sound in E.
    destruct (first_occurrence_unique _ _ _ _ _ _ E H) as [-> ->].
    reflexivity.
  - exfalso. apply (split_first_none _ _ E).
    exists before, after. apply H.
Qed.

End StringFacts.

(** ** The matcher consumes a text of the pattern's language *)

Module ReFacts.
Import Re.

(** The texts a pattern can consume.  Assertions consume nothing; for a
    back-reference any text is allowed. *)
Fixpoint denote (r : regex) (t : str) : Prop :=
  match r with
  | Empty | Bol | Eol | NegLook _ => t = []
  | Chr c => t = [c]
  | Any => exists x, t = [x] /\ x <> newline
  | Class neg items => exists x, t = [x] /\ class_matches neg items x = true
  | Seq r1 r2 => exists t1 t2, t = t1 ++ t2 /\ denote r1 t1 /\ denote r2 t2
  | Alt r1 r2 => denote r1 t \/ denote r2 t
  | Star r1 => exists ts, t = concat ts /\ Forall (denote r1) ts
  | Plus r1 =>
      exists t1 ts, t = t1 ++ concat ts /\ denote r1 t1
                    /\ Forall (denote r1) ts
  | Opt r1 => t = [] \/ denote r1 t
  | Group _ r1 => denote r1 t
  | Backref _ => True
  end.

(** The cursor after the text [t], with [u] left. *)
Definition after (cur : cursor) (t u : str) : cursor :=
  {| prev := match rev t with
             | x :: _ => Some x
             | [] => prev cur
             end;
     rest := u;
     pos := length t + pos cur |}.

Lemma after_nil : forall cur, after cur [] (rest cur) = cur.
Proof. intros [p s n]. reflexivity. Qed.

Lemma after_one :
  forall cur x s, after cur [x] s = next x s cur.
Proof. reflexivity. Qed.

Lemma after_after :
  forall cur t1 u1 t2 u2,
    after (after cur t1 u1) t2 u2 = after cur (t1 ++ t2) u2.
Proof.
  intros cur t1 u1 t2 u2. unfold after. simpl. f_equal.
  - rewrite rev_app_distr. destruct (rev t2); reflexivity.
  - rewrite length_app. lia.
Qed.

Lemma seek_after :
  forall t u p n,
    seek p (t ++ u) n (length t)
    = after {| prev := p; rest := t ++ u; pos := n |} t u.
Proof.
  induction t as [|x t IH]; intros u p n.
  - destruct u; reflexivity.
  - simpl. rewrite IH. unfold after. simpl. f_equal.
    + destruct (rev t) as [|y l]; reflexivity.
    + lia.
Qed.

(** What a successful match hands to its continuation. *)
Definition consumes (r : regex) (cur : cursor) (k : cont)
  (res : cursor * caps) : Prop :=
  exists t u cs',
    rest cur = t ++ u /\ denote r t /\ k (after cur t u) cs' = Some res.

Lemma repeat_sound :
  forall (body : cursor -> caps -> cont -> outcome) (D : str -> Prop),
    (forall cur cs k res,
        body cur cs k = Some res ->
        exists t u cs',
          rest cur = t ++ u /\ D t /\ k (after cur t u) cs' = Some res) ->
    forall n k cur cs res,
      repeat body k n cur cs = Some res ->
      exists ts u cs',
        rest cur = concat ts ++ u /\ Forall D ts
        /\ k (after cur (concat ts) u) cs' = Some res.
Proof.
  intros body D Hbody. induction n as [|n IH]; intros k cur cs res H.
  - simpl in H. exists [], (rest cur), cs. simpl.
    rewrite after_nil. auto.
  - simpl in H.
    destruct (body cur cs _) as [res'|] eqn:E.
    + injection H as ->. apply Hbody in E.
      destruct E as (t & u & cs' & Hr & Ht & Hk).
      destruct (pos (after cur t u) =? pos cur) eqn:Ep.
      * exists [t], u, cs'. simpl. rewrite app_nil_r. auto.
      * apply IH in Hk. destruct Hk as (ts & u' & cs'' & Hr' & Hts & Hk).
        simpl in Hr'. exists (t :: ts), u', cs''. simpl.
        rewrite <- app_assoc, <- Hr'. rewrite after_after in Hk. auto.
    + exists [], (rest cur), cs. simpl. rewrite after_nil. auto.
Qed.

Theorem rmatch_sound :
  forall ml r cur cs k res,
    rmatch ml r cur cs k = Some res -> consumes r cur k res.
Proof.
  intros ml r. induction r; intros cur cs k res H; cbn [rmatch] in H;
    unfold consumes; cbn [denote].
  - exists [], (rest cur), cs. rewrite after_nil. auto.
  - destruct (rest cur) as [|x s] eqn:E; [discriminate|].
    destruct (Ascii.eqb x c) eqn:Ex; [|discriminate].
    apply Ascii.eqb_eq in Ex. subst x. exists [c], s, cs. auto.
  - destruct (rest cur) as [|x s] eqn:E; [discriminate|].
    destruct (Ascii.eqb x newline) eqn:Ex; [discriminate|].
    apply Ascii.eqb_neq in Ex. exists [x], s, cs. eauto.
  - destruct (rest cur) as [|x s] eqn:E; [discriminate|].
    destruct (class_matches neg items x) eqn:Ex; [|discriminate].
    exists [x], s, cs. eauto.
  - destruct (at_bol ml cur); [|discriminate].
    exists [], (rest cur), cs. rewrite after_nil. auto.
  - destruct (at_eol ml cur); [|discriminate].
    exists [], (rest cur), cs. rewrite after_nil. auto.
  - apply IHr1 in H. destruct H as (t1 & u1 & cs1 & Hr1 & Hd1 & Hk1).
    apply IHr2 in Hk1. destruct Hk1 as (t2 & u2 & cs2 & Hr2 & Hd2 & Hk2).
    simpl in Hr2. subst u1. exists (t1 ++ t2), u2, cs2.
    rewrite <- app_assoc, <- after_after with (u1 := t2 ++ u2). eauto 8.
  - destruct (rmatch ml r1 cur cs k) eqn:E.
    + injection H as ->. apply IHr1 in E.
      destruct E as (t & u & cs' & ? & ? & ?). exists t, u, cs'. auto.
    + apply IHr2 in H.
      destruct H as (t & u & cs' & ? & ? & ?). exists t, u, cs'. auto.
  - apply repeat_sound with (D := denote r) in H; [|exact IHr].
    destruct H as (ts & u & cs' & ? & ? & ?).
    exists (concat ts), u, cs'. eauto.
  - apply IHr in H. destruct H as (t1 & u1 & cs1 & Hr1 & Hd1 & Hk1).
    apply repeat_sound with (D := denote r) in Hk1; [|exact IHr].
    destruct Hk1 as (ts & u & cs' & Hr2 & Hts & Hk).
    simpl in Hr2. subst u1. rewrite after_after in Hk.
    exists (t1 ++ concat ts), u, cs'. rewrite <- app_assoc. eauto 8.
  - destruct (rmatch ml r cur cs k) eqn:E.
    + injection H as ->. apply IHr in E.
      destruct E as (t & u & cs' & ? & ? & ?). exists t, u, cs'. auto.
    + exists [], (rest cur), cs. rewrite after_nil. auto.
  - apply IHr in H. destruct H as (t & u & cs' & Hr & Hd & Hk).
    exists t, u, ((i, (pos cur, pos (after cur t u),
                       firstn (pos (after cur t u) - pos cur) (rest cur)))
                    :: cs').
    auto.
  - destruct (lookup i cs) as [[[a b] t]|] eqn:E; [|discriminate].
    destruct (Py.startswith t (rest cur)) eqn:Es; [|discriminate].
    apply startswith_inv in Es. destruct Es as [u Hu].
    exists t, u, cs. rewrite Hu in H. rewrite seek_after in H.
    rewrite <- Hu in H. destruct cur. auto.
  - destruct (rmatch ml r cur cs _); [discriminate|].
    exists [], (rest cur), cs. rewrite after_nil. auto.
Qed.

(** A group hands its span to the continuation. *)
Lemma group_sound :
  forall ml i r cur cs k res,
    rmatch ml (Group i r) cur cs k = Some res ->
    exists t u cs',
      rest cur = t ++ u /\ denote r t
      /\ k (after cur t u) ((i, (pos cur, length t + pos cur, t)) :: cs')
         = Some res.
Proof.
  intros ml i r cur cs k res H. cbn [rmatch] in H.
  apply rmatch_sound in H. destruct H as (t & u & cs' & Hr & Hd & Hk).
  exists t, u, cs'. split; [exact Hr|]. split; [exact Hd|].
  cbn [after pos] in Hk.
  rewrite Nat.add_sub, Hr, firstn_app, Nat.sub_diag, firstn_all in Hk.
  simpl firstn in Hk. rewrite app_nil_r in Hk. exact Hk.
Qed.

(** Where matches lie. *)

Lemma match_at_span :
  forall ml r ma cur m,
    match_at ml r ma cur = Some m ->
    m_start m = pos cur /\ m_start m <= m_end m
    /\ m_end m <= pos cur + length (rest cur).
Proof.
  intros ml r ma cur m H. unfold match_at in H.
  destruct (rmatch ml r cur [] _) as [[cur' cs]|] eqn:E; [|discriminate].
  injection H as <-. simpl. apply rmatch_sound in E.
  destruct E as (t & u & cs' & Hr & _ & Hk). unfold accept in Hk.
  destruct (ma && _); [discriminate|]. injection Hk as <- _.
  simpl. rewrite Hr, length_app. lia.
Qed.

Lemma scan_span :
  forall ml r s ma p n m,
    scan ml r ma p s n = Some m ->
    n <= m_start m /\ m_start m <= m_end m /\ m_end m <= n + length s.
Proof.
  intros ml r. induction s as [|c s IH]; intros ma p n m H;
    cbn [scan] in H;
    destruct (match_at ml r ma _) as [m'|] eqn:E.
  - injection H as <-. apply match_at_span in E. simpl in *. lia.
  - discriminate.
  - injection H as <-. apply match_at_span in E. simpl in *. lia.
  - apply IH in H. simpl. lia.
Qed.

Lemma seek_pos :
  forall s p n k,
    k <= length s ->
    pos (seek p s n k) = n + k
    /\ length (rest (seek p s n k)) = length s - k.
Proof.
  induction s as [|c s IH]; intros p n k H; simpl in H.
  - assert (k = 0) by lia. subst k. simpl. lia.
  - destruct k as [|k]; simpl; [lia|].
    destruct (IH (Some c) (S n) k) as [A B]; [lia|]. lia.
Qed.

End ReFacts.

Section SearchFacts.

Lemma search_span :
  forall p s start m,
    start <= length s ->
    re.search p s start = Some m ->
    start <= Re.m_start m /\ Re.m_start m <= Re.m_end m
    /\ Re.m_end m <= length s.
Proof.
  intros p s start m Hs H. unfold re.search, re.search_from in H.
  apply ReFacts.scan_span in H.
  destruct (ReFacts.seek_pos s None 0 start Hs) as [A B].
  unfold Re.cursor_at in H. rewrite A, B in H. lia.
Qed.

Lemma match_span :
  forall p s m,
    re.match_ p s = Some m ->
    Re.m_start m = 0 /\ Re.m_end m <= length s.
Proof.
  intros p s m H. unfold re.match_ in H.
  apply ReFacts.match_at_span in H. destruct s; simpl in *; lia.
Qed.

(** An anchored match is the first match of a search from index 0, and
    a search result that starts at index 0 is the anchored match. *)
Lemma match_search :
  forall p s m, re.match_ p s = Some m -> re.search p s 0 = Some m.
Proof.
  intros p s m H. unfold re.search, re.search_from, re.match_ in *.
  replace (Re.cursor_at s 0) with
    {| Re.prev := None; Re.rest := s; Re.pos := 0 |} in *
    by (destruct s; reflexivity).
  simpl. destruct s; simpl; rewrite H; reflexivity.
Qed.

Lemma search_match :
  forall p s m,
    re.search p s 0 = Some m -> Re.m_start m = 0 ->
    re.match_ p s = Some m.
Proof.
  intros p s m H H0. unfold re.search, re.search_from, re.match_ in *.
  replace (Re.cursor_at s 0) with
    {| Re.prev := None; Re.rest := s; Re.pos := 0 |} in *
    by (destruct s; reflexivity).
  simpl in H.
  destruct s as [|c s]; simpl in H;
    destruct (Re.match_at _ _ false _) as [m'|] eqn:E;
    try discriminate; try (injection H as <-; reflexivity).
  apply ReFacts.scan_span in H. lia.
Qed.

End SearchFacts.

(** ** The stages of the extraction *)

Section Stages.
Context {P : Packaging}.

(** The keyword arguments of [head_line.format]; [vfield] is the text
    given for [version]. *)
Definition heading_kwargs (vfield name : str) : Format.kwargs :=
  [(lit "version", vfield); (lit "date", date_field); (lit "name", name)].

(** The section body: the text from the end of the first heading to
    the next heading, or to the end. *)
Definition section_body (head_re : re.pattern) (msg : str)
  (m : Re.match_) : str :=
  match re.search head_re msg (Re.m_end m) with
  | Some m2 => Py.slice msg (Re.m_end m) (Re.m_start m2)
  | None => Py.slice_from msg (Re.m_end m)
  end.

(** What both extractors do with the trimmed remainder [msg]: the
    heading pattern, the anchored match, the version check, the section
    body and the issue rewrite. *)
Definition extract_from (vfield msg changes_file version head_line
  fix_issue_regex fix_issue_repl name : str) : result str :=
  match Format.format head_line (heading_kwargs vfield name) with
  | None => Raise PatternRejected
  | Some src =>
      match re.compile src true with
      | None => Raise PatternRejected
      | Some head_re =>
          match re.match_ head_re msg with
          | None => Raise (HeadMarkNotFound (re.source head_re) changes_file)
          | Some m =>
              match re.group_named head_re m "version" with
              | None => Raise (NoSuchGroup "version")
              | Some found_version =>
                  check_changes_version version found_version
                    changes_file ;;;
                  let body := section_body head_re msg m in
                  if nonempty fix_issue_regex then
                    match re.sub fix_issue_regex fix_issue_repl body with
                    | None => Raise PatternRejected
                    | Some msg' => Ok (Py.strip msg')
                    end
                  else Ok (Py.strip body)
              end
          end
      end
  end.

Lemma parse_changes_from_remainder :
  forall changes changes_file version start_line head_line fix_issue_regex
         fix_issue_repl name before after,
    start_line <> [] ->
    first_occurrence changes start_line before after ->
    _parse_changes changes changes_file version start_line head_line
      fix_issue_regex fix_issue_repl name
    = extract_from version_field (Py.strip after) changes_file version
        head_line fix_issue_regex fix_issue_repl name.
Proof.
  intros changes cf v sl hl fr fp nm before after Hne Hfo.
  unfold _parse_changes, Py.partition.
  destruct sl as [|c sl]; [contradiction|].
  rewrite (split_first_complete _ _ _ _ Hfo). reflexivity.
Qed.

Lemma parse_changes_no_mark :
  forall changes changes_file version start_line head_line fix_issue_regex
         fix_issue_repl name,
    ~ occurs start_line changes ->
    _parse_changes changes changes_file version start_line head_line
      fix_issue_regex fix_issue_repl name
    = Raise (StartMarkNotFound start_line).
Proof.
  intros changes cf v sl hl fr fp nm Hno.
  unfold _parse_changes, Py.partition.
  destruct sl as [|c sl].
  - exfalso. apply Hno. exists [], changes. reflexivity.
  - destruct (Py.split_first (c :: sl) changes) as [[b a]|] eqn:E.
    + exfalso. apply Hno. exists b, a. apply (split_first_sound _ _ _ _ E).
    + reflexivity.
Qed.

Lemma check_changes_version_raises :
  forall declared found changes_file,
    declared <> found ->
    exists e,
      check_changes_version declared (Some found) changes_file = Raise e
      /\ forall s, e <> StartMarkNotFound s.
Proof.
  intros d f cf H. unfold check_changes_version.
  rewrite (str_eqb_neq _ _ H).
  destruct (parse_version d) as [dv|];
    [destruct (parse_version f) as [fv|]; [destruct (lt dv fv)|]|];
    eexists; (split; [reflexivity | discriminate]).
Qed.

Lemma extract_from_no_start_error :
  forall vfield msg changes_file version head_line fix_issue_regex
         fix_issue_repl name s,
    extract_from vfield msg changes_file version head_line fix_issue_regex
      fix_issue_repl name <> Raise (StartMarkNotFound s).
Proof.
  intros vf msg cf v hl fr fp nm s. unfold extract_from.
  destruct (Format.format _ _); [|discriminate].
  destruct (re.compile _ _); [|discriminate].
  destruct (re.match_ _ _); [|discriminate].
  destruct (re.group_named _ _ _) as [found|]; [|discriminate].
  unfold check_changes_version.
  destruct found as [f|].
  - destruct (Py.str_eqb v f).
    + simpl. destruct (nonempty fr); [|discriminate].
      destruct (re.sub _ _ _); discriminate.
    + destruct (parse_version v); [|discriminate].
      destruct (parse_version f); [|discriminate].
      destruct (lt _ _); discriminate.
  - destruct (parse_version v); discriminate.
Qed.

Lemma extract_from_body :
  forall vfield msg changes_file version head_line name src head_re m,
    Format.format head_line (heading_kwargs vfield name) = Some src ->
    re.compile src true = Some head_re ->
    re.match_ head_re msg = Some m ->
    re.group_named head_re m "version" = Some (Some version) ->
    extract_from vfield msg changes_file version head_line [] [] name
    = Ok (Py.strip (section_body head_re msg m)).
Proof.
  intros vf msg cf v hl nm src head_re m Hf Hc Hm Hg.
  unfold extract_from. rewrite Hf, Hc, Hm, Hg.
  unfold check_changes_version. rewrite str_eqb_refl. reflexivity.
Qed.

Lemma extract_from_no_heading :
  forall vfield msg changes_file version head_line fix_issue_regex
         fix_issue_repl name src head_re,
    Format.format head_line (heading_kwargs vfield name) = Some src ->
    re.compile src true = Some head_re ->
    re.match_ head_re msg = None ->
    extract_from vfield msg changes_file version head_line fix_issue_regex
      fix_issue_repl name
    = Raise (HeadMarkNotFound (re.source head_re) changes_file).
Proof.
  intros vf msg cf v hl fr fp nm src head_re Hf Hc Hm.
  unfold extract_from. rewrite Hf, Hc, Hm. reflexivity.
Qed.

(** The class-based extractor: its checks, then the same stages with
    the bracketed version field. *)
Lemma Parser_parse_from_remainder :
  forall self ctx start_line head_line fix_issue_regex fix_issue_repl
         input_check_ref changes before after,
    nonempty fix_issue_regex = nonempty fix_issue_repl ->
    Parser.check_head (version ctx) input_check_ref = Ok tt ->
    files ctx (Parser.changes_file self) = Some changes ->
    start_line <> [] ->
    first_occurrence changes start_line before after ->
    Parser.parse self ctx start_line head_line fix_issue_regex
      fix_issue_repl input_check_ref
    = extract_from bracketed_version_field (Py.strip after)
        (Parser.changes_file self) (version ctx) head_line
        fix_issue_regex fix_issue_repl (Parser.name self).
Proof.
  intros self ctx sl hl fr fp ref changes before after Hfix Hhead Hfile
         Hne Hfo.
  assert (G : nonempty fr && negb (nonempty fp)
              || negb (nonempty fr) && nonempty fp = false)
    by (rewrite Hfix; destruct (nonempty fp); reflexivity).
  unfold Parser.parse. rewrite G, Hhead.
  unfold read_file. rewrite Hfile. cbn [bind]. unfold Py.partition.
  destruct sl as [|c sl]; [contradiction|].
  rewrite (split_first_complete _ _ _ _ Hfo). reflexivity.
Qed.

Lemma Parser_parse_no_mark :
  forall self ctx start_line head_line fix_issue_regex fix_issue_repl
         input_check_ref changes,
    nonempty fix_issue_regex = nonempty fix_issue_repl ->
    Parser.check_head (version ctx) input_check_ref = Ok tt ->
    files ctx (Parser.changes_file self) = Some changes ->
    ~ occurs start_line changes ->
    Parser.parse self ctx start_line head_line fix_issue_regex
      fix_issue_repl input_check_ref
    = Raise (StartMarkNotFound start_line).
Proof.
  intros self ctx sl hl fr fp ref changes Hfix Hhead Hfile Hno.
  assert (G : nonempty fr && negb (nonempty fp)
              || negb (nonempty fr) && nonempty fp = false)
    by (rewrite Hfix; destruct (nonempty fp); reflexivity).
  unfold Parser.parse. rewrite G, Hhead.
  unfold read_file. rewrite Hfile. cbn [bind]. unfold Py.partition.
  destruct sl as [|c sl].
  - exfalso. apply Hno. exists [], changes. reflexivity.
  - destruct (Py.split_first (c :: sl) changes) as [[b a]|] eqn:E.
    + exfalso. apply Hno. exists b, a. apply (split_first_sound _ _ _ _ E).
    + reflexivity.
Qed.

End Stages.

(** ** Trimming and slicing *)

Section TrimFacts.

Definition whitespace (s : str) : Prop :=
  Forall (fun c => Py.isspace c = true) s.

Lemma lstrip_split :
  forall s, exists l, s = l ++ Py.lstrip s /\ whitespace l.
Proof.
  induction s as [|c s [l [Hs Hl]]].
  - exists []. split; [reflexivity | constructor].
  - simpl. destruct (Py.isspace c) eqn:E.
    + exists (c :: l). split; [simpl; congruence | constructor; assumption].
    + exists []. split; [reflexivity | constructor].
Qed.

Lemma rstrip_split :
  forall s, exists r, s = Py.rstrip s ++ r /\ whitespace r.
Proof.
  intro s. unfold Py.rstrip.
  destruct (lstrip_split (rev s)) as [l [Hs Hl]].
  exists (rev l). split.
  - rewrite <- rev_app_distr, <- Hs, rev_involutive. reflexivity.
  - apply Forall_rev. exact Hl.
Qed.

Lemma lstrip_head :
  forall s c t, Py.lstrip s = c :: t -> Py.isspace c = false.
Proof.
  induction s as [|x s IH]; intros c t H; simpl in H; [discriminate|].
  destruct (Py.isspace x) eqn:E; [eauto|]. congruence.
Qed.

(** [strip] removes a run of whitespace at each end and leaves a text
    that neither starts nor ends with whitespace. *)
Lemma strip_spec :
  forall s,
    exists l r,
      s = l ++ Py.strip s ++ r /\ whitespace l /\ whitespace r
      /\ (forall c t, Py.strip s = c :: t -> Py.isspace c = false)
      /\ (forall c t, Py.strip s = t ++ [c] -> Py.isspace c = false).
Proof.
  intro s. unfold Py.strip.
  destruct (lstrip_split s) as [l [Hl Wl]].
  destruct (rstrip_split (Py.lstrip s)) as [r [Hr Wr]].
  exists l, r. repeat split; try assumption.
  - rewrite <- Hr. exact Hl.
  - intros c t H. rewrite H in Hr. simpl in Hr.
    eapply lstrip_head. exact Hr.
  - intros c t H. unfold Py.rstrip in H.
    apply (f_equal (@rev ascii)) in H.
    rewrite rev_involutive, rev_app_distr in H. simpl in H.
    eapply lstrip_head. exact H.
Qed.

Lemma slice_middle :
  forall l m r : str,
    Py.slice (l ++ m ++ r) (length l) (length l + length m) = m.
Proof.
  intros l m r. unfold Py.slice.
  rewrite skipn_length_app.
  replace (length l + length m - length l) with (length m) by lia.
  rewrite firstn_app, Nat.sub_diag, firstn_all. simpl. apply app_nil_r.
Qed.

Lemma slice_slice :
  forall (s : str) a b i j,
    j <= b - a ->
    Py.slice (Py.slice s a b) i j = Py.slice s (a + i) (a + j).
Proof.
  intros s a b i j H. unfold Py.slice.
  rewrite skipn_firstn_comm, firstn_firstn, skipn_skipn.
  replace (Nat.min (j - i) (b - a - i)) with (a + j - (a + i)) by lia.
  replace (i + a) with (a + i) by lia. reflexivity.
Qed.

(** A trimmed slice is itself a slice, within the same bounds. *)
Lemma strip_slice :
  forall (s : str) a b,
    a <= b ->
    exists i j,
      a <= i /\ i <= j /\ j <= b
      /\ Py.strip (Py.slice s a b) = Py.slice s i j.
Proof.
  intros s a b Hab.
  destruct (strip_spec (Py.slice s a b)) as (l & r & Hs & _).
  set (note := Py.strip (Py.slice s a b)) in *.
  assert (Hlen : length l + length note + length r <= b - a).
  { assert (L : length (Py.slice s a b) <= b - a)
      by (unfold Py.slice; apply firstn_le_length).
    rewrite Hs, !length_app in L. lia. }
  exists (a + length l), (a + (length l + length note)).
  repeat split; try lia.
  rewrite <- slice_slice with (b := b) by lia.
  rewrite Hs at 1. rewrite slice_middle. reflexivity.
Qed.

End TrimFacts.

(** * The claims *)

(** ** The git ref check *)

(** C7.  [check_head] does nothing for an absent or empty ref; every
    other ref that does not begin with [refs/tags/] is refused as not
    pointing at a tag; for a ref [refs/tags/<tag>] the check passes
    exactly when [<tag>] is the version or [v] followed by the version, and
    is refused as a mismatch otherwise.  The method of class [Parser] is the
    same function.  The three examples of the specification hold. *)
Theorem check_head_contract :
  (forall version : str,
      (check_head version None = Ok tt
       /\ check_head version (Some []) = Ok tt)
      /\ (forall head,
             head <> [] ->
             (forall tag, head <> lit "refs/tags/" ++ tag) ->
             check_head version (Some head) = Raise (NotATag head))
      /\ (forall tag,
             tag = version \/ tag = lit "v" ++ version ->
             check_head version (Some (lit "refs/tags/" ++ tag)) = Ok tt)
      /\ (forall tag,
             tag <> version -> tag <> lit "v" ++ version ->
             check_head version (Some (lit "refs/tags/" ++ tag))
             = Raise (TagMismatch tag version))
      /\ (forall head,
             Parser.check_head version head = check_head version head))
  /\ check_head "1.2.3" (Some (lit "refs/tags/v1.2.3")) = Ok tt
  /\ check_head "1.2.3" (Some (lit "refs/heads/main"))
     = Raise (NotATag "refs/heads/main")
  /\ check_head "1.2.3" (Some (lit "refs/tags/1.2.4"))
     = Raise (TagMismatch "1.2.4" "1.2.3").
Proof.
  split; [|repeat split].
  intro version. repeat split.
  - intros head Hne Hpre. destruct head as [|c head]; [contradiction|].
    unfold check_head.
    destruct (Py.startswith (lit "refs/tags/") (c :: head)) eqn:E.
    + apply startswith_inv in E. destruct E as [tag E].
      exfalso. exact (Hpre tag E).
    + reflexivity.
  - intros tag H.
    change (check_head version (Some (lit "refs/tags/" ++ tag)))
      with (if negb (Py.str_eqb tag version)
               && negb (Py.str_eqb tag (lit "v" ++ version))
            then Raise (TagMismatch tag version) else Ok tt).
    destruct H as [-> | ->]; rewrite str_eqb_refl; cbn [negb andb];
      [reflexivity | rewrite andb_false_r; reflexivity].
  - intros tag H1 H2.
    change (check_head version (Some (lit "refs/tags/" ++ tag)))
      with (if negb (Py.str_eqb tag version)
               && negb (Py.str_eqb tag (lit "v" ++ version))
            then Raise (TagMismatch tag version) else Ok tt).
    rewrite (str_eqb_neq _ _ H1), (str_eqb_neq _ _ H2). reflexivity.
Qed.

Lemma check_head_contract_witness :
  lit "refs/heads/main" <> []
  /\ (forall tag, lit "refs/heads/main" <> lit "refs/tags/" ++ tag)
  /\ check_head "1.2.3" (Some (lit "refs/heads/main"))
     = Raise (NotATag "refs/heads/main")
  /\ check_head "1.2.3" (Some (lit "refs/tags/" ++ lit "v1.2.3")) = Ok tt
  /\ check_head "1.2.3" (Some (lit "refs/tags/" ++ lit "1.2.4"))
     = Raise (TagMismatch "1.2.4" "1.2.3").
Proof.
  assert (Hne : lit "refs/heads/main" <> []) by discriminate.
  assert (Hpre : forall tag, lit "refs/heads/main" <> lit "refs/tags/" ++ tag)
    by (intros tag H; discriminate H).
  destruct check_head_contract as [H _].
  destruct (H (lit "1.2.3")) as (_ & Hnot & Hok & Hbad & _).
  split; [exact Hne|]. split; [exact Hpre|].
  split; [exact (Hnot _ Hne Hpre)|]. split.
  - apply Hok. right. reflexivity.
  - apply Hbad; discriminate.
Defined.

(** ** The version check *)

(** C2.  When declared and found version have the same text the check
    returns; when the texts differ and the declared version parses to a
    smaller version than the found one it raises the error that ends with
    the hint to push a git tag with the latest version; when it parses to
    a greater version it raises the error that ends with the hint to run
    towncrier again.  The method of class [Parser] is the same function
    with the parser's own [changes_file]. *)
Theorem check_changes_version_outcomes :
  forall (P : Packaging) (declared found changes_file : str),
    check_changes_version declared (Some declared) changes_file = Ok tt
    /\ (forall dver fver,
           declared <> found ->
           parse_version declared = Some dver ->
           parse_version found = Some fver ->
           lt dver fver = true ->
           check_changes_version declared (Some found) changes_file
           = Raise (DistributionOlder (show dver) (show fver) changes_file)
           /\ exists text,
               message (DistributionOlder (show dver) (show fver)
                          changes_file)
               = Some (text
                       ++ lit "Hint: push git tag with the latest version."))
    /\ (forall dver fver,
           declared <> found ->
           parse_version declared = Some dver ->
           parse_version found = Some fver ->
           lt fver dver = true ->
           check_changes_version declared (Some found) changes_file
           = Raise (DistributionYounger (show dver) (show fver) changes_file)
           /\ exists text,
               message (DistributionYounger (show dver) (show fver)
                          changes_file)
               = Some (text ++ lit "Hint: run 'towncrier' again."))
    /\ (forall self found_version,
           Parser.check_changes_version self declared found_version
           = check_changes_version declared found_version
               (Parser.changes_file self)).
Proof.
  intros P d f cf. split; [|split; [|split]].
  - unfold check_changes_version. rewrite str_eqb_refl. reflexivity.
  - intros dver fver Hne Hd Hf Hlt. split.
    + unfold check_changes_version.
      rewrite (str_eqb_neq _ _ Hne), Hd, Hf, Hlt. reflexivity.
    + eexists. unfold message, message_older.
      rewrite !app_assoc. reflexivity.
  - intros dver fver Hne Hd Hf Hgt. split.
    + unfold check_changes_version.
      rewrite (str_eqb_neq _ _ Hne), Hd, Hf, (lt_asym _ _ Hgt).
      reflexivity.
    + eexists. unfold message, message_younger.
      rewrite !app_assoc. reflexivity.
  - intros self found_version. reflexivity.
Qed.

Lemma check_changes_version_outcomes_witness :
  (lit "0.9.0" <> lit "1.0.0"
   /\ check_changes_version (P := Release.packaging) "0.9.0"
        (Some (lit "1.0.0")) "CHANGES.md"
      = Raise (DistributionOlder "0.9.0" "1.0.0" "CHANGES.md"))
  /\ (lit "1.0.0" <> lit "0.9.0"
      /\ check_changes_version (P := Release.packaging) "1.0.0"
           (Some (lit "0.9.0")) "CHANGES.md"
         = Raise (DistributionYounger "1.0.0" "0.9.0" "CHANGES.md")).
Proof.
  split; split; try discriminate.
  - destruct (check_changes_version_outcomes Release.packaging
                (lit "0.9.0") (lit "1.0.0") (lit "CHANGES.md"))
      as (_ & H & _).
    destruct (H [0; 9; 0] [1; 0; 0]) as [E _];
      [discriminate | reflexivity | reflexivity | reflexivity |].
    exact E.
  - destruct (check_changes_version_outcomes Release.packaging
                (lit "1.0.0") (lit "0.9.0") (lit "CHANGES.md"))
      as (_ & _ & H & _).
    destruct (H [1; 0; 0] [0; 9; 0]) as [E _];
      [discriminate | reflexivity | reflexivity | reflexivity |].
    exact E.
Defined.

(** C3.  The check returns only when the two texts are the same.  When
    they differ it raises, and when both parse and the declared version is
    not smaller than the found one, equal versions included, the error is
    the one of the last branch, the "younger" one. *)
Theorem raw_equality_is_the_only_success :
  forall (P : Packaging) (declared found changes_file : str),
    (check_changes_version declared (Some found) changes_file = Ok tt
     <-> declared = found)
    /\ (declared <> found ->
        (exists e,
            check_changes_version declared (Some found) changes_file
            = Raise e)
        /\ forall dver fver,
            parse_version declared = Some dver ->
            parse_version found = Some fver ->
            lt dver fver = false ->
            check_changes_version declared (Some found) changes_file
            = Raise (DistributionYounger (show dver) (show fver)
                       changes_file))
    /\ (forall self,
           Parser.check_changes_version self declared (Some found) = Ok tt
           <-> declared = found).
Proof.
  intros P d f cf.
  assert (Hraise : d <> f ->
                   exists e, check_changes_version d (Some f) cf = Raise e).
  { intro H. destruct (check_changes_version_raises _ _ cf H) as [e [He _]].
    exists e. exact He. }
  assert (Hiff : forall cf',
             check_changes_version d (Some f) cf' = Ok tt <-> d = f).
  { intro cf'. split.
    - intro H. destruct (list_eq_dec Ascii.ascii_dec d f) as [E|E];
        [exact E|].
      destruct (check_changes_version_raises _ _ cf' E) as [e [He _]].
      rewrite He in H. discriminate.
    - intros ->. unfold check_changes_version.
      rewrite str_eqb_refl. reflexivity. }
  split; [apply Hiff|]. split.
  - intro H. split; [exact (Hraise H)|].
    intros dver fver Hd Hf Hlt. unfold check_changes_version.
    rewrite (str_eqb_neq _ _ H), Hd, Hf, Hlt. reflexivity.
  - intro self. apply (Hiff (Parser.changes_file self)).
Qed.

Lemma raw_equality_is_the_only_success_witness :
  lit "1.0" <> lit "1.0.0"
  /\ Release.before [1; 0] [1; 0; 0] = false
  /\ Release.before [1; 0; 0] [1; 0] = false
  /\ check_changes_version (P := Release.packaging) "1.0"
       (Some (lit "1.0.0")) "CHANGES.md"
     = Raise (DistributionYounger "1.0" "1.0.0" "CHANGES.md").
Proof.
  assert (Hne : lit "1.0" <> lit "1.0.0") by discriminate.
  split; [exact Hne|]. split; [reflexivity|]. split; [reflexivity|].
  destruct (raw_equality_is_the_only_success Release.packaging
              (lit "1.0") (lit "1.0.0") (lit "CHANGES.md")) as (_ & H & _).
  destruct (H Hne) as [_ Hy].
  exact (Hy [1; 0] [1; 0; 0] eq_refl eq_refl eq_refl).
Defined.

(** ** The start mark *)

Lemma occurs_first :
  forall sep s, occurs sep s -> exists b a, first_occurrence s sep b a.
Proof.
  intros sep s H. destruct (Py.split_first sep s) as [[b a]|] eqn:E.
  - exists b, a. apply split_first_sound. exact E.
  - exfalso. exact (split_first_none _ _ E H).
Qed.

(** The claim about the start mark, for the function-based extractor: the
    start-mark error is raised exactly when [start_line] does not occur,
    and otherwise the extraction goes on with the trimmed text after the
    first occurrence. *)
Definition start_mark_claim {P : Packaging} (changes changes_file version
  start_line head_line fix_issue_regex fix_issue_repl name : str) : Prop :=
  (_parse_changes changes changes_file version start_line head_line
     fix_issue_regex fix_issue_repl name
   = Raise (StartMarkNotFound start_line)
   <-> ~ occurs start_line changes)
  /\ (forall before after,
         first_occurrence changes start_line before after ->
         _parse_changes changes changes_file version start_line head_line
           fix_issue_regex fix_issue_repl name
         = extract_from version_field (Py.strip after) changes_file version
             head_line fix_issue_regex fix_issue_repl name).

(** The same for the method of class [Parser], once its own checks have
    passed and the changelog file has been read. *)
Definition Parser_start_mark_claim {P : Packaging} (self : Parser.t)
  (ctx : Context) (changes start_line head_line fix_issue_regex
  fix_issue_repl : str) (input_check_ref : option str) : Prop :=
  (Parser.parse self ctx start_line head_line fix_issue_regex fix_issue_repl
     input_check_ref
   = Raise (StartMarkNotFound start_line)
   <-> ~ occurs start_line changes)
  /\ (forall before after,
         first_occurrence changes start_line before after ->
         Parser.parse self ctx start_line head_line fix_issue_regex
           fix_issue_repl input_check_ref
         = extract_from bracketed_version_field (Py.strip after)
             (Parser.changes_file self) (version ctx) head_line
             fix_issue_regex fix_issue_repl (Parser.name self)).

(** C6, as stated, fails for the empty start mark: the empty text occurs
    in every changelog, at index 0, yet [partition] refuses an empty
    separator and no heading is searched. *)
Lemma start_mark_claim_empty_mark :
  ~ start_mark_claim (P := Release.packaging)
      "1.0 notes" "CHANGES.md" "1.0" "" "{version}" "" "" "pkg".
Proof.
  intros [_ H].
  assert (F : first_occurrence (lit "1.0 notes") (lit "") []
                (lit "1.0 notes")).
  { split; [reflexivity | intros; simpl; lia]. }
  specialize (H _ _ F). vm_compute in H. discriminate H.
Qed.

(** C6, amended.  For a non-empty [start_line] the start-mark error is
    raised if and only if [start_line] does not occur in the changelog,
    and when it occurs the extraction goes on with the text after its
    first occurrence, trimmed.  An empty [start_line] is refused by
    [partition].  The same holds for the method of class [Parser] after
    its own checks. *)
Theorem start_mark_contract :
  forall (P : Packaging) (changes changes_file declared start_line head_line
          fix_issue_regex fix_issue_repl name : str),
    (start_line <> [] ->
     start_mark_claim changes changes_file declared start_line head_line
       fix_issue_regex fix_issue_repl name)
    /\ _parse_changes changes changes_file declared [] head_line
         fix_issue_regex fix_issue_repl name
       = Raise EmptySeparator
    /\ (forall self ctx input_check_ref,
           start_line <> [] ->
           nonempty fix_issue_regex = nonempty fix_issue_repl ->
           Parser.check_head (version ctx) input_check_ref
           = Ok tt ->
           files ctx (Parser.changes_file self) = Some changes ->
           Parser_start_mark_claim self ctx changes start_line head_line
             fix_issue_regex fix_issue_repl input_check_ref).
Proof.
  intros P changes cf v sl hl fr fp nm. split; [|split].
  - intro Hne. split; [split|].
    + intros H Hocc. destruct (occurs_first _ _ Hocc) as (b & a & Hfo).
      rewrite parse_changes_from_remainder with (before := b) (after := a)
        in H by assumption.
      eapply extract_from_no_start_error. exact H.
    + apply parse_changes_no_mark.
    + intros before after Hfo.
      apply parse_changes_from_remainder with (before := before);
        assumption.
  - reflexivity.
  - intros self ctx ref Hne Hfix Hhead Hfile. split; [split|].
    + intros H Hocc. destruct (occurs_first _ _ Hocc) as (b & a & Hfo).
      rewrite Parser_parse_from_remainder
        with (changes := changes) (before := b) (after := a)
        in H by assumption.
      eapply extract_from_no_start_error. exact H.
    + apply Parser_parse_no_mark; assumption.
    + intros before after Hfo.
      apply Parser_parse_from_remainder with (changes := changes)
                                             (before := before);
        assumption.
Qed.

(** ** Example inputs *)

Module Examples.

Definition nl : str := [Re.newline].

Definition start_line : str := "<!-- towncrier release notes start -->".

(** A changelog with two release sections. *)
Definition two_sections : str :=
  lit "# Changelog" ++ nl ++ start_line ++ nl ++ nl
  ++ lit "## [1.2.3] - 2024-01-01" ++ nl ++ nl
  ++ lit "Fixed bug #42." ++ nl ++ nl
  ++ lit "## [1.2.2] - 2023-12-01" ++ nl ++ nl
  ++ lit "Older notes." ++ nl.

(** A changelog with one release section. *)
Definition one_section : str :=
  lit "# Changelog" ++ nl ++ start_line ++ nl ++ nl
  ++ lit "## [1.2.3] - 2024-01-01" ++ nl ++ nl
  ++ lit "Fixed bug #42." ++ nl.

(** The same changelogs with a paragraph between the start mark and the
    first heading. *)
Definition two_sections_after_intro : str :=
  lit "# Changelog" ++ nl ++ start_line ++ nl ++ nl
  ++ lit "Notable changes of each release." ++ nl ++ nl
  ++ lit "## [1.2.3] - 2024-01-01" ++ nl ++ nl
  ++ lit "Fixed bug #42." ++ nl ++ nl
  ++ lit "## [1.2.2] - 2023-12-01" ++ nl ++ nl
  ++ lit "Older notes." ++ nl.

Definition one_section_after_intro : str :=
  lit "# Changelog" ++ nl ++ start_line ++ nl ++ nl
  ++ lit "Notable changes of each release." ++ nl ++ nl
  ++ lit "## [1.2.3] - 2024-01-01" ++ nl ++ nl
  ++ lit "Fixed bug #42." ++ nl.

(** Heading templates: the function-based extractor substitutes the bare
    version token, the class-based one the token in square brackets. *)
Definition head_line : str := "## \[{version}\] - {date}".
Definition Parser_head_line : str := "## {version} - {date}".

Definition self : Parser.t :=
  {| Parser.changes_file := "CHANGES.md"; Parser.name := "pkg" |}.

Definition ctx (changes : str) : Context :=
  {| files := fun name =>
                if Py.str_eqb name "CHANGES.md" then Some changes else None;
     version := "1.2.3" |}.

End Examples.

(** The example of the specification, end to end. *)
Example end_to_end :
  _parse_changes (P := Release.packaging) Examples.two_sections "CHANGES.md"
    "1.2.3" Examples.start_line Examples.head_line
    "#(\d+)" "[#\1](issues/\1)" "pkg"
  = Ok (lit "Fixed bug [#42](issues/42).").
Proof. vm_compute. reflexivity. Qed.

(** ** The section body *)

Section Body.
Context {P : Packaging}.

Lemma extract_from_two_headings :
  forall vfield msg changes_file declared head_line name src head_re m1 m2,
    Format.format head_line (heading_kwargs vfield name) = Some src ->
    re.compile src true = Some head_re ->
    re.search head_re msg 0 = Some m1 ->
    Re.m_start m1 = 0 ->
    re.group_named head_re m1 "version" = Some (Some declared) ->
    re.search head_re msg (Re.m_end m1) = Some m2 ->
    extract_from vfield msg changes_file declared head_line [] [] name
    = Ok (Py.strip (Py.slice msg (Re.m_end m1) (Re.m_start m2)))
    /\ exists i j,
        Re.m_end m1 <= i /\ i <= j /\ j <= Re.m_start m2
        /\ Py.strip (Py.slice msg (Re.m_end m1) (Re.m_start m2))
           = Py.slice msg i j.
Proof.
  intros vf msg cf d hl nm src head_re m1 m2 Hf Hc Hs H0 Hg Hs2.
  apply search_match in Hs; [|exact H0]. split.
  - rewrite (extract_from_body _ _ cf _ _ _ _ _ _ Hf Hc Hs Hg).
    unfold section_body. rewrite Hs2. reflexivity.
  - apply strip_slice.
    destruct (match_span _ _ _ Hs) as [_ He].
    destruct (search_span _ _ _ _ He Hs2) as [Hle _]. exact Hle.
Qed.

Lemma extract_from_one_heading :
  forall vfield msg changes_file declared head_line name src head_re m1,
    Format.format head_line (heading_kwargs vfield name) = Some src ->
    re.compile src true = Some head_re ->
    re.search head_re msg 0 = Some m1 ->
    Re.m_start m1 = 0 ->
    re.group_named head_re m1 "version" = Some (Some declared) ->
    re.search head_re msg (Re.m_end m1) = None ->
    extract_from vfield msg changes_file declared head_line [] [] name
    = Ok (Py.strip (Py.slice_from msg (Re.m_end m1))).
Proof.
  intros vf msg cf d hl nm src head_re m1 Hf Hc Hs H0 Hg Hs2.
  apply search_match in Hs; [|exact H0].
  rewrite (extract_from_body _ _ cf _ _ _ _ _ _ Hf Hc Hs Hg).
  unfold section_body. rewrite Hs2. reflexivity.
Qed.

End Body.

(** Running the stages on a concrete input: each tactic evaluates one
    call and records its result. *)
Ltac eval_some H t :=
  let v := eval vm_compute in t in
  match v with
  | Some ?x => assert (H : t = Some x) by (vm_compute; reflexivity)
  end.

Ltac eval_none H t :=
  assert (H : t = None) by (vm_compute; reflexivity).

Ltac eval_split F changes sep :=
  let v := eval vm_compute in (Py.split_first sep changes) in
  match v with
  | Some (?b, ?a) =>
      assert (F : first_occurrence changes sep b a)
        by (apply split_first_sound; vm_compute; reflexivity)
  end.

(** The start mark, the heading pattern and its first match by search. *)
Ltac eval_heading F Hf Hc H1 vfield changes sep head_line name :=
  eval_split F changes sep;
  eval_some Hf (Format.format head_line (heading_kwargs vfield name));
  match type of Hf with
  | _ = Some ?src => eval_some Hc (re.compile src true)
  end;
  match type of F with
  | first_occurrence _ _ _ ?a =>
      match type of Hc with
      | _ = Some ?p => eval_some H1 (re.search p (Py.strip a) 0)
      end
  end.

(** The search for the next heading. *)
Ltac eval_next K H2 H1 :=
  match type of H1 with
  | re.search ?p ?msg 0 = Some ?m => K H2 (re.search p msg (Re.m_end m))
  end.

(** ** Two or more headings *)

(** The claim about a changelog with two heading matches after the start
    mark, for the function-based extractor, as it is stated: the first
    match is wherever a search finds it. *)
Definition two_headings_claim {P : Packaging} (changes changes_file declared
  start_line head_line fix_issue_regex fix_issue_repl name : str) : Prop :=
  forall before after src head_re m1 m2,
    first_occurrence changes start_line before after ->
    Format.format head_line (heading_kwargs version_field name) = Some src ->
    re.compile src true = Some head_re ->
    re.search head_re (Py.strip after) 0 = Some m1 ->
    re.search head_re (Py.strip after) (Re.m_end m1) = Some m2 ->
    _parse_changes changes changes_file declared start_line head_line
      fix_issue_regex fix_issue_repl name
    = Ok (Py.strip (Py.slice (Py.strip after) (Re.m_end m1) (Re.m_start m2))).

(** C1, as stated, fails when text stands between the start mark and the
    first heading: the first heading is matched at the very start of the
    trimmed remainder only. *)
Lemma two_headings_claim_after_intro :
  ~ two_headings_claim (P := Release.packaging)
      Examples.two_sections_after_intro "CHANGES.md" "1.2.3"
      Examples.start_line Examples.head_line "" "" "pkg".
Proof.
  intro H. unfold two_headings_claim in H.
  eval_heading F Hf Hc H1 version_field Examples.two_sections_after_intro
    Examples.start_line Examples.head_line (lit "pkg").
  eval_next eval_some H2 H1.
  specialize (H _ _ _ _ _ _ F Hf Hc H1 H2).
  vm_compute in H. discriminate H.
Qed.

(** C1, amended.  When the start mark is followed by two matches of the
    heading pattern, the first match begins the trimmed remainder, its
    version group is the declared version, and no issue rewrite is set,
    the extraction returns the text between the end of the first match and
    the start of the second, trimmed; the note is a slice of the remainder
    that ends no later than the second heading starts.  The same holds for
    the method of class [Parser] after its own checks. *)
Theorem two_headings_body :
  forall P : Packaging,
    (forall changes changes_file declared start_line head_line name before
            after src head_re m1 m2,
        start_line <> [] ->
        first_occurrence changes start_line before after ->
        Format.format head_line (heading_kwargs version_field name)
        = Some src ->
        re.compile src true = Some head_re ->
        re.search head_re (Py.strip after) 0 = Some m1 ->
        Re.m_start m1 = 0 ->
        re.group_named head_re m1 "version" = Some (Some declared) ->
        re.search head_re (Py.strip after) (Re.m_end m1) = Some m2 ->
        _parse_changes changes changes_file declared start_line head_line
          [] [] name
        = Ok (Py.strip
                (Py.slice (Py.strip after) (Re.m_end m1) (Re.m_start m2)))
        /\ exists i j,
            Re.m_end m1 <= i /\ i <= j /\ j <= Re.m_start m2
            /\ Py.strip
                 (Py.slice (Py.strip after) (Re.m_end m1) (Re.m_start m2))
               = Py.slice (Py.strip after) i j)
    /\ (forall self ctx changes start_line head_line input_check_ref before
               after src head_re m1 m2,
           Parser.check_head (version ctx) input_check_ref = Ok tt ->
           files ctx (Parser.changes_file self) = Some changes ->
           start_line <> [] ->
           first_occurrence changes start_line before after ->
           Format.format head_line
             (heading_kwargs bracketed_version_field (Parser.name self))
           = Some src ->
           re.compile src true = Some head_re ->
           re.search head_re (Py.strip after) 0 = Some m1 ->
           Re.m_start m1 = 0 ->
           re.group_named head_re m1 "version" = Some (Some (version ctx)) ->
           re.search head_re (Py.strip after) (Re.m_end m1) = Some m2 ->
           Parser.parse self ctx start_line head_line [] [] input_check_ref
           = Ok (Py.strip
                   (Py.slice (Py.strip after) (Re.m_end m1) (Re.m_start m2)))
           /\ exists i j,
               Re.m_end m1 <= i /\ i <= j /\ j <= Re.m_start m2
               /\ Py.strip
                    (Py.slice (Py.strip after) (Re.m_end m1)
                       (Re.m_start m2))
                  = Py.slice (Py.strip after) i j).
Proof.
  intro P. split.
  - intros changes cf d sl hl nm before after src head_re m1 m2
           Hne Hfo Hf Hc Hs H0 Hg Hs2.
    rewrite (parse_changes_from_remainder changes cf d sl hl [] [] nm
               before after Hne Hfo).
    exact (extract_from_two_headings _ _ cf _ _ _ _ _ _ _ Hf Hc Hs H0 Hg Hs2).
  - intros self ctx changes sl hl ref before after src head_re m1 m2
           Hhead Hfile Hne Hfo Hf Hc Hs H0 Hg Hs2.
    rewrite (Parser_parse_from_remainder self ctx sl hl [] [] ref changes
               before after eq_refl Hhead Hfile Hne Hfo).
    exact (extract_from_two_headings _ _ (Parser.changes_file self) _ _ _ _
             _ _ _ Hf Hc Hs H0 Hg Hs2).
Qed.

Lemma two_headings_body_witness :
  _parse_changes (P := Release.packaging) Examples.two_sections "CHANGES.md"
    "1.2.3" Examples.start_line Examples.head_line [] [] "pkg"
  = Ok (lit "Fixed bug #42.")
  /\ Parser.parse (P := Release.packaging) Examples.self
       (Examples.ctx Examples.two_sections) Examples.start_line
       Examples.Parser_head_line [] [] None
     = Ok (lit "Fixed bug #42.").
Proof.
  destruct (two_headings_body Release.packaging) as [F C]. split.
  - eval_heading Hfo Hf Hc H1 version_field Examples.two_sections
      Examples.start_line Examples.head_line (lit "pkg").
    eval_next eval_some H2 H1.
    match type of H1 with
    | re.search ?p ?msg 0 = Some ?m =>
        assert (H0 : Re.m_start m = 0) by (vm_compute; reflexivity);
        assert (Hg : re.group_named p m "version"
                     = Some (Some (lit "1.2.3")))
          by (vm_compute; reflexivity)
    end.
    assert (Hne : Examples.start_line <> []) by discriminate.
    destruct (F _ (lit "CHANGES.md") _ _ _ _ _ _ _ _ _ _
                Hne Hfo Hf Hc H1 H0 Hg H2)
      as [E _].
    (refine (eq_trans E _); vm_compute; reflexivity).
  - eval_heading Hfo Hf Hc H1 bracketed_version_field Examples.two_sections
      Examples.start_line Examples.Parser_head_line (lit "pkg").
    eval_next eval_some H2 H1.
    match type of H1 with
    | re.search ?p ?msg 0 = Some ?m =>
        assert (H0 : Re.m_start m = 0) by (vm_compute; reflexivity);
        assert (Hg : re.group_named p m "version"
                     = Some (Some (lit "1.2.3")))
          by (vm_compute; reflexivity)
    end.
    assert (Hne : Examples.start_line <> []) by discriminate.
    assert (Hh : Parser.check_head
                   (version (Examples.ctx Examples.two_sections)) None
                 = Ok tt) by reflexivity.
    assert (Hfile : files (Examples.ctx Examples.two_sections)
                      (Parser.changes_file Examples.self)
                    = Some Examples.two_sections) by reflexivity.
    destruct (C Examples.self (Examples.ctx Examples.two_sections)
                _ _ _ None _ _ _ _ _ _
                Hh Hfile Hne Hfo Hf Hc H1 H0 Hg H2)
      as [E _].
    (refine (eq_trans E _); vm_compute; reflexivity).
Defined.

(** The first match starts the remainder and carries version [v]. *)
Ltac eval_version H0 Hg H1 v :=
  match type of H1 with
  | re.search ?p ?msg 0 = Some ?m =>
      assert (H0 : Re.m_start m = 0) by (vm_compute; reflexivity);
      assert (Hg : re.group_named p m "version" = Some (Some v))
        by (vm_compute; reflexivity)
  end.

(** ** Exactly one heading *)

(** The claim about a changelog with one heading match after the start
    mark, for the function-based extractor, as it is stated. *)
Definition one_heading_claim {P : Packaging} (changes changes_file declared
  start_line head_line fix_issue_regex fix_issue_repl name : str) : Prop :=
  forall before after src head_re m1,
    first_occurrence changes start_line before after ->
    Format.format head_line (heading_kwargs version_field name) = Some src ->
    re.compile src true = Some head_re ->
    re.search head_re (Py.strip after) 0 = Some m1 ->
    re.search head_re (Py.strip after) (Re.m_end m1) = None ->
    _parse_changes changes changes_file declared start_line head_line
      fix_issue_regex fix_issue_repl name
    = Ok (Py.strip (Py.slice_from (Py.strip after) (Re.m_end m1))).

(** C5, as stated, fails when text stands between the start mark and the
    heading. *)
Lemma one_heading_claim_after_intro :
  ~ one_heading_claim (P := Release.packaging)
      Examples.one_section_after_intro "CHANGES.md" "1.2.3"
      Examples.start_line Examples.head_line "" "" "pkg".
Proof.
  intro H. unfold one_heading_claim in H.
  eval_heading F Hf Hc H1 version_field Examples.one_section_after_intro
    Examples.start_line Examples.head_line (lit "pkg").
  eval_next eval_none H2 H1.
  specialize (H _ _ _ _ _ F Hf Hc H1 H2).
  vm_compute in H. discriminate H.
Qed.

(** C5, amended.  When the heading pattern matches at the very start of
    the trimmed remainder and nowhere after that match, the version group
    of the match is the declared version, and no issue rewrite is set, the
    extraction returns the text from the end of the match to the end of
    the remainder, trimmed.  The same holds for the method of class
    [Parser] after its own checks. *)
Theorem one_heading_body :
  forall P : Packaging,
    (forall changes changes_file declared start_line head_line name before
            after src head_re m1,
        start_line <> [] ->
        first_occurrence changes start_line before after ->
        Format.format head_line (heading_kwargs version_field name)
        = Some src ->
        re.compile src true = Some head_re ->
        re.search head_re (Py.strip after) 0 = Some m1 ->
        Re.m_start m1 = 0 ->
        re.group_named head_re m1 "version" = Some (Some declared) ->
        re.search head_re (Py.strip after) (Re.m_end m1) = None ->
        _parse_changes changes changes_file declared start_line head_line
          [] [] name
        = Ok (Py.strip (Py.slice_from (Py.strip after) (Re.m_end m1))))
    /\ (forall self ctx changes start_line head_line input_check_ref before
               after src head_re m1,
           Parser.check_head (version ctx) input_check_ref = Ok tt ->
           files ctx (Parser.changes_file self) = Some changes ->
           start_line <> [] ->
           first_occurrence changes start_line before after ->
           Format.format head_line
             (heading_kwargs bracketed_version_field (Parser.name self))
           = Some src ->
           re.compile src true = Some head_re ->
           re.search head_re (Py.strip after) 0 = Some m1 ->
           Re.m_start m1 = 0 ->
           re.group_named head_re m1 "version" = Some (Some (version ctx)) ->
           re.search head_re (Py.strip after) (Re.m_end m1) = None ->
           Parser.parse self ctx start_line head_line [] [] input_check_ref
           = Ok (Py.strip (Py.slice_from (Py.strip after) (Re.m_end m1)))).
Proof.
  intro P. split.
  - intros changes cf d sl hl nm before after src head_re m1
           Hne Hfo Hf Hc Hs H0 Hg Hs2.
    rewrite (parse_changes_from_remainder changes cf d sl hl [] [] nm
               before after Hne Hfo).
    exact (extract_from_one_heading _ _ cf _ _ _ _ _ _ Hf Hc Hs H0 Hg Hs2).
  - intros self ctx changes sl hl ref before after src head_re m1
           Hhead Hfile Hne Hfo Hf Hc Hs H0 Hg Hs2.
    rewrite (Parser_parse_from_remainder self ctx sl hl [] [] ref changes
               before after eq_refl Hhead Hfile Hne Hfo).
    exact (extract_from_one_heading _ _ (Parser.changes_file self) _ _ _ _
             _ _ Hf Hc Hs H0 Hg Hs2).
Qed.

Lemma one_heading_body_witness :
  _parse_changes (P := Release.packaging) Examples.one_section "CHANGES.md"
    "1.2.3" Examples.start_line Examples.head_line [] [] "pkg"
  = Ok (lit "Fixed bug #42.")
  /\ Parser.parse (P := Release.packaging) Examples.self
       (Examples.ctx Examples.one_section) Examples.start_line
       Examples.Parser_head_line [] [] None
     = Ok (lit "Fixed bug #42.").
Proof.
  destruct (one_heading_body Release.packaging) as [F C].
  assert (Hne : Examples.start_line <> []) by discriminate.
  split.
  - eval_heading Hfo Hf Hc H1 version_field Examples.one_section
      Examples.start_line Examples.head_line (lit "pkg").
    eval_next eval_none H2 H1.
    eval_version H0 Hg H1 (lit "1.2.3").
    refine (eq_trans
              (F _ (lit "CHANGES.md") _ _ _ _ _ _ _ _ _
                 Hne Hfo Hf Hc H1 H0 Hg H2) _).
    vm_compute. reflexivity.
  - eval_heading Hfo Hf Hc H1 bracketed_version_field Examples.one_section
      Examples.start_line Examples.Parser_head_line (lit "pkg").
    eval_next eval_none H2 H1.
    eval_version H0 Hg H1 (lit "1.2.3").
    assert (Hh : Parser.check_head
                   (version (Examples.ctx Examples.one_section)) None
                 = Ok tt) by reflexivity.
    assert (Hfile : files (Examples.ctx Examples.one_section)
                      (Parser.changes_file Examples.self)
                    = Some Examples.one_section) by reflexivity.
    refine (eq_trans
              (C Examples.self (Examples.ctx Examples.one_section)
                 _ _ _ None _ _ _ _ _
                 Hh Hfile Hne Hfo Hf Hc H1 H0 Hg H2) _).
    vm_compute. reflexivity.
Defined.

(** ** No issue rewrite *)

(** C9.  With [fix_issue_regex] and [fix_issue_repl] both empty nothing is
    substituted: whenever the extraction reaches the section body, the note
    is that body, trimmed, whatever the changelog and the other
    parameters; and with an empty [fix_issue_regex] the function-based
    extractor never looks at [fix_issue_repl].  The same holds for the
    method of class [Parser] after its own checks. *)
Theorem no_rewrite_keeps_body :
  forall P : Packaging,
    (forall changes changes_file declared start_line head_line name before
            after src head_re m,
        start_line <> [] ->
        first_occurrence changes start_line before after ->
        Format.format head_line (heading_kwargs version_field name)
        = Some src ->
        re.compile src true = Some head_re ->
        re.match_ head_re (Py.strip after) = Some m ->
        re.group_named head_re m "version" = Some (Some declared) ->
        _parse_changes changes changes_file declared start_line head_line
          [] [] name
        = Ok (Py.strip (section_body head_re (Py.strip after) m)))
    /\ (forall changes changes_file declared start_line head_line
               fix_issue_repl name,
           _parse_changes changes changes_file declared start_line head_line
             [] fix_issue_repl name
           = _parse_changes changes changes_file declared start_line
               head_line [] [] name)
    /\ (forall self ctx changes start_line head_line input_check_ref before
               after src head_re m,
           Parser.check_head (version ctx) input_check_ref = Ok tt ->
           files ctx (Parser.changes_file self) = Some changes ->
           start_line <> [] ->
           first_occurrence changes start_line before after ->
           Format.format head_line
             (heading_kwargs bracketed_version_field (Parser.name self))
           = Some src ->
           re.compile src true = Some head_re ->
           re.match_ head_re (Py.strip after) = Some m ->
           re.group_named head_re m "version" = Some (Some (version ctx)) ->
           Parser.parse self ctx start_line head_line [] [] input_check_ref
           = Ok (Py.strip (section_body head_re (Py.strip after) m))).
Proof.
  intro P. split; [|split].
  - intros changes cf d sl hl nm before after src head_re m
           Hne Hfo Hf Hc Hm Hg.
    rewrite (parse_changes_from_remainder changes cf d sl hl [] [] nm
               before after Hne Hfo).
    exact (extract_from_body _ _ cf _ _ _ _ _ _ Hf Hc Hm Hg).
  - reflexivity.
  - intros self ctx changes sl hl ref before after src head_re m
           Hhead Hfile Hne Hfo Hf Hc Hm Hg.
    rewrite (Parser_parse_from_remainder self ctx sl hl [] [] ref changes
               before after eq_refl Hhead Hfile Hne Hfo).
    exact (extract_from_body _ _ (Parser.changes_file self) _ _ _ _ _ _
             Hf Hc Hm Hg).
Qed.

Lemma no_rewrite_keeps_body_witness :
  _parse_changes (P := Release.packaging) Examples.two_sections "CHANGES.md"
    "1.2.3" Examples.start_line Examples.head_line [] [] "pkg"
  = Ok (lit "Fixed bug #42.")
  /\ Parser.parse (P := Release.packaging) Examples.self
       (Examples.ctx Examples.one_section) Examples.start_line
       Examples.Parser_head_line [] [] None
     = Ok (lit "Fixed bug #42.").
Proof.
  destruct (no_rewrite_keeps_body Release.packaging) as (F & _ & C).
  assert (Hne : Examples.start_line <> []) by discriminate.
  split.
  - eval_heading Hfo Hf Hc H1 version_field Examples.two_sections
      Examples.start_line Examples.head_line (lit "pkg").
    eval_version H0 Hg H1 (lit "1.2.3").
    apply search_match in H1; [|exact H0].
    refine (eq_trans
              (F _ (lit "CHANGES.md") _ _ _ _ _ _ _ _ _
                 Hne Hfo Hf Hc H1 Hg) _).
    vm_compute. reflexivity.
  - eval_heading Hfo Hf Hc H1 bracketed_version_field Examples.one_section
      Examples.start_line Examples.Parser_head_line (lit "pkg").
    eval_version H0 Hg H1 (lit "1.2.3").
    apply search_match in H1; [|exact H0].
    assert (Hh : Parser.check_head
                   (version (Examples.ctx Examples.one_section)) None
                 = Ok tt) by reflexivity.
    assert (Hfile : files (Examples.ctx Examples.one_section)
                      (Parser.changes_file Examples.self)
                    = Some Examples.one_section) by reflexivity.
    refine (eq_trans
              (C Examples.self (Examples.ctx Examples.one_section)
                 _ _ _ None _ _ _ _ _
                 Hh Hfile Hne Hfo Hf Hc H1 Hg) _).
    vm_compute. reflexivity.
Defined.

Lemma start_mark_contract_witness :
  Examples.start_line <> []
  /\ start_mark_claim (P := Release.packaging) Examples.two_sections
       "CHANGES.md" "1.2.3" Examples.start_line Examples.head_line "" ""
       "pkg"
  /\ _parse_changes (P := Release.packaging) (lit "# Changelog")
       "CHANGES.md" "1.2.3" Examples.start_line Examples.head_line "" ""
       "pkg"
     = Raise (StartMarkNotFound Examples.start_line)
  /\ Parser_start_mark_claim (P := Release.packaging) Examples.self
       (Examples.ctx Examples.two_sections) Examples.two_sections
       Examples.start_line Examples.Parser_head_line "" "" None.
Proof.
  assert (Hne : Examples.start_line <> []) by discriminate.
  split; [exact Hne|]. split; [|split].
  - exact (proj1 (start_mark_contract Release.packaging
                    Examples.two_sections (lit "CHANGES.md") (lit "1.2.3")
                    Examples.start_line Examples.head_line [] []
                    (lit "pkg")) Hne).
  - destruct (proj1 (start_mark_contract Release.packaging
                       (lit "# Changelog") (lit "CHANGES.md") (lit "1.2.3")
                       Examples.start_line Examples.head_line [] []
                       (lit "pkg")) Hne) as [[_ Hno] _].
    refine (Hno _).
    intros (b & a & H).
    apply (f_equal (@length ascii)) in H.
    rewrite !length_app in H.
    change (length (lit "# Changelog")) with 11 in H.
    change (length Examples.start_line) with 38 in H.
    lia.
  - assert (Hh : Parser.check_head
                   (version (Examples.ctx Examples.two_sections)) None
                 = Ok tt) by reflexivity.
    assert (Hfile : files (Examples.ctx Examples.two_sections)
                      (Parser.changes_file Examples.self)
                    = Some Examples.two_sections) by reflexivity.
    exact (proj2 (proj2 (start_mark_contract Release.packaging
                           Examples.two_sections (lit "CHANGES.md")
                           (lit "1.2.3") Examples.start_line
                           Examples.Parser_head_line [] [] (lit "pkg")))
             Examples.self (Examples.ctx Examples.two_sections) None Hne
             eq_refl Hh Hfile).
Defined.
(** ** The two heading templates *)

(** [template] with every plain [{version}] field written as
    [\[{version}\]].  Everything else is kept as it is: the other fields,
    the doubled braces, and the whole rest of the template from a single
    closing brace or from a replacement field that holds anything but a
    name (a conversion, a format specification, an attribute, an index) or
    that is not closed.  [field] is the name read so far, as in
    [Format.scan]. *)
Fixpoint bracket_version (field : option str) (s : str) {struct s} : str :=
  match field, s with
  | None, [] => []
  | Some acc, [] => lit "{" ++ rev acc
  | None, c :: s' =>
      if ReParse.ch_is c "{" then
        match s' with
        | d :: s'' =>
            if ReParse.ch_is d "{" then c :: d :: bracket_version None s''
            else bracket_version (Some []) s'
        | [] => lit "{"
        end
      else if ReParse.ch_is c "}" then
        match s' with
        | d :: s'' =>
            if ReParse.ch_is d "}" then c :: d :: bracket_version None s''
            else c :: s'
        | [] => lit "}"
        end
      else c :: bracket_version None s'
  | Some acc, c :: s' =>
      if ReParse.ch_is c "}" then
        (if Py.str_eqb (lit "version") (rev acc) then lit "\[{version}\]"
         else lit "{" ++ rev acc ++ lit "}")
        ++ bracket_version None s'
      else if ReParse.is_word c then bracket_version (Some (c :: acc)) s'
      else lit "{" ++ rev acc ++ c :: s'
  end.

(** The templates on which [Format.scan] is [str.format]: every
    replacement field holds a name only, made of letters, digits and
    underscores.  A field with a conversion ([{version!s}]), a format
    specification, an attribute or an index is outside. *)
Fixpoint plain_fields (field : bool) (s : str) {struct s} : bool :=
  match s with
  | [] => true
  | c :: s' =>
      if field then
        if ReParse.ch_is c "}" then plain_fields false s'
        else if ReParse.is_word c then plain_fields true s'
        else false
      else if ReParse.ch_is c "{" then
        match s' with
        | d :: s'' =>
            if ReParse.ch_is d "{" then plain_fields false s''
            else plain_fields true s'
        | [] => true
        end
      else if ReParse.ch_is c "}" then
        match s' with
        | d :: s'' =>
            if ReParse.ch_is d "}" then plain_fields false s'' else true
        | [] => true
        end
      else plain_fields false s'
  end.

Section Brackets.
Variables vfield name : str.

Let plain : Format.kwargs := heading_kwargs vfield name.
Let bracketed : Format.kwargs :=
  heading_kwargs (lit "\[" ++ vfield ++ lit "\]") name.

Definition wordy (acc : str) : Prop :=
  Forall (fun c => ReParse.is_word c = true) acc.

Lemma word_not_brace :
  forall c, ReParse.is_word c = true ->
            ReParse.ch_is c "{" = false /\ ReParse.ch_is c "}" = false.
Proof.
  intros c H. split.
  - destruct (ReParse.ch_is c "{") eqn:E; [|reflexivity].
    apply Ascii.eqb_eq in E. subst c. discriminate H.
  - destruct (ReParse.ch_is c "}") eqn:E; [|reflexivity].
    apply Ascii.eqb_eq in E. subst c. discriminate H.
Qed.

Lemma scan_in_field :
  forall kw w acc rest,
    wordy w ->
    Format.scan kw (Some acc) (w ++ lit "}" ++ rest)
    = match Format.get kw (rev acc ++ w), Format.scan kw None rest with
      | Some v, Some out => Some (v ++ out)
      | _, _ => None
      end.
Proof.
  intros kw w. induction w as [|c w IH]; intros acc rest Hw.
  - simpl. rewrite app_nil_r. reflexivity.
  - inversion Hw as [|? ? Hc Hw']. subst.
    destruct (word_not_brace c Hc) as [_ Hb].
    change ((c :: w) ++ lit "}" ++ rest) with (c :: (w ++ lit "}" ++ rest)).
    cbn [Format.scan]. rewrite Hb, Hc, IH by assumption.
    simpl. rewrite <- app_assoc. reflexivity.
Qed.

Lemma scan_field :
  forall kw w rest,
    wordy w ->
    Format.scan kw None (lit "{" ++ w ++ lit "}" ++ rest)
    = match Format.get kw w, Format.scan kw None rest with
      | Some v, Some out => Some (v ++ out)
      | _, _ => None
      end.
Proof.
  intros kw w rest Hw.
  pose proof (scan_in_field kw w [] rest Hw) as E.
  change (rev [] ++ w) with w in E. rewrite <- E. clear E.
  destruct w as [|c w]; [reflexivity|].
  inversion Hw as [|? ? Hc _]. subst.
  destruct (word_not_brace c Hc) as [Ha _].
  change (lit "{" ++ (c :: w) ++ lit "}" ++ rest)
    with ("{"%char :: c :: (w ++ lit "}" ++ rest)).
  cbn [Format.scan]. change (ReParse.ch_is "{"%char "{") with true.
  cbn iota. rewrite Ha. reflexivity.
Qed.

Lemma get_other :
  forall w, Py.str_eqb (lit "version") w = false ->
            Format.get bracketed w = Format.get plain w.
Proof.
  intros w H. unfold bracketed, plain, heading_kwargs.
  cbn [Format.get]. rewrite H. reflexivity.
Qed.

Lemma scan_bracketed_field :
  forall rest,
    Format.scan plain None (lit "\[{version}\]" ++ rest)
    = match Format.scan plain None rest with
      | Some out => Some ((lit "\[" ++ vfield ++ lit "\]") ++ out)
      | None => None
      end.
Proof.
  intro rest. cbn. destruct (Format.scan plain None rest) as [out|].
  - cbn. rewrite <- !app_assoc. reflexivity.
  - reflexivity.
Qed.

(** A replacement field that is not closed, or that holds anything but
    a name, is refused. *)
Lemma scan_open_field :
  forall kw w acc rest,
    wordy w ->
    rest = []
    \/ (exists c r,
           rest = c :: r /\ ReParse.is_word c = false
           /\ ReParse.ch_is c "}" = false) ->
    Format.scan kw (Some acc) (w ++ rest) = None.
Proof.
  intros kw w. induction w as [|c w IH]; intros acc rest Hw Hrest.
  - destruct Hrest as [-> | (c & r & -> & Hc & Hb)]; [reflexivity|].
    cbn [app Format.scan]. rewrite Hb, Hc. reflexivity.
  - inversion Hw as [|? ? Hc Hw']. subst.
    destruct (word_not_brace c Hc) as [_ Hb].
    change ((c :: w) ++ rest) with (c :: (w ++ rest)).
    cbn [Format.scan]. rewrite Hb, Hc. apply IH; assumption.
Qed.

Lemma scan_open_template :
  forall kw w rest,
    wordy w ->
    rest = []
    \/ (exists c r,
           rest = c :: r /\ ReParse.is_word c = false
           /\ ReParse.ch_is c "}" = false
           /\ (w = [] -> ReParse.ch_is c "{" = false)) ->
    Format.scan kw None (lit "{" ++ w ++ rest) = None.
Proof.
  intros kw w rest Hw Hrest.
  assert (E : Format.scan kw (Some []) (w ++ rest) = None).
  { apply scan_open_field; [exact Hw|].
    destruct Hrest as [-> | (c & r & -> & Hc & Hb & _)];
      [left; reflexivity | right].
    exists c, r. auto. }
  change (lit "{" ++ w ++ rest) with ("{"%char :: (w ++ rest)).
  cbn [Format.scan]. change (ReParse.ch_is "{"%char "{") with true.
  cbn iota.
  destruct w as [|x w].
  - destruct Hrest as [-> | (c & r & -> & _ & _ & Ho)]; [reflexivity|].
    cbn [app] in *. rewrite (Ho eq_refl). exact E.
  - inversion Hw as [|? ? Hx _]. subst.
    destruct (word_not_brace x Hx) as [Ha _].
    cbn [app] in *. rewrite Ha. exact E.
Qed.

Lemma bracket_version_scan :
  forall n s,
    length s <= n ->
    Format.scan bracketed None s
    = Format.scan plain None (bracket_version None s)
    /\ forall acc,
        wordy acc ->
        (acc = [] ->
         forall c s', s = c :: s' -> ReParse.ch_is c "{" = false) ->
        Format.scan bracketed (Some acc) s
        = Format.scan plain None (bracket_version (Some acc) s).
Proof.
  induction n as [|n IH]; intros s Hlen.
  - destruct s; [|simpl in Hlen; lia]. split; [reflexivity|].
    intros acc Hacc _. cbn [Format.scan bracket_version].
    rewrite <- (app_nil_r (rev acc)).
    rewrite scan_open_template;
      [reflexivity | apply Forall_rev; exact Hacc | left; reflexivity].
  - destruct s as [|c s].
    { split; [reflexivity|].
      intros acc Hacc _. cbn [Format.scan bracket_version].
      rewrite <- (app_nil_r (rev acc)).
      rewrite scan_open_template;
        [reflexivity | apply Forall_rev; exact Hacc | left; reflexivity]. }
    simpl in Hlen. split.
    + cbn [Format.scan bracket_version].
      destruct (ReParse.ch_is c "{") eqn:Eo.
      * destruct s as [|d s]; [reflexivity|].
        destruct (ReParse.ch_is d "{") eqn:Ed.
        -- cbn [Format.scan]. rewrite Eo, Ed.
           destruct (IH s) as [-> _]; [simpl in Hlen; lia|]. reflexivity.
        -- destruct (IH (d :: s)) as [_ H]; [lia|].
           apply H; [constructor|].
           intros _ c' s' E. injection E as <- _. exact Ed.
      * destruct (ReParse.ch_is c "}") eqn:Ec.
        -- destruct s as [|d s]; [reflexivity|].
           destruct (ReParse.ch_is d "}") eqn:Ed.
           ++ cbn [Format.scan]. rewrite Eo, Ec, Ed.
              destruct (IH s) as [-> _]; [simpl in Hlen; lia|]. reflexivity.
           ++ cbn [Format.scan]. rewrite Eo, Ec, Ed. reflexivity.
        -- cbn [Format.scan]. rewrite Eo, Ec.
           destruct (IH s) as [-> _]; [lia|]. reflexivity.
    + intros acc Hacc Hopen. cbn [Format.scan bracket_version].
      destruct (ReParse.ch_is c "}") eqn:Ec.
      * destruct (IH s) as [Hs _]; [lia|]. rewrite Hs.
        destruct (Py.str_eqb (lit "version") (rev acc)) eqn:Ev.
        -- apply str_eqb_eq in Ev. rewrite <- Ev.
           rewrite scan_bracketed_field. reflexivity.
        -- rewrite <- app_assoc, <- app_assoc.
           rewrite scan_field by (apply Forall_rev; exact Hacc).
           rewrite (get_other _ Ev). reflexivity.
      * destruct (ReParse.is_word c) eqn:Ew.
        -- destruct (IH s) as [_ H]; [lia|].
           apply H; [constructor; assumption | discriminate].
        -- rewrite scan_open_template;
             [reflexivity | apply Forall_rev; exact Hacc | right].
           exists c, s. split; [reflexivity|]. split; [exact Ew|].
           split; [exact Ec|].
           intro Hrev.
           assert (Hnil : acc = []).
           { destruct acc as [|a acc']; [reflexivity|]. simpl in Hrev.
             destruct (rev acc'); discriminate Hrev. }
           exact (Hopen Hnil c s eq_refl).
Qed.

End Brackets.

(** ** The two extractors *)

Section Agreement.
Context {P : Packaging}.

Lemma extractors_agree_on_equal_patterns :
  forall self ctx changes start_line h1 h2 fix_issue_regex fix_issue_repl,
    files ctx (Parser.changes_file self) = Some changes ->
    nonempty fix_issue_regex = nonempty fix_issue_repl ->
    Format.format h1
      (heading_kwargs bracketed_version_field (Parser.name self))
    = Format.format h2 (heading_kwargs version_field (Parser.name self)) ->
    Parser.parse self ctx start_line h1 fix_issue_regex fix_issue_repl None
    = _parse_changes changes (Parser.changes_file self) (version ctx)
        start_line h2 fix_issue_regex fix_issue_repl (Parser.name self).
Proof.
  intros self ctx changes sl h1 h2 fr fp Hfile Hfix Hfmt.
  assert (G : nonempty fr && negb (nonempty fp)
              || negb (nonempty fr) && nonempty fp = false)
    by (rewrite Hfix; destruct (nonempty fp); reflexivity).
  unfold Parser.parse, _parse_changes. rewrite G.
  cbn [Parser.check_head bind]. unfold read_file. rewrite Hfile.
  cbn [bind].
  destruct (Py.partition changes sl) as [[[b sep] msg]|]; [|reflexivity].
  destruct (negb (nonempty sep)); [reflexivity|].
  change (Format.format h1 _) with
    (Format.format h1
       (heading_kwargs bracketed_version_field (Parser.name self))).
  rewrite Hfmt. reflexivity.
Qed.

End Agreement.

(** The claim that the two extractors are equivalent, as it is stated:
    same changelog, same parameters, no git ref. *)
Definition extractors_agree_claim {P : Packaging} (self : Parser.t)
  (ctx : Context) (changes start_line head_line fix_issue_regex
  fix_issue_repl : str) : Prop :=
  files ctx (Parser.changes_file self) = Some changes ->
  Parser.parse self ctx start_line head_line fix_issue_regex fix_issue_repl
    None
  = _parse_changes changes (Parser.changes_file self) (version ctx)
      start_line head_line fix_issue_regex fix_issue_repl (Parser.name self).

(** C4, as stated, fails: for the [version] field the class-based
    extractor substitutes the version token inside escaped square
    brackets, the function-based one the bare token, so one template
    gives two different heading patterns. *)
Lemma extractors_disagree :
  ~ extractors_agree_claim (P := Release.packaging) Examples.self
      (Examples.ctx Examples.two_sections) Examples.two_sections
      Examples.start_line Examples.head_line "" "".
Proof.
  intro H. specialize (H eq_refl). vm_compute in H. discriminate H.
Qed.

(** C4, amended.  For a heading template whose replacement fields are
    plain names, with no git ref and [fix_issue_regex] and
    [fix_issue_repl] both empty or both set, the class-based extractor
    gives the result, note or error, of the function-based extractor with
    the template in which every [{version}] field is written inside
    escaped square brackets. *)
Theorem extractors_agree_up_to_brackets :
  forall (P : Packaging) self ctx changes start_line head_line
         fix_issue_regex fix_issue_repl,
    plain_fields false head_line = true ->
    files ctx (Parser.changes_file self) = Some changes ->
    nonempty fix_issue_regex = nonempty fix_issue_repl ->
    Parser.parse self ctx start_line head_line fix_issue_regex fix_issue_repl
      None
    = _parse_changes changes (Parser.changes_file self) (version ctx)
        start_line (bracket_version None head_line) fix_issue_regex
        fix_issue_repl (Parser.name self).
Proof.
  intros P self ctx changes sl hl fr fp _ Hfile Hfix.
  apply extractors_agree_on_equal_patterns; [exact Hfile | exact Hfix |].
  exact (proj1 (bracket_version_scan version_field (Parser.name self)
                  (length hl) hl (le_n _))).
Qed.

Lemma extractors_agree_up_to_brackets_witness :
  bracket_version None Examples.Parser_head_line = Examples.head_line
  /\ Parser.parse (P := Release.packaging) Examples.self
       (Examples.ctx Examples.two_sections) Examples.start_line
       Examples.Parser_head_line "#(\d+)" "[#\1](issues/\1)" None
     = _parse_changes (P := Release.packaging) Examples.two_sections
         "CHANGES.md" "1.2.3" Examples.start_line Examples.head_line
         "#(\d+)" "[#\1](issues/\1)" "pkg".
Proof.
  split; [reflexivity|].
  assert (Hplain : plain_fields false Examples.Parser_head_line = true)
    by (vm_compute; reflexivity).
  exact (extractors_agree_up_to_brackets Release.packaging Examples.self
           (Examples.ctx Examples.two_sections) Examples.two_sections
           Examples.start_line Examples.Parser_head_line
           (lit "#(\d+)") (lit "[#\1](issues/\1)") Hplain eq_refl eq_refl).
Defined.

(** ** The version token *)

Section VersionToken.
Import Re.

(** The pattern of the [version] field as [re.compile] reads it. *)
Definition version_token_class : regex :=
  Class false
    [CRange "0" "9"; CChar "."; CChar "a"; CChar "b"; CChar "c"; CChar "r"].

Definition version_group : regex :=
  Group 1
    (Seq (Class false [CRange "0" "9"])
       (Seq (Plus version_token_class)
          (Opt (Group 2
                  (Seq (Chr ".")
                     (Seq (Chr "p")
                        (Seq (Chr "o")
                           (Seq (Chr "s")
                              (Seq (Chr "t")
                                 (Plus (Class false [CRange "0" "9"])))))))))
       )).

(** A digit, a dot or one of the letters a, b, c, r. *)
Definition version_char (c : ascii) : bool :=
  is_digit c || Ascii.eqb c "." || Ascii.eqb c "a" || Ascii.eqb c "b"
  || Ascii.eqb c "c" || Ascii.eqb c "r".

(** A digit, then one or more version characters, then nothing or
    [.post] and one or more digits. *)
Definition version_token (t : str) : Prop :=
  exists d body post,
    t = d :: body ++ post
    /\ is_digit d = true
    /\ body <> []
    /\ Forall (fun c => version_char c = true) body
    /\ (post = []
        \/ exists ds,
            post = lit ".post" ++ ds /\ ds <> []
            /\ Forall (fun c => is_digit c = true) ds).

Lemma concat_singletons :
  forall (f : ascii -> bool) (ts : list str),
    Forall (fun t => exists x, t = [x] /\ f x = true) ts ->
    Forall (fun c => f c = true) (concat ts).
Proof.
  intros f ts H. induction H as [|t ts [x [-> Hx]] _ IH]; simpl.
  - constructor.
  - constructor; assumption.
Qed.

Lemma digit_class :
  forall x, class_matches false [CRange "0" "9"] x = is_digit x.
Proof.
  intro x. unfold class_matches, is_digit.
  cbn [existsb item_matches xorb].
  change (Py.code "0") with 48. change (Py.code "9") with 57.
  apply orb_false_r.
Qed.

Lemma token_class :
  forall x,
    class_matches false
      [CRange "0" "9"; CChar "."; CChar "a"; CChar "b"; CChar "c"; CChar "r"]
      x
    = version_char x.
Proof.
  intro x. unfold class_matches, version_char, is_digit.
  cbn [existsb item_matches xorb].
  change (Py.code "0") with 48. change (Py.code "9") with 57.
  rewrite orb_false_r, !orb_assoc. reflexivity.
Qed.

Lemma version_group_denotes :
  forall t, ReFacts.denote version_group t -> version_token t.
Proof.
  intros t H. cbn [ReFacts.denote version_group version_token_class] in H.
  destruct H as (t1 & t2 & -> & (d & -> & Hd) & t3 & t4 & -> & Hbody & Hpost).
  destruct Hbody as (t5 & ts & -> & (x & -> & Hx) & Hts).
  rewrite digit_class in Hd. rewrite token_class in Hx.
  exists d, ([x] ++ concat ts), t4. repeat split.
  - exact Hd.
  - discriminate.
  - constructor; [exact Hx|].
    apply concat_singletons.
    eapply Forall_impl; [|exact Hts].
    intros a (y & -> & Hy). exists y. rewrite token_class in Hy. auto.
  - destruct Hpost as [-> | Hpost]; [left; reflexivity | right].
    destruct Hpost as (p1 & r1 & -> & -> & p2 & r2 & -> & -> & p3 & r3 & ->
                       & -> & p4 & r4 & -> & -> & p5 & r5 & -> & -> & Hds).
    destruct Hds as (t6 & ds & -> & (y & -> & Hy) & Hds).
    rewrite digit_class in Hy.
    exists ([y] ++ concat ds). repeat split.
    + discriminate.
    + constructor; [exact Hy|]. apply concat_singletons.
      eapply Forall_impl; [|exact Hds].
      intros a (z & -> & Hz). exists z. rewrite digit_class in Hz. auto.
Qed.

Lemma version_group_sound :
  forall ml cur cs k res,
    rmatch ml version_group cur cs k = Some res ->
    exists t u cs',
      rest cur = t ++ u /\ version_token t
      /\ k (ReFacts.after cur t u)
           ((1, (pos cur, length t + pos cur, t)) :: cs')
         = Some res.
Proof.
  intros ml cur cs k res H. unfold version_group in H.
  apply ReFacts.group_sound in H.
  destruct H as (t & u & cs' & Hr & Hd & Hk).
  exists t, u, cs'. split; [exact Hr|]. split; [|exact Hk].
  apply version_group_denotes. exact Hd.
Qed.

Lemma version_token_two :
  forall t, version_token t ->
            exists d c u,
              t = d :: c :: u /\ is_digit d = true /\ version_char c = true.
Proof.
  intros t (d & body & post & -> & Hd & Hne & Hbody & _).
  destruct body as [|c body]; [contradiction|].
  inversion Hbody; subst. exists d, c, (body ++ post). auto.
Qed.

Lemma single_character_never_matches :
  forall ml cur cs k d,
    rest cur = [d]
    \/ (exists c u, rest cur = d :: c :: u /\ version_char c = false) ->
    rmatch ml version_group cur cs k = None.
Proof.
  intros ml cur cs k d H.
  destruct (rmatch ml version_group cur cs k) as [res|] eqn:E;
    [|reflexivity].
  exfalso. apply version_group_sound in E.
  destruct E as (t & u & cs' & Hr & Ht & _).
  apply version_token_two in Ht.
  destruct Ht as (d' & c' & u' & -> & _ & Hc').
  destruct H as [H | (c & u0 & H & Hc)]; rewrite H in Hr.
  - discriminate.
  - simpl in Hr. injection Hr as _ <-. congruence.
Qed.

End VersionToken.

(** A changelog whose only heading carries the one-character version
    [1]. *)
Definition single_character_changelog : str :=
  lit "# Changelog" ++ Examples.nl ++ Examples.start_line ++ Examples.nl
  ++ Examples.nl ++ lit "## [1] - 2024-01-01" ++ Examples.nl ++ Examples.nl
  ++ lit "First release." ++ Examples.nl.

(** C10.  The [version] field compiles to a group that matches a digit,
    then one or more characters among digits, dots and the letters a, b,
    c, r, then optionally [.post] and digits: whatever stands around the
    group in the heading pattern, the text the group captures has that
    shape, so it has at least two characters.  A digit followed by the
    end of the text or by a character outside that set is never matched,
    and a changelog whose heading reads [## [1] - 2024-01-01] makes both
    extractors fail with the head-mark error. *)
Theorem version_token_shape :
  ReParse.parse version_field ReParse.initial
  = Some (version_group, 2, [(lit "version", 1)])
  /\ ReParse.parse bracketed_version_field ReParse.initial
     = Some (Re.Seq (Re.Chr "[") (Re.Seq version_group (Re.Chr "]")), 2,
             [(lit "version", 1)])
  /\ (forall ml cur cs k res,
         Re.rmatch ml version_group cur cs k = Some res ->
         exists t u cs',
           Re.rest cur = t ++ u /\ version_token t /\ 2 <= length t
           /\ k (ReFacts.after cur t u)
                ((1, (Re.pos cur, length t + Re.pos cur, t)) :: cs')
              = Some res)
  /\ (forall ml cur cs k d,
         Re.rest cur = [d]
         \/ (exists c u,
                Re.rest cur = d :: c :: u /\ version_char c = false) ->
         Re.rmatch ml version_group cur cs k = None)
  /\ (exists pattern,
         _parse_changes (P := Release.packaging) single_character_changelog
           "CHANGES.md" "1" Examples.start_line Examples.head_line "" ""
           "pkg"
         = Raise (HeadMarkNotFound pattern "CHANGES.md"))
  /\ (exists pattern,
         Parser.parse (P := Release.packaging) Examples.self
           {| files := fun _ => Some single_character_changelog;
              version := "1" |}
           Examples.start_line Examples.Parser_head_line "" "" None
         = Raise (HeadMarkNotFound pattern "CHANGES.md")).
Proof.
  split; [vm_compute; reflexivity|]. split; [vm_compute; reflexivity|].
  split; [|split; [|split]].
  - intros ml cur cs k res H. apply version_group_sound in H.
    destruct H as (t & u & cs' & Hr & Ht & Hk).
    exists t, u, cs'. split; [exact Hr|]. split; [exact Ht|].
    split; [|exact Hk].
    destruct (version_token_two t Ht) as (d & c & u' & -> & _).
    simpl. lia.
  - exact single_character_never_matches.
  - eexists. vm_compute. reflexivity.
  - eexists. vm_compute. reflexivity.
Qed.

Lemma version_token_shape_witness :
  (exists t u, lit "1.2.3] - 2024" = t ++ u /\ version_token t)
  /\ Re.rmatch true version_group (Re.cursor_at (lit "1] - 2024") 0) []
       (Re.accept false 0)
     = None.
Proof.
  destruct version_token_shape as (_ & _ & Hsound & Hnever & _). split.
  - eassert (H : Re.rmatch true version_group
                   (Re.cursor_at (lit "1.2.3] - 2024") 0) []
                   (Re.accept false 0) = Some _)
      by (vm_compute; reflexivity).
    destruct (Hsound _ _ _ _ _ H) as (t & u & _ & Hr & Ht & _).
    exists t, u. split; [exact Hr | exact Ht].
  - apply Hnever with (d := "1"%char). right.
    exists "]"%char, (lit " - 2024"). split; reflexivity.
Defined.

(** ** Runs of the matcher

    [runs r cur cs cur' cs']: started at [cur] with captures [cs], the
    first path through [r] ends at [cur'] with captures [cs'], so the
    match is the one of the continuation there whenever that succeeds. *)

Module Runs.
Import Re.
Import ReFacts.

Definition runs (ml : bool) (r : regex) (cur : cursor) (cs : caps)
  (cur' : cursor) (cs' : caps) : Prop :=
  forall k res, k cur' cs' = Some res -> rmatch ml r cur cs k = Some res.

Lemma runs_seq :
  forall ml r1 r2 cur cs cur1 cs1 cur2 cs2,
    runs ml r1 cur cs cur1 cs1 ->
    runs ml r2 cur1 cs1 cur2 cs2 ->
    runs ml (Seq r1 r2) cur cs cur2 cs2.
Proof.
  intros ml r1 r2 cur cs cur1 cs1 cur2 cs2 H1 H2 k res Hk.
  cbn [rmatch]. apply H1. apply H2. exact Hk.
Qed.

Lemma runs_chr :
  forall ml c s cur cs,
    rest cur = c :: s -> runs ml (Chr c) cur cs (next c s cur) cs.
Proof.
  intros ml c s cur cs H k res Hk. cbn [rmatch].
  rewrite H, Ascii.eqb_refl. exact Hk.
Qed.

Lemma runs_class :
  forall ml neg items x s cur cs,
    rest cur = x :: s -> class_matches neg items x = true ->
    runs ml (Class neg items) cur cs (next x s cur) cs.
Proof.
  intros ml neg items x s cur cs H Hx k res Hk. cbn [rmatch].
  rewrite H, Hx. exact Hk.
Qed.

Lemma runs_bol :
  forall ml cur cs, at_bol ml cur = true -> runs ml Bol cur cs cur cs.
Proof.
  intros ml cur cs H k res Hk. cbn [rmatch]. rewrite H. exact Hk.
Qed.

Lemma runs_alt_left :
  forall ml r1 r2 cur cs cur' cs',
    runs ml r1 cur cs cur' cs' -> runs ml (Alt r1 r2) cur cs cur' cs'.
Proof.
  intros ml r1 r2 cur cs cur' cs' H k res Hk. cbn [rmatch].
  rewrite (H k res Hk). reflexivity.
Qed.

Lemma runs_alt_right :
  forall ml r1 r2 cur cs cur' cs',
    (forall k, rmatch ml r1 cur cs k = None) ->
    runs ml r2 cur cs cur' cs' -> runs ml (Alt r1 r2) cur cs cur' cs'.
Proof.
  intros ml r1 r2 cur cs cur' cs' Hno H k res Hk. cbn [rmatch].
  rewrite Hno. apply H. exact Hk.
Qed.

Lemma runs_group :
  forall ml i r cur cs cur' cs',
    runs ml r cur cs cur' cs' ->
    runs ml (Group i r) cur cs cur'
      ((i, (pos cur, pos cur', firstn (pos cur' - pos cur) (rest cur)))
         :: cs').
Proof.
  intros ml i r cur cs cur' cs' H k res Hk. cbn [rmatch].
  apply H. exact Hk.
Qed.

Lemma runs_backref :
  forall ml i cur cs a b t u,
    lookup i cs = Some (a, b, t) -> rest cur = t ++ u ->
    runs ml (Backref i) cur cs (after cur t u) cs.
Proof.
  intros ml i cur cs a b t u Hl Hr k res Hk. cbn [rmatch].
  rewrite Hl, Hr, startswith_app, seek_after.
  destruct cur as [p s n]. simpl in Hr. subst s. exact Hk.
Qed.

(** A greedy repeat over a run of single code points: [body] takes one
    code point accepted by [ok] and leaves the captures as they are. *)
Lemma repeat_run :
  forall (body : cursor -> caps -> cont -> outcome) (ok : ascii -> bool)
         (cs : caps),
    (forall cur x s k,
        rest cur = x :: s ->
        body cur cs k = if ok x then k (next x s cur) cs else None) ->
    (forall cur k, rest cur = [] -> body cur cs k = None) ->
    forall t u k n cur res,
      Forall (fun c => ok c = true) t ->
      u = [] \/ (exists x u', u = x :: u' /\ ok x = false) ->
      rest cur = t ++ u ->
      length t < n ->
      k (after cur t u) cs = Some res ->
      repeat body k n cur cs = Some res.
Proof.
  intros body ok cs Hstep Hend t.
  induction t as [|x t IH]; intros u k n cur res Ht Hu Hr Hn Hk.
  - destruct n as [|n]; [lia|]. simpl in Hr. cbn [repeat].
    assert (Hb : forall k', body cur cs k' = None).
    { intro k'. destruct Hu as [-> | (y & u' & -> & Hy)].
      - apply Hend. exact Hr.
      - rewrite (Hstep cur y u' k' Hr), Hy. reflexivity. }
    rewrite Hb. rewrite <- Hr, after_nil in Hk. exact Hk.
  - destruct n as [|n]; [lia|]. simpl in Hr, Hn. cbn [repeat].
    inversion Ht as [|? ? Hx Ht']. subst.
    rewrite (Hstep cur x (t ++ u) _ Hr), Hx.
    replace (pos (next x (t ++ u) cur) =? pos cur) with false
      by (symmetry; apply Nat.eqb_neq; simpl; lia).
    rewrite (IH u k n (next x (t ++ u) cur) res Ht' Hu eq_refl);
      [reflexivity | lia |].
    rewrite <- after_one with (cur := cur), after_after. exact Hk.
Qed.

Lemma runs_star :
  forall ml r (ok : ascii -> bool) cs,
    (forall cur x s k,
        rest cur = x :: s ->
        rmatch ml r cur cs k = if ok x then k (next x s cur) cs else None) ->
    (forall cur k, rest cur = [] -> rmatch ml r cur cs k = None) ->
    forall t u cur,
      Forall (fun c => ok c = true) t ->
      u = [] \/ (exists x u', u = x :: u' /\ ok x = false) ->
      rest cur = t ++ u ->
      runs ml (Star r) cur cs (after cur t u) cs.
Proof.
  intros ml r ok cs Hstep Hend t u cur Ht Hu Hr k res Hk. cbn [rmatch].
  apply (repeat_run (rmatch ml r) ok cs Hstep Hend t u k _ cur res Ht Hu Hr);
    [|exact Hk].
  rewrite Hr, length_app. lia.
Qed.

Lemma match_at_runs :
  forall ml r cur cur' cs',
    runs ml r cur [] cur' cs' ->
    match_at ml r false cur
    = Some {| m_start := pos cur; m_end := pos cur'; m_caps := cs' |}.
Proof.
  intros ml r cur cur' cs' H. unfold match_at.
  rewrite (H (accept false (pos cur)) (cur', cs') eq_refl). reflexivity.
Qed.

(** A search skips the indices at which the pattern does not match. *)
Lemma scan_skip :
  forall ml r pre rest0 p n,
    (forall i, i < length pre ->
               match_at ml r false (seek p (pre ++ rest0) n i) = None) ->
    scan ml r false p (pre ++ rest0) n
    = scan ml r false
        (prev (after {| prev := p; rest := pre ++ rest0; pos := n |}
                 pre rest0))
        rest0 (length pre + n).
Proof.
  intros ml r pre rest0. induction pre as [|x pre IH]; intros p n H.
  - reflexivity.
  - change ((x :: pre) ++ rest0) with (x :: (pre ++ rest0)).
    cbn [scan].
    pose proof (H 0 ltac:(simpl; lia)) as H0.
    change (seek p ((x :: pre) ++ rest0) n 0)
      with {| prev := p; rest := x :: (pre ++ rest0); pos := n |} in H0.
    rewrite H0, IH.
    + f_equal.
      * unfold after. cbn [prev rev]. 
        destruct (rev pre) as [|y l]; reflexivity.
      * simpl. lia.
    + intros i Hi. apply (H (S i)). simpl. lia.
Qed.

Lemma scan_hit :
  forall ml r ma p s n m,
    match_at ml r ma {| prev := p; rest := s; pos := n |} = Some m ->
    scan ml r ma p s n = Some m.
Proof.
  intros ml r ma p s n m H. destruct s; cbn [scan]; rewrite H; reflexivity.
Qed.

End Runs.

(** ** The version assignment *)

Section VersionAssignment.
Import Re.
Import ReFacts.
Import Runs.

Definition space : regex := Chr " ".

Definition key_names : regex :=
  Alt (Seq (Chr "_") (Seq (Chr "_") (Seq (Chr "v") (Seq (Chr "e")
         (Seq (Chr "r") (Seq (Chr "s") (Seq (Chr "i") (Seq (Chr "o")
            (Seq (Chr "n") (Seq (Chr "_") (Chr "_")))))))))))
      (Seq (Chr "v") (Seq (Chr "e") (Seq (Chr "r") (Seq (Chr "s")
         (Seq (Chr "i") (Seq (Chr "o") (Chr "n"))))))).

Definition quote : regex :=
  Group 1 (Class false [CChar double_quote; CChar "'"]).

Definition unquoted : regex := Seq (NegLook (Backref 1)) Any.

Definition value : regex := Group 2 (Star unquoted).

Definition quoted : regex := Seq quote (Seq value (Backref 1)).

(** The pattern of [VERSION_RE] as [re.compile] reads it. *)
Definition version_assignment : regex :=
  Seq Bol
    (Seq key_names
       (Seq (Star space) (Seq (Chr "=") (Seq (Star space) quoted)))).

Lemma VERSION_RE_compiled :
  option_map re.prog VERSION_RE = Some version_assignment
  /\ option_map re.multiline VERSION_RE = Some true.
Proof. split; vm_compute; reflexivity. Qed.

Definition spaces (n : nat) : str := List.repeat " "%char n.

Definition is_space_char (c : ascii) : bool := Ascii.eqb c " ".

Lemma spaces_ok : forall n, Forall (fun c => is_space_char c = true) (spaces n).
Proof.
  induction n; simpl; constructor; [reflexivity | assumption].
Qed.

Lemma space_step :
  forall cs cur x s k,
    rest cur = x :: s ->
    rmatch true space cur cs k
    = if is_space_char x then k (next x s cur) cs else None.
Proof.
  intros cs cur x s k H. unfold space. cbn [rmatch]. rewrite H. reflexivity.
Qed.

Lemma space_end :
  forall cs cur k, rest cur = [] -> rmatch true space cur cs k = None.
Proof.
  intros cs cur k H. unfold space. cbn [rmatch]. rewrite H. reflexivity.
Qed.

(** Inside the quotes: any code point but the quote and the newline. *)
Definition is_unquoted (q : ascii) (c : ascii) : bool :=
  negb (Ascii.eqb q c) && negb (Ascii.eqb c newline).

Lemma unquoted_step :
  forall q a b cs cur x s k,
    lookup 1 cs = Some (a, b, [q]) ->
    rest cur = x :: s ->
    rmatch true unquoted cur cs k
    = if is_unquoted q x then k (next x s cur) cs else None.
Proof.
  intros q a b cs cur x s k Hl H. unfold unquoted, is_unquoted.
  cbn [rmatch]. rewrite Hl, H. cbn [Py.startswith].
  rewrite andb_true_r.
  destruct (Ascii.eqb q x); [reflexivity|].
  destruct (Ascii.eqb x newline); reflexivity.
Qed.

Lemma unquoted_end :
  forall q a b cs cur k,
    lookup 1 cs = Some (a, b, [q]) ->
    rest cur = [] -> rmatch true unquoted cur cs k = None.
Proof.
  intros q a b cs cur k Hl H. unfold unquoted.
  cbn [rmatch]. rewrite Hl, H. reflexivity.
Qed.

Lemma unquoted_ok :
  forall q v,
    ~ In q v -> ~ In newline v ->
    Forall (fun c => is_unquoted q c = true) v.
Proof.
  intros q v Hq Hn. apply Forall_forall. intros c Hc. unfold is_unquoted.
  apply andb_true_iff. split; apply negb_true_iff; apply Ascii.eqb_neq;
    intro E; subst; contradiction.
Qed.

Lemma key_runs :
  forall key p u n cs,
    key = lit "__version__" \/ key = lit "version" ->
    exists cur1,
      runs true key_names {| prev := p; rest := key ++ u; pos := n |} cs
        cur1 cs
      /\ rest cur1 = u.
Proof.
  intros key p u n cs [-> | ->]; eexists; (split; [|shelve]).
  - apply runs_alt_left.
    repeat (eapply runs_seq; [apply runs_chr; reflexivity|]).
    apply runs_chr. reflexivity.
  - apply runs_alt_right; [intro k; reflexivity|].
    repeat (eapply runs_seq; [apply runs_chr; reflexivity|]).
    apply runs_chr. reflexivity.
  Unshelve.
  all: reflexivity.
Qed.

Lemma quoted_runs :
  forall cur q v post,
    q = double_quote \/ q = "'"%char ->
    ~ In q v -> ~ In newline v ->
    rest cur = q :: v ++ q :: post ->
    exists cur' a b c d,
      runs true quoted cur [] cur' [(2, (a, b, v)); (1, (c, d, [q]))].
Proof.
  intros cur q v post Hq Hqv Hnv Hr.
  set (cur1 := next q (v ++ q :: post) cur).
  set (cs1 := [(1, (pos cur, pos cur1, [q]))]).
  set (cur2 := after cur1 v (q :: post)).
  set (cs2 := (2, (pos cur1, pos cur2, v)) :: cs1).
  exists (after cur2 [q] post), (pos cur1), (pos cur2), (pos cur), (pos cur1).
  assert (R1 : runs true quote cur [] cur1 cs1).
  { pose proof (runs_group true 1 (Class false [CChar double_quote; CChar "'"])
                  cur [] cur1 []) as R.
    replace (firstn (pos cur1 - pos cur) (rest cur)) with [q] in R.
    - apply R. apply runs_class; [exact Hr|].
      destruct Hq as [-> | ->]; reflexivity.
    - unfold cur1. cbn [next pos]. rewrite Hr.
      replace (S (pos cur) - pos cur) with 1 by lia. reflexivity. }
  assert (L1 : lookup 1 cs1 = Some (pos cur, pos cur1, [q])) by reflexivity.
  assert (R2 : runs true value cur1 cs1 cur2 cs2).
  { pose proof (runs_group true 2 (Star unquoted) cur1 cs1 cur2 cs1) as R.
    replace (firstn (pos cur2 - pos cur1) (rest cur1)) with v in R.
    - apply R.
      apply (runs_star true unquoted (is_unquoted q) cs1
               (fun c x s k => unquoted_step q _ _ cs1 c x s k L1)
               (fun c k => unquoted_end q _ _ cs1 c k L1)).
      + apply unquoted_ok; assumption.
      + right. exists q, post. split; [reflexivity|].
        unfold is_unquoted. rewrite Ascii.eqb_refl. reflexivity.
      + reflexivity.
    - unfold cur2, cur1. cbn [after next pos rest].
      rewrite Nat.add_sub, firstn_app, Nat.sub_diag, firstn_all.
      simpl. rewrite app_nil_r. reflexivity. }
  assert (R3 : runs true (Backref 1) cur2 cs2 (after cur2 [q] post) cs2).
  { apply runs_backref with (a := pos cur) (b := pos cur1);
      reflexivity. }
  unfold quoted.
  exact (runs_seq _ _ _ _ _ _ _ _ _ R1 (runs_seq _ _ _ _ _ _ _ _ _ R2 R3)).
Qed.

Lemma assignment_runs :
  forall p n key n1 n2 q v post,
    p = None \/ p = Some newline ->
    key = lit "__version__" \/ key = lit "version" ->
    q = double_quote \/ q = "'"%char ->
    ~ In q v -> ~ In newline v ->
    exists m,
      match_at true version_assignment false
        {| prev := p;
           rest := key ++ spaces n1 ++ lit "=" ++ spaces n2
                   ++ [q] ++ v ++ [q] ++ post;
           pos := n |}
      = Some m
      /\ re.group m 2 = Some v.
Proof.
  intros p n key n1 n2 q v post Hp Hkey Hq Hqv Hnv.
  set (r3 := q :: v ++ q :: post).
  set (r2 := spaces n2 ++ r3).
  set (r1 := spaces n1 ++ "="%char :: r2).
  set (cur0 := {| prev := p; rest := key ++ r1; pos := n |}).
  assert (Hsp : is_space_char q = false)
    by (destruct Hq as [-> | ->]; reflexivity).
  destruct (key_runs key p r1 n [] Hkey) as (cur1 & Rkey & Hr1).
  set (cur2 := after cur1 (spaces n1) ("="%char :: r2)).
  set (cur3 := next "="%char r2 cur2).
  set (cur4 := after cur3 (spaces n2) r3).
  destruct (quoted_runs cur4 q v post Hq Hqv Hnv eq_refl)
    as (cur5 & a & b & c & d & Rq).
  assert (R0 : runs true Bol cur0 [] cur0 []).
  { apply runs_bol. destruct Hp as [-> | ->]; reflexivity. }
  assert (Rs1 : runs true (Star space) cur1 [] cur2 []).
  { apply (runs_star true space is_space_char [] (space_step [])
             (space_end [])).
    - apply spaces_ok.
    - right. exists "="%char, r2. split; reflexivity.
    - exact Hr1. }
  assert (Re : runs true (Chr "=") cur2 [] cur3 []).
  { apply runs_chr. reflexivity. }
  assert (Rs2 : runs true (Star space) cur3 [] cur4 []).
  { apply (runs_star true space is_space_char [] (space_step [])
             (space_end [])).
    - apply spaces_ok.
    - right. exists q, (v ++ q :: post). split; [reflexivity | exact Hsp].
    - reflexivity. }
  pose proof
    (runs_seq _ _ _ _ _ _ _ _ _ R0
       (runs_seq _ _ _ _ _ _ _ _ _ Rkey
          (runs_seq _ _ _ _ _ _ _ _ _ Rs1
             (runs_seq _ _ _ _ _ _ _ _ _ Re
                (runs_seq _ _ _ _ _ _ _ _ _ Rs2 Rq))))) as R.
  eexists. split.
  - exact (match_at_runs true version_assignment cur0 cur5 _ R).
  - reflexivity.
Qed.

End VersionAssignment.

Lemma search_first_match :
  forall p pre line m,
    (forall i,
        i < length pre ->
        Re.match_at (re.multiline p) (re.prog p) false
          (Re.cursor_at (pre ++ line) i) = None) ->
    Re.match_at (re.multiline p) (re.prog p) false
      (ReFacts.after
         {| Re.prev := None; Re.rest := pre ++ line; Re.pos := 0 |} pre line)
    = Some m ->
    re.search p (pre ++ line) 0 = Some m.
Proof.
  intros p pre line m Hpre Hm.
  unfold re.search, re.search_from.
  replace (Re.cursor_at (pre ++ line) 0)
    with {| Re.prev := None; Re.rest := pre ++ line; Re.pos := 0 |}
    by (unfold Re.cursor_at; destruct (pre ++ line); reflexivity).
  cbn [Re.prev Re.rest Re.pos].
  rewrite Runs.scan_skip by exact Hpre.
  apply Runs.scan_hit. exact Hm.
Qed.

(** The text of a version file: a line before, then the assignment
    with quote [q]. *)
Definition version_file_text (q : ascii) : str :=
  lit "name = 'pkg'" ++ Examples.nl ++ lit "version = " ++ [q]
  ++ lit "2.1.0" ++ [q] ++ Examples.nl.

(** * The programs

    [main] of [src/src/main.py], and [Controller] and [main] of
    [src/main.py].  A run reads the inputs from [os.environ], prints and
    writes one file; the run is its events in order and how it ends. *)

(** [Version.is_prerelease] and [Version.is_devrelease] of the version
    library. *)
Class ReleaseFlags (P : Packaging) : Type :=
  { is_prerelease : Version -> bool;
    is_devrelease : Version -> bool }.

Inductive event : Type :=
(** [print(line)] *)
| Print (line : str)
(** [(root / name).write_text(text)], completed *)
| WriteText (name text : str).

Inductive failure : Type :=
(** [KeyError], raised by [os.environ[name]] *)
| KeyError (name : str)
(** [OSError], raised by [(root / name).write_text] *)
| OSError (name : str)
| Failed (e : error).

Inductive exit (A : Type) : Type :=
| Return (a : A)
| Abort (f : failure).
Arguments Return {A} a.
Arguments Abort {A} f.

Definition io (A : Type) : Type := (list event * exit A)%type.

Definition io_ret {A : Type} (a : A) : io A := ([], Return a).

Definition io_bind {A B : Type} (m : io A) (f : A -> io B) : io B :=
  match m with
  | (tr, Return a) => let (tr', e) := f a in (tr ++ tr', e)
  | (tr, Abort x) => (tr, Abort x)
  end.

Notation "x <~ e ;; k" := (io_bind e (fun x => k))
  (at level 61, e at next level, right associativity).
Notation "e ~~ k" := (io_bind e (fun _ => k))
  (at level 61, right associativity).

(** [os.environ[name]] *)
Definition getenv (environ : str -> option str) (name : str) : io str :=
  match environ name with
  | Some v => io_ret v
  | None => ([], Abort (KeyError name))
  end.

Definition lift {A : Type} (r : result A) : io A :=
  match r with
  | Ok a => io_ret a
  | Raise e => ([], Abort (Failed e))
  end.

Definition print (line : str) : io unit := ([Print line], Return tt).

(** The paths under [root] at which [Path.write_text] succeeds.  It
    raises [OSError] at a directory, under a directory that does not exist
    or where writing is not permitted; the empty name is [root] itself, a
    directory. *)
Class Disk : Type :=
  { writable : str -> bool;
    root_is_a_directory : writable [] = false }.

(** [(root / name).write_text(text)]: a write that fails leaves no
    [WriteText], whatever it did to the file before it failed. *)
Definition write_text {D : Disk} (name text : str) : io unit :=
  if writable name then ([WriteText name text], Return tt)
  else ([], Abort (OSError name)).

(** [str(b).lower()] *)
Definition lower_bool (b : bool) : str := if b then "true" else "false".

Section Programs.
Context {P : Packaging} {F : ReleaseFlags P} {D : Disk}.

(** [parse_version(ctx.version)] on what [find_version] returned. *)
Definition parse_found (found : option str) : io (str * Version) :=
  match found with
  | None => ([], Abort (Failed VersionIsNone))
  | Some v =>
      match parse_version v with
      | Some parsed => io_ret (v, parsed)
      | None => ([], Abort (Failed (InvalidVersion v)))
      end
  end.

(** [main] of [src/src/main.py]. *)
Definition main (environ : str -> option str) (tree : str -> option str)
  : io nat :=
  let ctx := {| files := tree; version := [] |} in
  version_file <~ getenv environ "INPUT_VERSION_FILE" ;;
  version_input <~ getenv environ "INPUT_VERSION" ;;
  found <~ lift (find_version ctx version_file version_input) ;;
  vp <~ parse_found found ;;
  let ctx := {| files := tree; version := fst vp |} in
  check_ref <~ getenv environ "INPUT_CHECK_REF" ;;
  lift (check_head (version ctx) (Some check_ref)) ~~
  changes_file <~ getenv environ "INPUT_CHANGES_FILE" ;;
  start_line <~ getenv environ "INPUT_START_LINE" ;;
  head_line <~ getenv environ "INPUT_HEAD_LINE" ;;
  fix_issue_regex <~ getenv environ "INPUT_FIX_ISSUE_REGEX" ;;
  fix_issue_repl <~ getenv environ "INPUT_FIX_ISSUE_REPL" ;;
  name <~ getenv environ "INPUT_NAME" ;;
  note <~ lift (parse_changes ctx changes_file start_line head_line
                  fix_issue_regex fix_issue_repl name) ;;
  print (lit "::set-output name=version::" ++ version ctx) ~~
  print (lit "::set-output name=prerelease::"
         ++ lower_bool (is_prerelease (snd vp))) ~~
  print (lit "::set-output name=devrelease::"
         ++ lower_bool (is_devrelease (snd vp))) ~~
  output_file <~ getenv environ "INPUT_OUTPUT_FILE" ;;
  write_text output_file note ~~
  io_ret 0.

End Programs.

(** [Output] of [src/main.py]. *)
Module Output.

Record t : Type :=
  { version : str; pre_release : bool; dev_release : bool }.

Definition show (self : t) : io unit :=
  print (lit "::set-output name=version::" ++ version self) ~~
  print (lit "::set-output name=prerelease::"
         ++ lower_bool (pre_release self)) ~~
  print (lit "::set-output name=devrelease::"
         ++ lower_bool (dev_release self)).

End Output.

(** [Controller] of [src/main.py]; [tree] is the directory under
    [root]. *)
Module Controller.

Record t : Type :=
  { tree : str -> option str; parser : Parser.t }.

Section Methods.
Context {P : Packaging} {F : ReleaseFlags P} {D : Disk}.

(** [Controller(root)] *)
Definition init (environ : str -> option str) (tree : str -> option str)
  : io t :=
  changes_file <~ getenv environ "INPUT_CHANGES_FILE" ;;
  name <~ getenv environ "INPUT_NAME" ;;
  io_ret {| tree := tree;
            parser := {| Parser.changes_file := changes_file;
                         Parser.name := name |} |}.

Definition start (self : t) (environ : str -> option str) : io unit :=
  let ctx := {| files := tree self; version := [] |} in
  version_file <~ getenv environ "INPUT_VERSION_FILE" ;;
  version_input <~ getenv environ "INPUT_VERSION" ;;
  found <~ lift (Parser.find_version ctx version_file version_input) ;;
  vp <~ parse_found found ;;
  let ctx := {| files := tree self; version := fst vp |} in
  start_line <~ getenv environ "INPUT_START_LINE" ;;
  head_line <~ getenv environ "INPUT_HEAD_LINE" ;;
  fix_issue_regex <~ getenv environ "INPUT_FIX_ISSUE_REGEX" ;;
  fix_issue_repl <~ getenv environ "INPUT_FIX_ISSUE_REPL" ;;
  input_check_ref <~ getenv environ "INPUT_CHECK_REF" ;;
  note <~ lift (Parser.parse (parser self) ctx start_line head_line
                  fix_issue_regex fix_issue_repl (Some input_check_ref)) ;;
  let output :=
    {| Output.version := version ctx;
       Output.pre_release := is_prerelease (snd vp);
       Output.dev_release := is_devrelease (snd vp) |} in
  Output.show output ~~
  output_file <~ getenv environ "INPUT_OUTPUT_FILE" ;;
  write_text output_file note.

(** [main] of [src/main.py]. *)
Definition main (environ : str -> option str) (tree : str -> option str)
  : io nat :=
  controller <~ init environ tree ;;
  start controller environ ~~
  io_ret 0.

End Methods.

End Controller.

(** The release-only versions are neither pre-releases nor development
    releases. *)
#[export] Instance release_flags : ReleaseFlags Release.packaging :=
  {| is_prerelease := fun _ => false; is_devrelease := fun _ => false |}.

Module ProgramExamples.

(** The inputs of a run on [CHANGES.md], the version given directly. *)
Definition inputs (version_input head_line fix_issue_regex fix_issue_repl
  check_ref output_file : str) : list (str * str) :=
  [(lit "INPUT_VERSION_FILE", ([] : str));
   (lit "INPUT_VERSION", version_input);
   (lit "INPUT_CHECK_REF", check_ref);
   (lit "INPUT_CHANGES_FILE", lit "CHANGES.md");
   (lit "INPUT_START_LINE", Examples.start_line);
   (lit "INPUT_HEAD_LINE", head_line);
   (lit "INPUT_FIX_ISSUE_REGEX", fix_issue_regex);
   (lit "INPUT_FIX_ISSUE_REPL", fix_issue_repl);
   (lit "INPUT_NAME", lit "pkg");
   (lit "INPUT_OUTPUT_FILE", output_file)].

Definition environ (inputs : list (str * str)) (name : str) : option str :=
  Format.get inputs name.

Definition tree (name : str) : option str :=
  if Py.str_eqb name "CHANGES.md" then Some Examples.two_sections else None.

(** Every file directly under [root] can be written. *)
Definition disk : Disk :=
  {| writable := fun name =>
                   nonempty name && negb (Py.contains (lit "/") name);
     root_is_a_directory := eq_refl |}.

End ProgramExamples.

(** ** Runs of the programs *)

Section ProgramFacts.
Context {P : Packaging} {F : ReleaseFlags P} {D : Disk}.

(** The three lines [main] and [Output.show] print. *)
Definition output_lines (v : str) (parsed : Version) : list event :=
  [Print (lit "::set-output name=version::" ++ v);
   Print (lit "::set-output name=prerelease::"
          ++ lower_bool (is_prerelease parsed));
   Print (lit "::set-output name=devrelease::"
          ++ lower_bool (is_devrelease parsed))].

(** What a run that returns has done. *)
Definition returned (environ : str -> option str) (tree : str -> option str)
  (extract : Context -> str -> str -> str -> str -> str -> str -> str ->
             result str)
  (tr : list event) (n : nat) : Prop :=
  exists version_file version_input v parsed check_ref changes_file
         start_line head_line fix_issue_regex fix_issue_repl name
         output_file note,
    environ (lit "INPUT_VERSION_FILE") = Some version_file
    /\ environ (lit "INPUT_VERSION") = Some version_input
    /\ environ (lit "INPUT_CHECK_REF") = Some check_ref
    /\ environ (lit "INPUT_CHANGES_FILE") = Some changes_file
    /\ environ (lit "INPUT_START_LINE") = Some start_line
    /\ environ (lit "INPUT_HEAD_LINE") = Some head_line
    /\ environ (lit "INPUT_FIX_ISSUE_REGEX") = Some fix_issue_regex
    /\ environ (lit "INPUT_FIX_ISSUE_REPL") = Some fix_issue_repl
    /\ environ (lit "INPUT_NAME") = Some name
    /\ environ (lit "INPUT_OUTPUT_FILE") = Some output_file
    /\ find_version {| files := tree; version := [] |} version_file
         version_input
       = Ok (Some v)
    /\ parse_version v = Some parsed
    /\ check_head v (Some check_ref) = Ok tt
    /\ extract {| files := tree; version := v |} check_ref changes_file
         start_line head_line fix_issue_regex fix_issue_repl name
       = Ok note
    /\ writable output_file = true
    /\ tr = output_lines v parsed ++ [WriteText output_file note]
    /\ n = 0.

Lemma io_bind_ret :
  forall (A B : Type) (a : A) (f : A -> io B), io_bind (io_ret a) f = f a.
Proof. intros A B a f. unfold io_bind, io_ret. destruct (f a). reflexivity. Qed.

Lemma getenv_some :
  forall (B : Type) environ name v (f : str -> io B),
    environ name = Some v -> io_bind (getenv environ name) f = f v.
Proof.
  intros B environ name v f H. unfold getenv. rewrite H. apply io_bind_ret.
Qed.

Lemma getenv_none :
  forall (B : Type) environ name (f : str -> io B),
    environ name = None ->
    io_bind (getenv environ name) f = ([], Abort (KeyError name)).
Proof. intros B environ name f H. unfold getenv. rewrite H. reflexivity. Qed.

Lemma lift_ok :
  forall (A B : Type) (r : result A) a (f : A -> io B),
    r = Ok a -> io_bind (lift r) f = f a.
Proof. intros A B r a f ->. apply io_bind_ret. Qed.

Lemma lift_raise :
  forall (A B : Type) (r : result A) e (f : A -> io B),
    r = Raise e -> io_bind (lift r) f = ([], Abort (Failed e)).
Proof. intros A B r e f ->. reflexivity. Qed.

Lemma parse_found_ok :
  forall (B : Type) v parsed (f : str * Version -> io B),
    parse_version v = Some parsed ->
    io_bind (parse_found (Some v)) f = f (v, parsed).
Proof.
  intros B v parsed f H. unfold parse_found. rewrite H. apply io_bind_ret.
Qed.

(** The end of both programs: the three lines, the output file name, the
    write. *)
Definition finish (environ : str -> option str) (v : str) (parsed : Version)
  (note : str) : io nat :=
  print (lit "::set-output name=version::" ++ v) ~~
  print (lit "::set-output name=prerelease::"
         ++ lower_bool (is_prerelease parsed)) ~~
  print (lit "::set-output name=devrelease::"
         ++ lower_bool (is_devrelease parsed)) ~~
  output_file <~ getenv environ "INPUT_OUTPUT_FILE" ;;
  write_text output_file note ~~
  io_ret 0.

Lemma finish_run :
  forall environ v parsed note,
    finish environ v parsed note
    = match environ (lit "INPUT_OUTPUT_FILE") with
      | Some output_file =>
          if writable output_file
          then (output_lines v parsed ++ [WriteText output_file note],
                Return 0)
          else (output_lines v parsed, Abort (OSError output_file))
      | None =>
          (output_lines v parsed, Abort (KeyError "INPUT_OUTPUT_FILE"))
      end.
Proof.
  intros environ v parsed note. unfold finish, getenv.
  destruct (environ (lit "INPUT_OUTPUT_FILE")) as [output_file|];
    [|reflexivity].
  unfold print, io_ret, write_text. cbn [io_bind].
  destruct (writable output_file); reflexivity.
Qed.

(** How a run may end: it returns 0 after the three lines and the write;
    or it aborts having printed nothing; or it aborts after the three
    lines, on the missing output file name or on the write that
    failed. *)
Definition run_ends (environ : str -> option str)
  (tree : str -> option str)
  (extract : Context -> str -> str -> str -> str -> str -> str -> str ->
             result str)
  (run : io nat) : Prop :=
  match run with
  | (tr, Return n) => returned environ tree extract tr n
  | (tr, Abort f) =>
      tr = []
      \/ (f = KeyError "INPUT_OUTPUT_FILE"
          /\ environ (lit "INPUT_OUTPUT_FILE") = None
          /\ exists v parsed, tr = output_lines v parsed)
      \/ (exists output_file,
             f = OSError output_file
             /\ environ (lit "INPUT_OUTPUT_FILE") = Some output_file
             /\ writable output_file = false
             /\ exists v parsed, tr = output_lines v parsed)
  end.

Lemma Parser_parse_passed_head :
  forall self ctx start_line head_line fix_issue_regex fix_issue_repl
         input_check_ref note,
    Parser.parse self ctx start_line head_line fix_issue_regex
      fix_issue_repl input_check_ref
    = Ok note ->
    check_head (version ctx) input_check_ref = Ok tt
    /\ nonempty fix_issue_regex = nonempty fix_issue_repl.
Proof.
  intros self ctx sl hl fr fp ref note H. unfold Parser.parse in H.
  destruct (nonempty fr) eqn:Er, (nonempty fp) eqn:Ep;
    cbn [negb andb orb] in H; try discriminate H;
    (split; [|reflexivity]);
    change (Parser.check_head (version ctx) ref)
      with (check_head (version ctx) ref) in H;
    destruct (check_head (version ctx) ref) as [[]|e];
    try reflexivity; discriminate H.
Qed.

Lemma show_then_write :
  forall environ v parsed note,
    io_bind
      (Output.show {| Output.version := v;
                      Output.pre_release := is_prerelease parsed;
                      Output.dev_release := is_devrelease parsed |} ~~
       output_file <~ getenv environ "INPUT_OUTPUT_FILE" ;;
       write_text output_file note)
      (fun _ => io_ret 0)
    = finish environ v parsed note.
Proof.
  intros environ v parsed note. unfold finish, Output.show, getenv.
  destruct (environ (lit "INPUT_OUTPUT_FILE")) as [output_file|];
    [|reflexivity].
  unfold print, io_ret, write_text. cbn [io_bind].
  destruct (writable output_file); reflexivity.
Qed.

End ProgramFacts.

Ltac quiet := cbn [io_bind run_ends]; left; reflexivity.

Ltac env_step x H :=
  match goal with
  | |- context [io_bind (getenv ?e ?name) ?f] =>
      destruct (e name) as [x|] eqn:H;
      [rewrite (getenv_some _ e name _ f H)
      |rewrite (getenv_none _ e name f H); quiet]
  end.

Ltac lift_step x H :=
  match goal with
  | |- context [io_bind (lift ?r) ?f] =>
      destruct r as [x|] eqn:H;
      [rewrite (lift_ok _ _ _ _ f eq_refl)
      |rewrite (lift_raise _ _ _ _ f eq_refl); quiet]
  end.

(** A run that returns has written to a path that can be written, so not
    to the empty name. *)
Lemma run_ends_named :
  forall (P : Packaging) (F : ReleaseFlags P) (D : Disk) environ tree
         extract run,
    run_ends environ tree extract run ->
    environ (lit "INPUT_OUTPUT_FILE") = Some [] ->
    forall tr n, run <> (tr, Return n).
Proof.
  intros P F D environ tree extract run H Hout tr n ->.
  cbn [run_ends] in H. unfold returned in H.
  destruct H as (vf & vi & v & parsed & ref & cf & sl & hl & fr & fp & nm
                 & out & note & _ & _ & _ & _ & _ & _ & _ & _ & _ & E10 & _
                 & _ & _ & _ & W & _).
  rewrite Hout in E10. injection E10 as <-.
  rewrite root_is_a_directory in W. discriminate W.
Qed.

(** X8.  Every run of [main] of [src/src/main.py] ends in one of four
    ways.  It returns 0: then all ten inputs were set, the version was
    found and parsed, the git ref and the changelog passed their checks,
    the output file could be written, and the run printed the three output
    lines and then wrote the note to the output file, and nothing else.
    Or it aborts having printed and written nothing.  Or
    [INPUT_OUTPUT_FILE] is not set: then it aborts with [KeyError] after
    the three lines.  Or the output file cannot be written: then it aborts
    with [OSError] after the three lines, no write completed.  With an
    empty [INPUT_OUTPUT_FILE] no run returns. *)
Theorem main_run_ends :
  forall (P : Packaging) (F : ReleaseFlags P) (D : Disk) environ tree,
    run_ends environ tree
      (fun ctx _ changes_file start_line head_line fix_issue_regex
           fix_issue_repl name =>
         parse_changes ctx changes_file start_line head_line fix_issue_regex
           fix_issue_repl name)
      (main environ tree)
    /\ (environ (lit "INPUT_OUTPUT_FILE") = Some [] ->
        forall tr n, main environ tree <> (tr, Return n)).
Proof.
  intros P F D environ tree.
  assert (H : run_ends environ tree
                (fun ctx _ changes_file start_line head_line fix_issue_regex
                     fix_issue_repl name =>
                   parse_changes ctx changes_file start_line head_line
                     fix_issue_regex fix_issue_repl name)
                (main environ tree)).
  { unfold main.
    env_step vf E1. env_step vi E2. lift_step found Hfind.
    destruct found as [v|]; [|quiet].
    destruct (parse_version v) as [parsed|] eqn:Hparse;
      [rewrite (parse_found_ok _ v parsed _ Hparse)
      |unfold parse_found; rewrite Hparse; quiet].
    cbn [fst snd version].
    env_step ref E3. lift_step u Hhead. destruct u.
    env_step cf E4. env_step sl E5. env_step hl E6. env_step fr E7.
    env_step fp E8. env_step nm E9. lift_step note Hnote.
    change (run_ends environ tree
              (fun ctx _ changes_file start_line head_line fix_issue_regex
                   fix_issue_repl name =>
                 parse_changes ctx changes_file start_line head_line
                   fix_issue_regex fix_issue_repl name)
              (finish environ v parsed note)).
    rewrite finish_run.
    destruct (environ (lit "INPUT_OUTPUT_FILE")) as [out|] eqn:E10;
      [destruct (writable out) eqn:W|]; cbn [run_ends].
    - unfold returned.
      exists vf, vi, v, parsed, ref, cf, sl, hl, fr, fp, nm, out, note.
      repeat (split; [assumption || reflexivity|]). reflexivity.
    - right. right. exists out. split; [reflexivity|].
      split; [exact E10|]. split; [exact W|].
      exists v, parsed. reflexivity.
    - right. left. split; [reflexivity|]. split; [exact E10|].
      exists v, parsed. reflexivity. }
  split; [exact H|].
  exact (run_ends_named P F D environ tree _ _ H).
Qed.

Lemma main_run_ends_witness :
  exists tr f,
    main (P := Release.packaging) (D := ProgramExamples.disk)
      (ProgramExamples.environ
         (ProgramExamples.inputs "1.2.3" Examples.head_line [] [] []
            []))
      ProgramExamples.tree
    = (tr, Abort f).
Proof.
  assert (Hout : ProgramExamples.environ
                   (ProgramExamples.inputs "1.2.3" Examples.head_line
                      [] [] [] [])
                   (lit "INPUT_OUTPUT_FILE")
                 = Some [])
    by (vm_compute; reflexivity).
  pose proof (proj2 (main_run_ends Release.packaging release_flags
                       ProgramExamples.disk
                       (ProgramExamples.environ
                          (ProgramExamples.inputs "1.2.3"
                             Examples.head_line [] [] [] []))
                       ProgramExamples.tree)
                Hout)
    as H.
  destruct (main (P := Release.packaging) (D := ProgramExamples.disk)
              (ProgramExamples.environ
                 (ProgramExamples.inputs "1.2.3" Examples.head_line
                    [] [] [] []))
              ProgramExamples.tree)
    as [tr [n|f]].
  - exfalso. exact (H tr n eq_refl).
  - exists tr, f. reflexivity.
Defined.

(** X9.  Every run of [main] of [src/main.py] ends in the same four
    ways: it returns 0 after the checks of [Parser.parse], the three
    lines of [Output.show] and the write to an output file that could be
    written; or it aborts having printed and written nothing; or it aborts
    with [KeyError] on the missing [INPUT_OUTPUT_FILE] after the three
    lines; or it aborts with [OSError] after the three lines because the
    output file cannot be written.  With an empty [INPUT_OUTPUT_FILE] no
    run returns. *)
Theorem Controller_main_run_ends :
  forall (P : Packaging) (F : ReleaseFlags P) (D : Disk) environ tree,
    run_ends environ tree
      (fun ctx check_ref changes_file start_line head_line fix_issue_regex
           fix_issue_repl name =>
         Parser.parse
           {| Parser.changes_file := changes_file; Parser.name := name |}
           ctx start_line head_line fix_issue_regex fix_issue_repl
           (Some check_ref))
      (Controller.main environ tree)
    /\ (environ (lit "INPUT_OUTPUT_FILE") = Some [] ->
        forall tr n, Controller.main environ tree <> (tr, Return n)).
Proof.
  intros P F D environ tree.
  assert (H : run_ends environ tree
                (fun ctx check_ref changes_file start_line head_line
                     fix_issue_regex fix_issue_repl name =>
                   Parser.parse
                     {| Parser.changes_file := changes_file;
                        Parser.name := name |}
                     ctx start_line head_line fix_issue_regex fix_issue_repl
                     (Some check_ref))
                (Controller.main environ tree)).
  { unfold Controller.main, Controller.init.
    env_step cf E4. env_step nm E9. rewrite io_bind_ret.
    unfold Controller.start. cbn [Controller.tree Controller.parser].
    env_step vf E1. env_step vi E2. lift_step found Hfind.
    destruct found as [v|]; [|quiet].
    destruct (parse_version v) as [parsed|] eqn:Hparse;
      [rewrite (parse_found_ok _ v parsed _ Hparse)
      |unfold parse_found; rewrite Hparse; quiet].
    cbn [fst snd version].
    env_step sl E5. env_step hl E6. env_step fr E7. env_step fp E8.
    env_step ref E3. lift_step note Hnote.
    rewrite show_then_write, finish_run.
    destruct (environ (lit "INPUT_OUTPUT_FILE")) as [out|] eqn:E10;
      [destruct (writable out) eqn:W|]; cbn [run_ends].
    - unfold returned.
      destruct (Parser_parse_passed_head _ _ _ _ _ _ _ _ Hnote)
        as [Hhead _].
      exists vf, vi, v, parsed, ref, cf, sl, hl, fr, fp, nm, out, note.
      repeat (split; [assumption || reflexivity|]). reflexivity.
    - right. right. exists out. split; [reflexivity|].
      split; [exact E10|]. split; [exact W|].
      exists v, parsed. reflexivity.
    - right. left. split; [reflexivity|]. split; [exact E10|].
      exists v, parsed. reflexivity. }
  split; [exact H|].
  exact (run_ends_named P F D environ tree _ _ H).
Qed.

Lemma Controller_main_run_ends_witness :
  exists tr f,
    Controller.main (P := Release.packaging) (D := ProgramExamples.disk)
      (ProgramExamples.environ
         (ProgramExamples.inputs "1.2.3" Examples.Parser_head_line [] [] []
            []))
      ProgramExamples.tree
    = (tr, Abort f).
Proof.
  assert (Hout : ProgramExamples.environ
                   (ProgramExamples.inputs "1.2.3"
                      Examples.Parser_head_line [] [] [] [])
                   (lit "INPUT_OUTPUT_FILE")
                 = Some [])
    by (vm_compute; reflexivity).
  pose proof (proj2 (Controller_main_run_ends Release.packaging
                       release_flags ProgramExamples.disk
                       (ProgramExamples.environ
                          (ProgramExamples.inputs "1.2.3"
                             Examples.Parser_head_line [] [] [] []))
                       ProgramExamples.tree)
                Hout)
    as H.
  destruct (Controller.main (P := Release.packaging)
              (D := ProgramExamples.disk)
              (ProgramExamples.environ
                 (ProgramExamples.inputs "1.2.3"
                    Examples.Parser_head_line [] [] [] []))
              ProgramExamples.tree)
    as [tr [n|f]].
  - exfalso. exact (H tr n eq_refl).
  - exists tr, f. reflexivity.
Defined.

(** ** What a returned note tells *)

Section Inversion.
Context {P : Packaging}.

(** The note made of the section body: trimmed, after the issue rewrite
    when one is set. *)
Definition note_of (fix_issue_regex fix_issue_repl body note : str) : Prop :=
  exists text,
    note = Py.strip text
    /\ if nonempty fix_issue_regex
       then re.sub fix_issue_regex fix_issue_repl body = Some text
       else text = body.

(** The checks behind a note: the heading pattern compiles, it matches at
    the start of [msg], and its version group is the declared text. *)
Definition passed (vfield msg declared head_line fix_issue_regex
  fix_issue_repl name note : str) : Prop :=
  exists src head_re m,
    Format.format head_line (heading_kwargs vfield name) = Some src
    /\ re.compile src true = Some head_re
    /\ re.match_ head_re msg = Some m
    /\ re.group_named head_re m "version" = Some (Some declared)
    /\ note_of fix_issue_regex fix_issue_repl (section_body head_re msg m)
         note.

Lemma check_changes_version_ok :
  forall declared found changes_file,
    check_changes_version declared found changes_file = Ok tt ->
    found = Some declared.
Proof.
  intros d found cf H. unfold check_changes_version in H.
  destruct found as [f|].
  - destruct (Py.str_eqb d f) eqn:E.
    + apply str_eqb_eq in E. congruence.
    + destruct (parse_version d); [|discriminate H].
      destruct (parse_version f); [|discriminate H].
      destruct (lt _ _); discriminate H.
  - destruct (parse_version d); discriminate H.
Qed.

Lemma extract_from_ok :
  forall vfield msg changes_file declared head_line fix_issue_regex
         fix_issue_repl name note,
    extract_from vfield msg changes_file declared head_line fix_issue_regex
      fix_issue_repl name
    = Ok note ->
    passed vfield msg declared head_line fix_issue_regex fix_issue_repl name
      note.
Proof.
  intros vf msg cf d hl fr fp nm note H. unfold extract_from in H.
  destruct (Format.format hl _) as [src|] eqn:Hf; [|discriminate H].
  destruct (re.compile src true) as [head_re|] eqn:Hc; [|discriminate H].
  destruct (re.match_ head_re msg) as [m|] eqn:Hm; [|discriminate H].
  destruct (re.group_named head_re m _) as [found|] eqn:Hg;
    [|discriminate H].
  destruct (check_changes_version d found cf) as [[]|e] eqn:Hv;
    [|discriminate H].
  apply check_changes_version_ok in Hv. subst found. cbn [bind] in H.
  exists src, head_re, m. repeat (split; [assumption|]).
  unfold note_of. destruct (nonempty fr).
  - destruct (re.sub fr fp _) as [text|]; [|discriminate H].
    injection H as <-. exists text. split; reflexivity.
  - injection H as <-. eexists. split; reflexivity.
Qed.

Lemma parse_changes_ok :
  forall changes changes_file declared start_line head_line fix_issue_regex
         fix_issue_repl name note,
    _parse_changes changes changes_file declared start_line head_line
      fix_issue_regex fix_issue_repl name
    = Ok note ->
    start_line <> []
    /\ exists before after,
        first_occurrence changes start_line before after
        /\ passed version_field (Py.strip after) declared head_line
             fix_issue_regex fix_issue_repl name note.
Proof.
  intros changes cf d sl hl fr fp nm note H.
  assert (Hne : sl <> []).
  { intros ->. discriminate H. }
  split; [exact Hne|].
  destruct (Py.split_first sl changes) as [[b a]|] eqn:E.
  - apply split_first_sound in E. exists b, a. split; [exact E|].
    rewrite (parse_changes_from_remainder changes cf d sl hl fr fp nm b a
               Hne E) in H.
    apply extract_from_ok in H. exact H.
  - exfalso. apply split_first_none in E.
    rewrite (parse_changes_no_mark changes cf d sl hl fr fp nm E) in H.
    discriminate H.
Qed.

Lemma Parser_parse_ok :
  forall self ctx start_line head_line fix_issue_regex fix_issue_repl
         input_check_ref note,
    Parser.parse self ctx start_line head_line fix_issue_regex
      fix_issue_repl input_check_ref
    = Ok note ->
    nonempty fix_issue_regex = nonempty fix_issue_repl
    /\ check_head (version ctx) input_check_ref = Ok tt
    /\ start_line <> []
    /\ exists changes before after,
        files ctx (Parser.changes_file self) = Some changes
        /\ first_occurrence changes start_line before after
        /\ passed bracketed_version_field (Py.strip after) (version ctx)
             head_line fix_issue_regex fix_issue_repl (Parser.name self)
             note.
Proof.
  intros self ctx sl hl fr fp ref note H.
  assert (Hfix : nonempty fr = nonempty fp).
  { unfold Parser.parse in H.
    destruct (nonempty fr), (nonempty fp); try reflexivity;
      discriminate H. }
  assert (Hhead : check_head (version ctx) ref = Ok tt).
  { unfold Parser.parse in H.
    destruct (nonempty fr && negb (nonempty fp)
              || negb (nonempty fr) && nonempty fp); [discriminate H|].
    change (Parser.check_head (version ctx) ref)
      with (check_head (version ctx) ref) in H.
    destruct (check_head (version ctx) ref) as [[]|e];
      [reflexivity | discriminate H]. }
  split; [exact Hfix|]. split; [exact Hhead|].
  destruct (files ctx (Parser.changes_file self)) as [changes|] eqn:Hfile.
  - assert (Hne : sl <> []).
    { intros ->. unfold Parser.parse in H.
      destruct (nonempty fr && negb (nonempty fp)
                || negb (nonempty fr) && nonempty fp); [discriminate H|].
      change (Parser.check_head (version ctx) ref)
        with (check_head (version ctx) ref) in H.
      rewrite Hhead in H. unfold read_file in H. rewrite Hfile in H.
      discriminate H. }
    split; [exact Hne|].
    destruct (Py.split_first sl changes) as [[b a]|] eqn:E.
    + apply split_first_sound in E. exists changes, b, a.
      split; [reflexivity|]. split; [exact E|].
      rewrite (Parser_parse_from_remainder self ctx sl hl fr fp ref changes
                 b a Hfix Hhead Hfile Hne E) in H.
      apply extract_from_ok in H. exact H.
    + exfalso. apply split_first_none in E.
      rewrite (Parser_parse_no_mark self ctx sl hl fr fp ref changes Hfix
                 Hhead Hfile E) in H.
      discriminate H.
  - exfalso. unfold Parser.parse in H.
    destruct (nonempty fr && negb (nonempty fp)
              || negb (nonempty fr) && nonempty fp); [discriminate H|].
    change (Parser.check_head (version ctx) ref)
      with (check_head (version ctx) ref) in H.
    rewrite Hhead in H. unfold read_file in H. rewrite Hfile in H.
    discriminate H.
Qed.

End Inversion.

(** ** More on trimming *)

Section TrimMore.

Lemma lstrip_fixed :
  forall s,
    (forall c t, s = c :: t -> Py.isspace c = false) -> Py.lstrip s = s.
Proof.
  intros [|c s] H; [reflexivity|]. simpl.
  rewrite (H c s eq_refl). reflexivity.
Qed.

Lemma rstrip_fixed :
  forall s,
    (forall c t, s = t ++ [c] -> Py.isspace c = false) -> Py.rstrip s = s.
Proof.
  intros s H. unfold Py.rstrip. rewrite lstrip_fixed.
  - apply rev_involutive.
  - intros c t E. apply (H c (rev t)).
    rewrite <- (rev_involutive s), E. reflexivity.
Qed.

Lemma strip_idempotent : forall s, Py.strip (Py.strip s) = Py.strip s.
Proof.
  intro s. destruct (strip_spec s) as (l & r & _ & _ & _ & Hhead & Hlast).
  unfold Py.strip at 1.
  rewrite (lstrip_fixed _ Hhead). apply rstrip_fixed. exact Hlast.
Qed.

Lemma lstrip_whitespace :
  forall ws s, whitespace ws -> Py.lstrip (ws ++ s) = Py.lstrip s.
Proof.
  intros ws s H. induction H as [|c ws Hc _ IH]; [reflexivity|].
  simpl. rewrite Hc. exact IH.
Qed.

Lemma lstrip_all_whitespace :
  forall ws, whitespace ws -> Py.lstrip ws = [].
Proof.
  intros ws H. rewrite <- (app_nil_r ws).
  rewrite lstrip_whitespace by exact H. reflexivity.
Qed.

Lemma rstrip_whitespace :
  forall s ws, whitespace ws -> Py.rstrip (s ++ ws) = Py.rstrip s.
Proof.
  intros s ws H. unfold Py.rstrip.
  rewrite rev_app_distr, lstrip_whitespace; [reflexivity|].
  apply Forall_rev. exact H.
Qed.

Lemma lstrip_app :
  forall s ws,
    whitespace ws ->
    Py.lstrip (s ++ ws) = Py.lstrip s ++ ws
    \/ Py.lstrip s = [] /\ Py.lstrip (s ++ ws) = [].
Proof.
  intros s ws H. induction s as [|c s IH].
  - right. split; [reflexivity|]. apply lstrip_all_whitespace. exact H.
  - simpl. destruct (Py.isspace c); [exact IH|]. left. reflexivity.
Qed.

(** Whitespace around a text does not change what [strip] leaves. *)
Lemma strip_whitespace :
  forall ws s ws',
    whitespace ws -> whitespace ws' ->
    Py.strip (ws ++ s ++ ws') = Py.strip s.
Proof.
  intros ws s ws' H H'. unfold Py.strip.
  rewrite lstrip_whitespace by exact H.
  destruct (lstrip_app s ws' H') as [-> | [E ->]].
  - apply rstrip_whitespace. exact H'.
  - rewrite E. reflexivity.
Qed.

(** A slice, a tail and a trimmed text lie inside the text. *)
Lemma slice_inside :
  forall (s : str) a b, exists x y, s = x ++ Py.slice s a b ++ y.
Proof.
  intros s a b. unfold Py.slice.
  exists (firstn a s), (skipn (b - a) (skipn a s)).
  rewrite firstn_skipn, firstn_skipn. reflexivity.
Qed.

Lemma slice_from_inside :
  forall (s : str) a, exists x, s = x ++ Py.slice_from s a.
Proof.
  intros s a. exists (firstn a s). unfold Py.slice_from.
  rewrite firstn_skipn. reflexivity.
Qed.

Lemma strip_inside : forall s, exists x y, s = x ++ Py.strip s ++ y.
Proof.
  intro s. destruct (strip_spec s) as (l & r & H & _). exists l, r. exact H.
Qed.

End TrimMore.

(** ** Reading a match backwards *)

Module Unwind.
Import Re.
Import ReFacts.

Lemma chr_inv :
  forall ml c cur cs k res,
    rmatch ml (Chr c) cur cs k = Some res ->
    exists s, rest cur = c :: s /\ k (next c s cur) cs = Some res.
Proof.
  intros ml c cur cs k res H. cbn [rmatch] in H.
  destruct (rest cur) as [|x s]; [discriminate H|].
  destruct (Ascii.eqb x c) eqn:E; [|discriminate H].
  apply Ascii.eqb_eq in E. subst x. exists s. auto.
Qed.

Lemma class_inv :
  forall ml neg items cur cs k res,
    rmatch ml (Class neg items) cur cs k = Some res ->
    exists x s,
      rest cur = x :: s /\ class_matches neg items x = true
      /\ k (next x s cur) cs = Some res.
Proof.
  intros ml neg items cur cs k res H. cbn [rmatch] in H.
  destruct (rest cur) as [|x s]; [discriminate H|].
  destruct (class_matches neg items x) eqn:E; [|discriminate H].
  exists x, s. auto.
Qed.

Lemma bol_inv :
  forall ml cur cs k res,
    rmatch ml Bol cur cs k = Some res ->
    at_bol ml cur = true /\ k cur cs = Some res.
Proof.
  intros ml cur cs k res H. cbn [rmatch] in H.
  destruct (at_bol ml cur); [auto | discriminate H].
Qed.

Lemma alt_inv :
  forall ml r1 r2 cur cs k res,
    rmatch ml (Alt r1 r2) cur cs k = Some res ->
    rmatch ml r1 cur cs k = Some res \/ rmatch ml r2 cur cs k = Some res.
Proof.
  intros ml r1 r2 cur cs k res H. cbn [rmatch] in H.
  destruct (rmatch ml r1 cur cs k); [left | right]; exact H.
Qed.

Lemma backref_inv :
  forall ml i cur cs k res a b t,
    lookup i cs = Some (a, b, t) ->
    rmatch ml (Backref i) cur cs k = Some res ->
    exists u, rest cur = t ++ u /\ k (after cur t u) cs = Some res.
Proof.
  intros ml i cur cs k res a b t Hl H. cbn [rmatch] in H.
  rewrite Hl in H.
  destruct (Py.startswith t (rest cur)) eqn:E; [|discriminate H].
  apply startswith_inv in E. destruct E as [u E]. exists u.
  split; [exact E|]. rewrite E, seek_after in H.
  destruct cur as [p s n]. simpl in E. subst s. exact H.
Qed.

(** A greedy repeat over single code points took a run of them. *)
Lemma repeat_inv :
  forall (body : cursor -> caps -> cont -> outcome) (ok : ascii -> bool)
         (cs : caps),
    (forall cur x s k,
        rest cur = x :: s ->
        body cur cs k = if ok x then k (next x s cur) cs else None) ->
    (forall cur k, rest cur = [] -> body cur cs k = None) ->
    forall n k cur res,
      repeat body k n cur cs = Some res ->
      exists t u,
        rest cur = t ++ u /\ Forall (fun c => ok c = true) t
        /\ k (after cur t u) cs = Some res.
Proof.
  intros body ok cs Hstep Hend.
  assert (Hstop : forall (k : cont) cur (res : cursor * caps),
             k cur cs = Some res ->
             exists t u,
               rest cur = t ++ u /\ Forall (fun c => ok c = true) t
               /\ k (after cur t u) cs = Some res).
  { intros k cur res H. exists [], (rest cur).
    rewrite after_nil. auto. }
  induction n as [|n IH]; intros k cur res H; cbn [repeat] in H.
  - apply Hstop. exact H.
  - destruct (rest cur) as [|x s] eqn:Hr.
    + rewrite (Hend cur _ Hr) in H. apply Hstop in H.
      rewrite Hr in H. exact H.
    + rewrite (Hstep cur x s _ Hr) in H.
      destruct (ok x) eqn:Hx.
      * replace (pos (next x s cur) =? pos cur) with false in H
          by (symmetry; apply Nat.eqb_neq; simpl; lia).
        destruct (repeat body k n (next x s cur) cs) as [r|] eqn:E.
        -- injection H as ->. apply IH in E.
           destruct E as (t & u & Ht & Hok & Hk). cbn [rest next] in Ht.
           exists (x :: t), u. split; [rewrite Ht; reflexivity|].
           split; [constructor; assumption|].
           rewrite <- after_one with (cur := cur) (s := s) in Hk.
           rewrite after_after in Hk. exact Hk.
        -- apply Hstop in H. rewrite Hr in H. exact H.
      * apply Hstop in H. rewrite Hr in H. exact H.
Qed.

(** A search result is a match at the first index where there is one. *)
Lemma scan_inv :
  forall ml r s p n m,
    scan ml r false p s n = Some m ->
    exists pre rest0,
      s = pre ++ rest0
      /\ match_at ml r false
           (after {| prev := p; rest := s; pos := n |} pre rest0)
         = Some m
      /\ forall i, i < length pre ->
                   match_at ml r false (seek p s n i) = None.
Proof.
  intros ml r. induction s as [|c s IH]; intros p n m H; cbn [scan] in H.
  - destruct (match_at ml r false _) as [m'|] eqn:E; [|discriminate H].
    injection H as ->. exists [], []. split; [reflexivity|].
    split; [exact E | intros i Hi; simpl in Hi; lia].
  - destruct (match_at ml r false _) as [m'|] eqn:E.
    + injection H as ->. exists [], (c :: s). split; [reflexivity|].
      split; [exact E | intros i Hi; simpl in Hi; lia].
    + apply IH in H. destruct H as (pre & rest0 & -> & Hm & Hno).
      exists (c :: pre), rest0. split; [reflexivity|]. split.
      * replace (after {| prev := p; rest := c :: pre ++ rest0; pos := n |}
                   (c :: pre) rest0)
          with (after {| prev := Some c; rest := pre ++ rest0; pos := S n |}
                  pre rest0); [exact Hm|].
        unfold after. cbn [prev pos rev]. f_equal.
        -- destruct (rev pre); reflexivity.
        -- simpl. lia.
      * intros [|i] Hi; [exact E|]. apply Hno. simpl in Hi. lia.
Qed.

End Unwind.

(** ** What [VERSION_RE] finds *)

Section AssignmentFound.
Import Re.
Import ReFacts.
Import Unwind.

Lemma seq_chr_inv :
  forall ml c r cur cs k res,
    rmatch ml (Seq (Chr c) r) cur cs k = Some res ->
    exists s, rest cur = c :: s /\ rmatch ml r (next c s cur) cs k = Some res.
Proof.
  intros ml c r cur cs k res H.
  change (rmatch ml (Chr c) cur cs
            (fun cur' cs' => rmatch ml r cur' cs' k) = Some res) in H.
  apply chr_inv in H. exact H.
Qed.

Ltac unwind_literal H :=
  repeat (apply seq_chr_inv in H;
          let s := fresh "s" in
          let E := fresh "E" in
          destruct H as (s & E & H); cbn [rest next] in E);
  apply chr_inv in H;
  let s := fresh "s" in
  let E := fresh "E" in
  destruct H as (s & E & H); cbn [rest next] in E; subst.

Lemma key_inv :
  forall cur cs k res,
    rmatch true key_names cur cs k = Some res ->
    exists key u cur1,
      (key = lit "__version__" \/ key = lit "version")
      /\ rest cur = key ++ u /\ rest cur1 = u /\ k cur1 cs = Some res.
Proof.
  intros cur cs k res H. unfold key_names in H.
  apply alt_inv in H. destruct H as [H | H].
  - unwind_literal H.
    eexists (lit "__version__"), _, _.
    split; [left; reflexivity|]. split; [exact E|].
    split; [|exact H]. reflexivity.
  - unwind_literal H.
    eexists (lit "version"), _, _.
    split; [right; reflexivity|]. split; [exact E|].
    split; [|exact H]. reflexivity.
Qed.

Lemma spaces_inv :
  forall cur cs k res,
    rmatch true (Star space) cur cs k = Some res ->
    exists t u,
      rest cur = t ++ u /\ Forall (fun c => is_space_char c = true) t
      /\ k (after cur t u) cs = Some res.
Proof.
  intros cur cs k res H. cbn [rmatch] in H.
  exact (repeat_inv (rmatch true space) is_space_char cs (space_step cs)
           (space_end cs) _ k cur res H).
Qed.

Lemma quote_char :
  forall x,
    class_matches false [CChar double_quote; CChar "'"] x = true ->
    x = double_quote \/ x = "'"%char.
Proof.
  intros x H. unfold class_matches in H. cbn [existsb item_matches xorb] in H.
  rewrite orb_false_r in H. apply orb_true_iff in H.
  destruct H as [H | H]; apply Ascii.eqb_eq in H; auto.
Qed.

Lemma quoted_inv :
  forall cur cs k res,
    rmatch true quoted cur cs k = Some res ->
    exists q v post cur' a b cs',
      rest cur = [q] ++ v ++ [q] ++ post
      /\ (q = double_quote \/ q = "'"%char)
      /\ Forall (fun c => is_unquoted q c = true) v
      /\ k cur' ((2, (a, b, v)) :: cs') = Some res.
Proof.
  intros cur cs k res H. unfold quoted in H.
  change (rmatch true quote cur cs
            (fun cur' cs' =>
               rmatch true (Seq value (Backref 1)) cur' cs' k) = Some res)
    in H.
  unfold quote in H. apply group_sound in H.
  destruct H as (t & u & cs1 & Hr & Hd & H).
  cbn [denote] in Hd. destruct Hd as (q & -> & Hq).
  apply quote_char in Hq.
  set (caps1 := (1, (pos cur, length [q] + pos cur, [q])) :: cs1) in H.
  assert (L1 : lookup 1 caps1 = Some (pos cur, length [q] + pos cur, [q]))
    by reflexivity.
  change (rmatch true value (after cur [q] u) caps1
            (fun cur' cs' => rmatch true (Backref 1) cur' cs' k) = Some res)
    in H.
  unfold value in H. cbn [rmatch] in H.
  apply (repeat_inv (rmatch true unquoted) (is_unquoted q) caps1
           (fun c x s k0 => unquoted_step q _ _ caps1 c x s k0 L1)
           (fun c k0 => unquoted_end q _ _ caps1 c k0 L1)) in H.
  destruct H as (v & w & Hv & Hok & H). cbn [after rest] in Hv. subst u.
  set (cur1 := after cur [q] (v ++ w)) in *.
  set (cur2 := after cur1 v w) in *.
  set (caps2 := (2, (pos cur1, pos cur2,
                     firstn (pos cur2 - pos cur1) (rest cur1))) :: caps1)
    in H.
  assert (L2 : lookup 1 caps2 = Some (pos cur, length [q] + pos cur, [q]))
    by reflexivity.
  apply (backref_inv true 1 cur2 caps2 k res _ _ _ L2) in H.
  destruct H as (post & Hw & H). unfold cur2 in Hw.
  cbn [after rest] in Hw. subst w.
  exists q, v, post, (after cur2 [q] post), (pos cur1), (pos cur2), caps1.
  split; [exact Hr|]. split; [exact Hq|]. split; [exact Hok|].
  assert (Ev : firstn (pos cur2 - pos cur1) (rest cur1) = v).
  { unfold cur2, cur1. cbn [after pos rest].
    rewrite Nat.add_sub, firstn_app, Nat.sub_diag, firstn_all.
    simpl. rewrite app_nil_r. reflexivity. }
  unfold caps2 in H. rewrite Ev in H. exact H.
Qed.

(** The shape of a version assignment: the name, spaces, [=], spaces and
    the value [v] between two quotes [q]. *)
Definition assignment (line key s1 s2 : str) (q : ascii) (v post : str)
  : Prop :=
  line = key ++ s1 ++ lit "=" ++ s2 ++ [q] ++ v ++ [q] ++ post
  /\ (key = lit "__version__" \/ key = lit "version")
  /\ Forall (fun c => is_space_char c = true) s1
  /\ Forall (fun c => is_space_char c = true) s2
  /\ (q = double_quote \/ q = "'"%char)
  /\ Forall (fun c => is_unquoted q c = true) v.

Lemma assignment_inv :
  forall p s n m,
    match_at true version_assignment false
      {| prev := p; rest := s; pos := n |}
    = Some m ->
    (p = None \/ p = Some newline)
    /\ exists key s1 s2 q v post,
        assignment s key s1 s2 q v post /\ re.group m 2 = Some v.
Proof.
  intros p s n m H. unfold match_at in H.
  destruct (rmatch true version_assignment _ [] _) as [[cur' cs]|] eqn:E;
    [|discriminate H].
  injection H as <-. unfold version_assignment in E.
  change (rmatch true Bol {| prev := p; rest := s; pos := n |} []
            (fun c1 cs1 =>
               rmatch true key_names c1 cs1
                 (fun c2 cs2 =>
                    rmatch true (Star space) c2 cs2
                      (fun c3 cs3 =>
                         rmatch true (Chr "=") c3 cs3
                           (fun c4 cs4 =>
                              rmatch true (Star space) c4 cs4
                                (fun c5 cs5 =>
                                   rmatch true quoted c5 cs5
                                     (accept false n))))))
          = Some (cur', cs)) in E.
  apply bol_inv in E. destruct E as [Hbol E]. split.
  { unfold at_bol in Hbol. cbn [prev] in Hbol.
    destruct p as [c|]; [right | left; reflexivity].
    cbn [andb] in Hbol. apply Ascii.eqb_eq in Hbol. congruence. }
  apply key_inv in E.
  destruct E as (key & u & cur1 & Hkey & Hs & Hu & E). cbn [rest] in Hs.
  apply spaces_inv in E. destruct E as (s1 & u1 & H1 & Hs1 & E).
  apply chr_inv in E. destruct E as (u2 & H2 & E). cbn [after rest] in H2.
  apply spaces_inv in E. destruct E as (s2 & u3 & H3 & Hs2 & E).
  cbn [next rest] in H3.
  apply quoted_inv in E.
  destruct E as (q & v & post & cur5 & a & b & cs' & H4 & Hq & Hv & E).
  cbn [after rest] in H4.
  unfold accept in E. cbn [andb] in E. injection E as _ <-.
  exists key, s1, s2, q, v, post. split; [|reflexivity].
  unfold assignment.
  split; [rewrite Hs, <- Hu, H1, H2, H3, H4; reflexivity|].
  repeat (split; [assumption|]). assumption.
Qed.

End AssignmentFound.

(** The first version assignment of a file: an assignment that starts a
    line, with no match of [VERSION_RE] before it. *)
Definition first_assignment (text v : str) : Prop :=
  exists pre line key s1 s2 q post,
    text = pre ++ line
    /\ (pre = [] \/ exists pre0, pre = pre0 ++ [Re.newline])
    /\ assignment line key s1 s2 q v post
    /\ forall i,
        i < length pre ->
        Re.match_at true version_assignment false (Re.cursor_at text i)
        = None.

Lemma spaces_all :
  forall s, Forall (fun c => is_space_char c = true) s ->
            s = spaces (length s).
Proof.
  intros s H. induction H as [|c s Hc _ IH]; [reflexivity|].
  apply Ascii.eqb_eq in Hc. subst c.
  change (spaces (length (" "%char :: s)))
    with (" "%char :: spaces (length s)).
  rewrite <- IH. reflexivity.
Qed.

Lemma unquoted_all :
  forall q v,
    Forall (fun c => is_unquoted q c = true) v ->
    ~ In q v /\ ~ In Re.newline v.
Proof.
  intros q v H. rewrite Forall_forall in H.
  split; intro Hin; apply H in Hin; unfold is_unquoted in Hin;
    rewrite Ascii.eqb_refl in Hin;
    [discriminate Hin | rewrite andb_false_r in Hin; discriminate Hin].
Qed.

Lemma line_start :
  forall (pre rest0 : str) n,
    let p := Re.prev (ReFacts.after
                        {| Re.prev := None; Re.rest := pre ++ rest0;
                           Re.pos := n |} pre rest0) in
    (p = None \/ p = Some Re.newline)
    <-> (pre = [] \/ exists pre0, pre = pre0 ++ [Re.newline]).
Proof.
  intros pre rest0 n. unfold ReFacts.after. cbn [Re.prev].
  destruct (rev pre) as [|x l] eqn:E.
  - apply (f_equal (@rev ascii)) in E. rewrite rev_involutive in E.
    subst pre. split; intros _; left; reflexivity.
  - apply (f_equal (@rev ascii)) in E. rewrite rev_involutive in E.
    simpl in E. subst pre. split.
    + intros [H | H]; [discriminate H|]. injection H as ->.
      right. exists (rev l). reflexivity.
    + intros [H | (pre0 & H)].
      * destruct (rev l); discriminate H.
      * apply app_inj_tail in H. destruct H as [_ ->]. right. reflexivity.
Qed.

Lemma search_version :
  forall pat text m,
    re.prog pat = version_assignment -> re.multiline pat = true ->
    re.search pat text 0 = Some m ->
    exists v, re.group m 2 = Some v /\ first_assignment text v.
Proof.
  intros pat text m Hprog Hml H.
  unfold re.search, re.search_from in H. rewrite Hprog, Hml in H.
  replace (Re.cursor_at text 0)
    with {| Re.prev := None; Re.rest := text; Re.pos := 0 |} in H
    by (unfold Re.cursor_at; destruct text; reflexivity).
  cbn [Re.prev Re.rest Re.pos] in H.
  apply Unwind.scan_inv in H.
  destruct H as (pre & rest0 & -> & Hm & Hno).
  pose proof (proj1 (line_start pre rest0 0)) as Hline.
  cbv zeta in Hline.
  unfold ReFacts.after in Hm, Hline.
  apply assignment_inv in Hm.
  destruct Hm as (Hp & key & s1 & s2 & q & v & post & Ha & Hg).
  exists v. split; [exact Hg|].
  exists pre, rest0, key, s1, s2, q, post.
  split; [reflexivity|]. split; [exact (Hline Hp)|].
  split; [exact Ha | exact Hno].
Qed.

Lemma version_search :
  forall pat text v,
    re.prog pat = version_assignment -> re.multiline pat = true ->
    first_assignment text v ->
    exists m, re.search pat text 0 = Some m /\ re.group m 2 = Some v.
Proof.
  intros pat text v Hprog Hml
         (pre & line & key & s1 & s2 & q & post & -> & Hpre & Ha & Hno).
  destruct Ha as (-> & Hkey & Hs1 & Hs2 & Hq & Hv).
  destruct (unquoted_all q v Hv) as [Hqv Hnv].
  rewrite (spaces_all s1 Hs1), (spaces_all s2 Hs2) in *.
  destruct (assignment_runs
              (Re.prev
                 (ReFacts.after
                    {| Re.prev := None;
                       Re.rest := pre ++ key ++ spaces (length s1) ++ lit "="
                                  ++ spaces (length s2) ++ [q] ++ v ++ [q]
                                  ++ post;
                       Re.pos := 0 |}
                    pre
                    (key ++ spaces (length s1) ++ lit "="
                     ++ spaces (length s2) ++ [q] ++ v ++ [q] ++ post)))
              (length pre + 0) key (length s1) (length s2) q v post)
    as (m & Hm & Hg); try assumption.
  { apply (proj2 (line_start pre _ 0)). exact Hpre. }
  exists m. split; [|exact Hg].
  apply search_first_match.
  - rewrite Hprog, Hml. exact Hno.
  - rewrite Hprog, Hml. exact Hm.
Qed.



(** ** The version file *)

(** No line of [text] that starts before index [n] is a version
    assignment. *)
Definition no_assignment_before (text : str) (n : nat) : Prop :=
  forall p rest0 key s1 s2 q v post,
    text = p ++ rest0 ->
    length p < n ->
    p = [] \/ (exists p0, p = p0 ++ [Re.newline]) ->
    ~ assignment rest0 key s1 s2 q v post.

Lemma cursor_at_after :
  forall p rest0,
    Re.cursor_at (p ++ rest0) (length p)
    = ReFacts.after
        {| Re.prev := None; Re.rest := p ++ rest0; Re.pos := 0 |} p rest0.
Proof. intros p rest0. unfold Re.cursor_at. apply ReFacts.seek_after. Qed.

(** The pattern matches at no index before [n] exactly when no line that
    starts before [n] is a version assignment. *)
Lemma no_match_before :
  forall text n,
    n <= length text ->
    no_assignment_before text n ->
    forall i,
      i < n ->
      Re.match_at true version_assignment false (Re.cursor_at text i) = None.
Proof.
  intros text n Hn Hno i Hi.
  destruct (Re.match_at true version_assignment false (Re.cursor_at text i))
    as [m|] eqn:E; [|reflexivity].
  exfalso.
  assert (Hlen : length (firstn i text) = i)
    by (rewrite length_firstn; lia).
  assert (Hcur : Re.cursor_at text i
                 = ReFacts.after
                     {| Re.prev := None; Re.rest := text; Re.pos := 0 |}
                     (firstn i text) (skipn i text)).
  { pose proof (cursor_at_after (firstn i text) (skipn i text)) as C.
    rewrite firstn_skipn, Hlen in C. exact C. }
  rewrite Hcur in E.
  pose proof (proj1 (line_start (firstn i text) (skipn i text) 0)) as Hline.
  cbv zeta in Hline. rewrite firstn_skipn in Hline.
  unfold ReFacts.after in E, Hline.
  apply assignment_inv in E.
  destruct E as (Hp & key & s1 & s2 & q & v & post & Ha & _).
  apply (Hno (firstn i text) (skipn i text) key s1 s2 q v post).
  - symmetry. apply firstn_skipn.
  - lia.
  - exact (Hline Hp).
  - exact Ha.
Qed.

Lemma no_assignment_where_no_match :
  forall text n,
    (forall i,
        i < n ->
        Re.match_at true version_assignment false (Re.cursor_at text i)
        = None) ->
    no_assignment_before text n.
Proof.
  intros text n Hnone p rest0 key s1 s2 q v post -> Hlen Hp Ha.
  destruct Ha as (-> & Hkey & Hs1 & Hs2 & Hq & Hv).
  destruct (unquoted_all q v Hv) as [Hqv Hnv].
  rewrite (spaces_all s1 Hs1), (spaces_all s2 Hs2) in *.
  destruct (assignment_runs
              (Re.prev
                 (ReFacts.after
                    {| Re.prev := None;
                       Re.rest := p ++ key ++ spaces (length s1) ++ lit "="
                                  ++ spaces (length s2) ++ [q] ++ v ++ [q]
                                  ++ post;
                       Re.pos := 0 |}
                    p
                    (key ++ spaces (length s1) ++ lit "="
                     ++ spaces (length s2) ++ [q] ++ v ++ [q] ++ post)))
              (length p + 0) key (length s1) (length s2) q v post)
    as (m & Hm & _); try assumption.
  { apply (proj2 (line_start p _ 0)). exact Hp. }
  pose proof (Hnone (length p) Hlen) as E.
  rewrite cursor_at_after in E.
  unfold ReFacts.after in E, Hm. cbn [Re.prev Re.pos] in E, Hm.
  rewrite Hm in E. discriminate E.
Qed.

(** The claim about the version file, as it is stated: whenever some line
    of the file assigns a quoted value to [version] or [__version__],
    that value is returned. *)
Definition find_version_claim (text : str) : Prop :=
  forall ctx version_file pre line key s1 s2 q v post,
    version_file <> [] ->
    files ctx version_file = Some text ->
    text = pre ++ line ->
    pre = [] \/ (exists pre0, pre = pre0 ++ [Re.newline]) ->
    assignment line key s1 s2 q v post ->
    find_version ctx version_file [] = Ok (Some v).

(** A version file with two assignments. *)
Definition two_assignments : str :=
  lit "version = '1.0'" ++ Examples.nl ++ lit "version = '2.0'"
  ++ Examples.nl.

(** C8, as stated, fails: of two assignment lines the first one wins, so
    the value of the second line is not returned although the file holds
    that line. *)
Lemma find_version_claim_second_line : ~ find_version_claim two_assignments.
Proof.
  intro H.
  assert (Hvf : lit "setup.py" <> []) by discriminate.
  assert (Ha : assignment (lit "version = '2.0'" ++ Examples.nl)
                 (lit "version") (lit " ") (lit " ") "'" (lit "2.0")
                 Examples.nl).
  { unfold assignment. split; [reflexivity|].
    split; [right; reflexivity|].
    split; [repeat constructor|]. split; [repeat constructor|].
    split; [right; reflexivity|]. repeat constructor. }
  pose proof (H {| files := fun _ => Some two_assignments; version := [] |}
                (lit "setup.py") (lit "version = '1.0'" ++ Examples.nl)
                (lit "version = '2.0'" ++ Examples.nl)
                (lit "version") (lit " ") (lit " ") "'"%char (lit "2.0")
                Examples.nl Hvf eq_refl eq_refl
                (or_intror (ex_intro _ (lit "version = '1.0'") eq_refl)) Ha)
    as E.
  vm_compute in E. discriminate E.
Qed.

(** C8, amended.  When a line of the version file starts with [version]
    or [__version__], then spaces, [=], spaces and a value between two
    equal quotes, single or double, the value holding neither that quote
    nor a newline, and no earlier line of the file is such an assignment,
    [find_version] returns exactly the value, whichever of the two quotes
    is used.  For the content [version = "2.1.0"] it returns [2.1.0], and
    so it does with single quotes.  The method of class [Parser] is the
    same function. *)
Theorem find_version_quoted :
  (forall ctx version_file text pre line key s1 s2 q v post,
      version_file <> [] ->
      files ctx version_file = Some text ->
      text = pre ++ line ->
      pre = [] \/ (exists pre0, pre = pre0 ++ [Re.newline]) ->
      assignment line key s1 s2 q v post ->
      no_assignment_before text (length pre) ->
      find_version ctx version_file [] = Ok (Some v)
      /\ Parser.find_version ctx version_file [] = Ok (Some v))
  /\ find_version
       {| files := fun _ => Some (lit "version = " ++ [double_quote]
                                  ++ lit "2.1.0" ++ [double_quote]);
          version := [] |}
       "pkg/__init__.py" []
     = Ok (Some (lit "2.1.0"))
  /\ find_version
       {| files := fun _ => Some (lit "version = '2.1.0'"); version := [] |}
       "pkg/__init__.py" []
     = Ok (Some (lit "2.1.0")).
Proof.
  split; [|split; vm_compute; reflexivity].
  intros ctx vf text pre line key s1 s2 q v post Hvf Hfile Htext Hpre Ha
         Hno.
  assert (H : find_version ctx vf [] = Ok (Some v)).
  { unfold find_version. cbn [nonempty negb andb].
    destruct vf as [|c vf]; [contradiction|]. cbn [nonempty negb].
    unfold read_file. rewrite Hfile. cbn [bind].
    destruct VERSION_RE_compiled as [Hprog Hml].
    destruct VERSION_RE as [pat|]; [|discriminate Hprog].
    injection Hprog as Hprog. injection Hml as Hml.
    assert (Hfirst : first_assignment text v).
    { exists pre, line, key, s1, s2, q, post.
      split; [exact Htext|]. split; [exact Hpre|]. split; [exact Ha|].
      apply (no_match_before text (length pre)); [|exact Hno].
      rewrite Htext, length_app. lia. }
    destruct (version_search pat text v Hprog Hml Hfirst) as (m & Hs & Hg).
    rewrite Hs, Hg. reflexivity. }
  split; [exact H | exact H].
Qed.

Lemma find_version_quoted_witness :
  find_version
    {| files := fun _ => Some (version_file_text double_quote);
       version := [] |}
    "pkg/__init__.py" []
  = Ok (Some (lit "2.1.0"))
  /\ find_version
       {| files := fun _ => Some (version_file_text "'"); version := [] |}
       "pkg/__init__.py" []
     = Ok (Some (lit "2.1.0")).
Proof.
  destruct find_version_quoted as [H _].
  assert (Hvf : lit "pkg/__init__.py" <> []) by discriminate.
  assert (Hpre : lit "name = 'pkg'" ++ Examples.nl = []
                 \/ exists pre0,
                     lit "name = 'pkg'" ++ Examples.nl
                     = pre0 ++ [Re.newline])
    by (right; exists (lit "name = 'pkg'"); reflexivity).
  assert (Ha : forall q,
             q = double_quote \/ q = "'"%char ->
             assignment
               (lit "version = " ++ [q] ++ lit "2.1.0" ++ [q] ++ Examples.nl)
               (lit "version") (lit " ") (lit " ") q (lit "2.1.0")
               Examples.nl).
  { intros q Hq. unfold assignment. split; [reflexivity|].
    split; [right; reflexivity|].
    split; [repeat constructor|]. split; [repeat constructor|].
    split; [exact Hq|].
    destruct Hq as [-> | ->]; repeat constructor. }
  assert (Hno : forall q,
             q = double_quote \/ q = "'"%char ->
             no_assignment_before (version_file_text q)
               (length (lit "name = 'pkg'" ++ Examples.nl))).
  { intros q Hq. apply no_assignment_where_no_match. intros i Hi.
    do 13 (destruct i as [|i];
           [destruct Hq as [-> | ->]; vm_compute; reflexivity|]).
    simpl in Hi. lia. }
  split.
  - exact (proj1 (H {| files := fun _ => Some (version_file_text double_quote);
                       version := [] |}
                    (lit "pkg/__init__.py") (version_file_text double_quote)
                    (lit "name = 'pkg'" ++ Examples.nl)
                    (lit "version = " ++ [double_quote] ++ lit "2.1.0"
                     ++ [double_quote] ++ Examples.nl)
                    (lit "version") (lit " ") (lit " ") double_quote
                    (lit "2.1.0") Examples.nl
                    Hvf eq_refl eq_refl Hpre (Ha _ (or_introl eq_refl))
                    (Hno _ (or_introl eq_refl)))).
  - exact (proj1 (H {| files := fun _ => Some (version_file_text "'");
                       version := [] |}
                    (lit "pkg/__init__.py") (version_file_text "'")
                    (lit "name = 'pkg'" ++ Examples.nl)
                    (lit "version = " ++ ["'"%char] ++ lit "2.1.0"
                     ++ ["'"%char] ++ Examples.nl)
                    (lit "version") (lit " ") (lit " ") "'"%char
                    (lit "2.1.0") Examples.nl
                    Hvf eq_refl eq_refl Hpre (Ha _ (or_intror eq_refl))
                    (Hno _ (or_intror eq_refl)))).
Defined.

(** ** [find_version] *)

(** X1.  [find_version] returns in two ways only: the version given
    directly, when no version file is named, or the value of the first
    version assignment of the version file, when no version is given: a
    line that starts with [version] or [__version__], spaces, [=],
    spaces, and the value between two equal quotes, the value holding
    neither that quote nor a newline.  The method of class [Parser] is the
    same function. *)
Theorem find_version_exact :
  forall ctx version_file version_input r,
    (find_version ctx version_file version_input = Ok r
     <-> (version_input <> [] /\ version_file = []
          /\ r = Some version_input)
         \/ (version_input = [] /\ version_file <> []
             /\ exists text v,
                 files ctx version_file = Some text
                 /\ first_assignment text v /\ r = Some v))
    /\ Parser.find_version ctx version_file version_input
       = find_version ctx version_file version_input.
Proof.
  intros ctx vf vi r. split; [|reflexivity].
  destruct VERSION_RE_compiled as [Hprog Hml].
  unfold find_version.
  destruct VERSION_RE as [pat|]; [|discriminate Hprog].
  injection Hprog as Hprog. injection Hml as Hml.
  destruct vi as [|c vi], vf as [|d vf]; cbn [nonempty negb andb].
  - split; [discriminate|].
    intros [(H & _) | (_ & H & _)]; contradiction.
  - unfold read_file.
    destruct (files ctx (d :: vf)) as [text|] eqn:Hfile; cbn [bind].
    + destruct (re.search pat text 0) as [m|] eqn:Hs.
      * destruct (search_version pat text m Hprog Hml Hs)
          as (v & Hg & Hfirst).
        rewrite Hg. split.
        -- intros [= <-]. right. split; [reflexivity|].
           split; [discriminate|]. exists text, v. auto.
        -- intros [(H & _) | (_ & _ & text' & v' & Ht & Hfirst' & ->)];
             [contradiction|].
           injection Ht as <-.
           destruct (version_search pat text v' Hprog Hml Hfirst')
             as (m' & Hs' & Hg').
           rewrite Hs in Hs'. injection Hs' as <-. congruence.
      * split; [discriminate|].
        intros [(H & _) | (_ & _ & text' & v' & Ht & Hfirst' & ->)];
          [contradiction|].
        injection Ht as <-.
        destruct (version_search pat text v' Hprog Hml Hfirst')
          as (m' & Hs' & _).
        rewrite Hs in Hs'. discriminate Hs'.
    + split; [discriminate|].
      intros [(H & _) | (_ & _ & text' & v' & Ht & _)];
        [contradiction | discriminate Ht].
  - split.
    + intros [= <-]. left. split; [discriminate|]. auto.
    + intros [(_ & _ & ->) | (H & _)]; [reflexivity | discriminate H].
  - split; [discriminate|].
    intros [(_ & H & _) | (H & _)]; discriminate H.
Qed.

Lemma find_version_exact_witness :
  first_assignment (version_file_text double_quote) (lit "2.1.0")
  /\ find_version
       {| files := fun _ => Some (lit "__version__='0.3'"); version := [] |}
       "setup.py" []
     = Ok (Some (lit "0.3")).
Proof.
  split.
  - destruct (proj1 (find_version_exact
                       {| files := fun _ =>
                                     Some (version_file_text double_quote);
                          version := [] |}
                       (lit "pkg/__init__.py") [] (Some (lit "2.1.0"))))
      as [H _].
    destruct (H ltac:(vm_compute; reflexivity))
      as [(Hne & _) | (_ & _ & text & v & Ht & Hfirst & Hv)].
    + exfalso. apply Hne. reflexivity.
    + injection Ht as <-. injection Hv as <-. exact Hfirst.
  - apply (proj1 (find_version_exact
                    {| files := fun _ => Some (lit "__version__='0.3'");
                       version := [] |}
                    (lit "setup.py") [] (Some (lit "0.3")))).
    right. split; [reflexivity|]. split; [discriminate|].
    exists (lit "__version__='0.3'"), (lit "0.3").
    split; [reflexivity|]. split; [|reflexivity].
    exists [], (lit "__version__='0.3'"), (lit "__version__"), [], [],
      "'"%char, [].
    split; [reflexivity|]. split; [left; reflexivity|]. split.
    + unfold assignment. split; [reflexivity|].
      split; [left; reflexivity|]. split; [constructor|].
      split; [constructor|]. split; [right; reflexivity|].
      repeat constructor.
    + intros i Hi. simpl in Hi. lia.
Defined.

(** Some line of the text is a version assignment. *)
Definition has_assignment (text : str) : Prop :=
  exists pre line key s1 s2 q v post,
    text = pre ++ line
    /\ (pre = [] \/ exists pre0, pre = pre0 ++ [Re.newline])
    /\ assignment line key s1 s2 q v post.

(** A search finds a match when there is one at some index. *)
Lemma scan_some :
  forall ml r pre rest0 p n m,
    Re.match_at ml r false
      (ReFacts.after {| Re.prev := p; Re.rest := pre ++ rest0; Re.pos := n |}
         pre rest0)
    = Some m ->
    exists m', Re.scan ml r false p (pre ++ rest0) n = Some m'.
Proof.
  intros ml r pre rest0. induction pre as [|c pre IH]; intros p n m H.
  - exists m. apply Runs.scan_hit. exact H.
  - change ((c :: pre) ++ rest0) with (c :: (pre ++ rest0)) in *.
    cbn [Re.scan].
    destruct (Re.match_at ml r false
                {| Re.prev := p; Re.rest := c :: pre ++ rest0;
                   Re.pos := n |})
      as [m'|]; [exists m'; reflexivity|].
    apply (IH (Some c) (S n) m).
    replace (ReFacts.after
               {| Re.prev := Some c; Re.rest := pre ++ rest0;
                  Re.pos := S n |} pre rest0)
      with (ReFacts.after
              {| Re.prev := p; Re.rest := c :: pre ++ rest0; Re.pos := n |}
              (c :: pre) rest0); [exact H|].
    unfold ReFacts.after. cbn [Re.prev Re.pos rev]. f_equal.
    + destruct (rev pre); reflexivity.
    + simpl. lia.
Qed.

Lemma cursor_at_start :
  forall s,
    Re.cursor_at s 0 = {| Re.prev := None; Re.rest := s; Re.pos := 0 |}.
Proof. intro s. unfold Re.cursor_at. destruct s; reflexivity. Qed.

Lemma assignment_found :
  forall pat text,
    re.prog pat = version_assignment -> re.multiline pat = true ->
    has_assignment text ->
    exists m, re.search pat text 0 = Some m.
Proof.
  intros pat text Hprog Hml
         (pre & line & key & s1 & s2 & q & v & post & -> & Hpre & Ha).
  destruct Ha as (-> & Hkey & Hs1 & Hs2 & Hq & Hv).
  destruct (unquoted_all q v Hv) as [Hqv Hnv].
  rewrite (spaces_all s1 Hs1), (spaces_all s2 Hs2) in *.
  destruct (assignment_runs
              (Re.prev
                 (ReFacts.after
                    {| Re.prev := None;
                       Re.rest := pre ++ key ++ spaces (length s1) ++ lit "="
                                  ++ spaces (length s2) ++ [q] ++ v ++ [q]
                                  ++ post;
                       Re.pos := 0 |}
                    pre
                    (key ++ spaces (length s1) ++ lit "="
                     ++ spaces (length s2) ++ [q] ++ v ++ [q] ++ post)))
              (length pre + 0) key (length s1) (length s2) q v post)
    as (m & Hm & _); try assumption.
  { apply (proj2 (line_start pre _ 0)). exact Hpre. }
  unfold re.search, re.search_from. rewrite Hprog, Hml.
  rewrite cursor_at_start.
  cbn [Re.prev Re.rest Re.pos].
  exact (scan_some _ _ _ _ _ _ _ Hm).
Qed.

(** X2.  Reading the version from a file fails exactly when it has to.
    When some line of the file is a version assignment, [find_version]
    returns the value of the first one; when no line is, in particular
    when the text nowhere holds [version], it fails as unable to determine
    the version; when the file does not exist it fails with the
    missing-file error. *)
Theorem find_version_from_file :
  forall ctx version_file,
    version_file <> [] ->
    (forall text,
        files ctx version_file = Some text ->
        (has_assignment text ->
         exists v,
           find_version ctx version_file [] = Ok (Some v)
           /\ first_assignment text v)
        /\ (~ has_assignment text ->
            find_version ctx version_file []
            = Raise (VersionNotDetermined version_file))
        /\ (~ occurs (lit "version") text -> ~ has_assignment text))
    /\ (files ctx version_file = None ->
        find_version ctx version_file [] = Raise (FileMissing version_file)).
Proof.
  intros ctx vf Hvf.
  destruct vf as [|d vf]; [contradiction|]. split.
  - intros text Hfile.
    destruct VERSION_RE_compiled as [Hprog Hml].
    unfold find_version. cbn [nonempty negb andb].
    unfold read_file. rewrite Hfile. cbn [bind].
    destruct VERSION_RE as [pat|]; [|discriminate Hprog].
    injection Hprog as Hprog. injection Hml as Hml.
    split; [|split].
    + intro Has.
      destruct (assignment_found pat text Hprog Hml Has) as (m & Hs).
      rewrite Hs.
      destruct (search_version pat text m Hprog Hml Hs) as (v & Hg & Hfirst).
      exists v. rewrite Hg. split; [reflexivity | exact Hfirst].
    + intro Hno.
      destruct (re.search pat text 0) as [m|] eqn:Hs; [|reflexivity].
      exfalso. apply Hno.
      destruct (search_version pat text m Hprog Hml Hs)
        as (v & _ & pre & line & key & s1 & s2 & q & post & E & Hpre & Ha
            & _).
      exists pre, line, key, s1, s2, q, v, post. auto.
    + intros Hno
             (pre & line & key & s1 & s2 & q & v & post & -> & _ & Ha).
      apply Hno. destruct Ha as (-> & [-> | ->] & _).
      * exists (pre ++ lit "__"),
          (lit "__" ++ s1 ++ lit "=" ++ s2 ++ [q] ++ v ++ [q] ++ post).
        rewrite <- ?app_assoc. reflexivity.
      * exists pre, (s1 ++ lit "=" ++ s2 ++ [q] ++ v ++ [q] ++ post).
        rewrite <- ?app_assoc. reflexivity.
  - intro Hfile. unfold find_version. cbn [nonempty negb andb].
    unfold read_file. rewrite Hfile. reflexivity.
Qed.

Lemma find_version_from_file_witness :
  find_version
    {| files := fun _ => Some (lit "name = 'pkg'"); version := [] |}
    "setup.py" []
  = Raise (VersionNotDetermined "setup.py").
Proof.
  assert (Hne : lit "setup.py" <> []) by discriminate.
  destruct (find_version_from_file
              {| files := fun _ => Some (lit "name = 'pkg'");
                 version := [] |}
              (lit "setup.py") Hne)
    as [H _].
  destruct (H (lit "name = 'pkg'") eq_refl) as (_ & Hraise & Hocc).
  apply Hraise. apply Hocc.
  intros (b & a & E).
  apply (f_equal (Py.contains (lit "version"))) in E.
  assert (C : forall b a, Py.contains (lit "version")
                            (b ++ lit "version" ++ a) = true).
  { clear. induction b as [|c b IH]; intro a.
    - reflexivity.
    - change ((c :: b) ++ lit "version" ++ a)
        with (c :: (b ++ lit "version" ++ a)).
      cbn [Py.contains]. rewrite IH. apply orb_true_r. }
  rewrite C in E. vm_compute in E. discriminate E.
Defined.

(** ** The release note *)

Section NoteFacts.
Context {P : Packaging}.

Lemma passed_trimmed :
  forall vfield msg declared head_line fix_issue_regex fix_issue_repl name
         note,
    passed vfield msg declared head_line fix_issue_regex fix_issue_repl name
      note ->
    exists text, note = Py.strip text.
Proof.
  intros vf msg d hl fr fp nm note (src & head_re & m & _ & _ & _ & _ & H).
  destruct H as (text & H & _). exists text. exact H.
Qed.

Lemma section_body_inside :
  forall head_re msg m,
    exists x y, msg = x ++ section_body head_re msg m ++ y.
Proof.
  intros head_re msg m. unfold section_body.
  destruct (re.search head_re msg (Re.m_end m)) as [m2|].
  - apply slice_inside.
  - destruct (slice_from_inside msg (Re.m_end m)) as [x H].
    exists x, []. rewrite app_nil_r. exact H.
Qed.

Lemma passed_inside :
  forall vfield after declared head_line fix_issue_repl name note,
    passed vfield (Py.strip after) declared head_line [] fix_issue_repl name
      note ->
    exists x y, after = x ++ note ++ y.
Proof.
  intros vf after d hl fp nm note
         (src & head_re & m & _ & _ & _ & _ & text & -> & ->).
  destruct (strip_inside after) as (x1 & y1 & H1).
  destruct (section_body_inside head_re (Py.strip after) m)
    as (x2 & y2 & H2).
  destruct (strip_inside (section_body head_re (Py.strip after) m))
    as (x3 & y3 & H3).
  exists (x1 ++ x2 ++ x3), (y3 ++ y2 ++ y1).
  rewrite H1 at 1. rewrite H2 at 1. rewrite H3 at 1.
  rewrite <- !app_assoc. reflexivity.
Qed.

Lemma parse_changes_unfold :
  forall ctx changes_file start_line head_line fix_issue_regex
         fix_issue_repl name note,
    parse_changes ctx changes_file start_line head_line fix_issue_regex
      fix_issue_repl name
    = Ok note ->
    nonempty fix_issue_regex = nonempty fix_issue_repl
    /\ exists changes,
        files ctx changes_file = Some changes
        /\ _parse_changes changes changes_file (version ctx) start_line
             head_line fix_issue_regex fix_issue_repl name
           = Ok note.
Proof.
  intros ctx cf sl hl fr fp nm note H.
  unfold parse_changes, check_fix_issue, read_file in H.
  destruct (nonempty fr), (nonempty fp); cbn [negb andb orb bind] in H;
    try discriminate H;
    (split; [reflexivity|]);
    destruct (files ctx cf) as [changes|]; try discriminate H;
    exists changes; split; try reflexivity; exact H.
Qed.

End NoteFacts.

(** X3.  When [parse_changes] returns a note, every check has passed:
    the two rewrite settings are both empty or both set, the changelog
    exists, the start mark is not empty and occurs in it, the heading
    pattern built from [head_line] compiles, it matches at the very start
    of the trimmed text after the first start mark, and the text of its
    version group is exactly the declared version; the note is the section
    body after the rewrite, trimmed. *)
Theorem parse_changes_note_passed :
  forall (P : Packaging) ctx changes_file start_line head_line
         fix_issue_regex fix_issue_repl name note,
    parse_changes ctx changes_file start_line head_line fix_issue_regex
      fix_issue_repl name
    = Ok note ->
    nonempty fix_issue_regex = nonempty fix_issue_repl
    /\ start_line <> []
    /\ exists changes before after,
        files ctx changes_file = Some changes
        /\ first_occurrence changes start_line before after
        /\ passed version_field (Py.strip after) (version ctx) head_line
             fix_issue_regex fix_issue_repl name note.
Proof.
  intros P ctx cf sl hl fr fp nm note H.
  destruct (parse_changes_unfold ctx cf sl hl fr fp nm note H)
    as (Hfix & changes & Hfile & Hparse).
  destruct (parse_changes_ok changes cf (version ctx) sl hl fr fp nm note
              Hparse)
    as (Hne & before & after & Hfo & Hpassed).
  split; [exact Hfix|]. split; [exact Hne|].
  exists changes, before, after. auto.
Qed.

Lemma parse_changes_note_passed_witness :
  exists changes before after,
    files (Examples.ctx Examples.two_sections) (lit "CHANGES.md")
    = Some changes
    /\ first_occurrence changes Examples.start_line before after
    /\ passed version_field (Py.strip after)
         (lit "1.2.3") Examples.head_line (lit "#(\d+)")
         (lit "[#\1](issues/\1)") (lit "pkg")
         (lit "Fixed bug [#42](issues/42).").
Proof.
  assert (E : parse_changes (P := Release.packaging)
                (Examples.ctx Examples.two_sections) (lit "CHANGES.md")
                Examples.start_line Examples.head_line (lit "#(\d+)")
                (lit "[#\1](issues/\1)") (lit "pkg")
              = Ok (lit "Fixed bug [#42](issues/42)."))
    by (vm_compute; reflexivity).
  destruct (parse_changes_note_passed Release.packaging _ _ _ _ _ _ _ _ E)
    as (_ & _ & H).
  exact H.
Defined.

(** X4.  When [Parser.parse] returns a note, every check has passed: the
    rewrite settings are paired, the git ref is accepted by [check_head],
    the changelog exists, the start mark is not empty and occurs in it,
    and the heading pattern with the version token in square brackets
    matches at the very start of the trimmed text after the first start
    mark with exactly the declared version. *)
Theorem Parser_parse_note_passed :
  forall (P : Packaging) self ctx start_line head_line fix_issue_regex
         fix_issue_repl input_check_ref note,
    Parser.parse self ctx start_line head_line fix_issue_regex
      fix_issue_repl input_check_ref
    = Ok note ->
    nonempty fix_issue_regex = nonempty fix_issue_repl
    /\ check_head (version ctx) input_check_ref = Ok tt
    /\ start_line <> []
    /\ exists changes before after,
        files ctx (Parser.changes_file self) = Some changes
        /\ first_occurrence changes start_line before after
        /\ passed bracketed_version_field (Py.strip after) (version ctx)
             head_line fix_issue_regex fix_issue_repl (Parser.name self)
             note.
Proof.
  intros P self ctx sl hl fr fp ref note H.
  exact (Parser_parse_ok self ctx sl hl fr fp ref note H).
Qed.

Lemma Parser_parse_note_passed_witness :
  check_head (lit "1.2.3") (Some (lit "refs/tags/v1.2.3")) = Ok tt
  /\ exists changes before after,
      files (Examples.ctx Examples.two_sections) (lit "CHANGES.md")
      = Some changes
      /\ first_occurrence changes Examples.start_line before after
      /\ passed bracketed_version_field
           (Py.strip after) (lit "1.2.3") Examples.Parser_head_line [] []
           (lit "pkg") (lit "Fixed bug #42.").
Proof.
  assert (E : Parser.parse (P := Release.packaging) Examples.self
                (Examples.ctx Examples.two_sections) Examples.start_line
                Examples.Parser_head_line [] []
                (Some (lit "refs/tags/v1.2.3"))
              = Ok (lit "Fixed bug #42."))
    by (vm_compute; reflexivity).
  destruct (Parser_parse_note_passed Release.packaging _ _ _ _ _ _ _ _ E)
    as (_ & Hhead & _ & H).
  split; [exact Hhead | exact H].
Defined.

(** X5.  A note returned by either extractor is trimmed, whatever the
    settings and the rewrite: it neither starts nor ends with a whitespace
    character, and trimming it again changes nothing. *)
Theorem note_is_trimmed :
  forall (P : Packaging) self ctx changes_file start_line head_line
         fix_issue_regex fix_issue_repl name input_check_ref note,
    parse_changes ctx changes_file start_line head_line fix_issue_regex
      fix_issue_repl name
    = Ok note
    \/ Parser.parse self ctx start_line head_line fix_issue_regex
         fix_issue_repl input_check_ref
       = Ok note ->
    Py.strip note = note
    /\ (forall c t, note = c :: t -> Py.isspace c = false)
    /\ (forall c t, note = t ++ [c] -> Py.isspace c = false).
Proof.
  intros P self ctx cf sl hl fr fp nm ref note H.
  assert (T : exists text, note = Py.strip text).
  { destruct H as [H | H].
    - destruct (parse_changes_unfold ctx cf sl hl fr fp nm note H)
        as (_ & changes & _ & Hparse).
      destruct (parse_changes_ok changes cf (version ctx) sl hl fr fp nm
                  note Hparse)
        as (_ & before & after & _ & Hpassed).
      exact (passed_trimmed _ _ _ _ _ _ _ _ Hpassed).
    - destruct (Parser_parse_ok self ctx sl hl fr fp ref note H)
        as (_ & _ & _ & changes & before & after & _ & _ & Hpassed).
      exact (passed_trimmed _ _ _ _ _ _ _ _ Hpassed). }
  destruct T as (text & ->).
  destruct (strip_spec text) as (l & r & _ & _ & _ & Hfirst & Hlast).
  split; [apply strip_idempotent|]. split; assumption.
Qed.

Lemma note_is_trimmed_witness :
  Py.strip (lit "Fixed bug [#42](issues/42).")
  = lit "Fixed bug [#42](issues/42).".
Proof.
  assert (E : parse_changes (P := Release.packaging)
                (Examples.ctx Examples.two_sections) (lit "CHANGES.md")
                Examples.start_line Examples.head_line (lit "#(\d+)")
                (lit "[#\1](issues/\1)") (lit "pkg")
              = Ok (lit "Fixed bug [#42](issues/42)."))
    by (vm_compute; reflexivity).
  destruct (note_is_trimmed Release.packaging Examples.self _ _ _ _ _ _ _
              None _ (or_introl E))
    as (H & _).
  exact H.
Defined.

(** X6.  With no issue rewrite the extractors invent nothing: a returned
    note is a contiguous piece of the changelog that lies after the first
    start mark. *)
Theorem note_inside_changelog :
  forall (P : Packaging) self ctx changes_file start_line head_line name
         input_check_ref note,
    (parse_changes ctx changes_file start_line head_line [] [] name
     = Ok note
     \/ (Parser.parse self ctx start_line head_line [] [] input_check_ref
         = Ok note
         /\ changes_file = Parser.changes_file self)) ->
    exists changes before x y,
      files ctx changes_file = Some changes
      /\ changes = before ++ start_line ++ x ++ note ++ y
      /\ first_occurrence changes start_line before (x ++ note ++ y).
Proof.
  intros P self ctx cf sl hl nm ref note H.
  assert (T : exists changes before after vfield name',
             files ctx cf = Some changes
             /\ first_occurrence changes sl before after
             /\ passed vfield (Py.strip after) (version ctx) hl [] [] name'
                  note).
  { destruct H as [H | [H ->]].
    - destruct (parse_changes_unfold ctx cf sl hl [] [] nm note H)
        as (_ & changes & Hfile & Hparse).
      destruct (parse_changes_ok changes cf (version ctx) sl hl [] [] nm
                  note Hparse)
        as (_ & before & after & Hfo & Hpassed).
      exists changes, before, after, version_field, nm. auto.
    - destruct (Parser_parse_ok self ctx sl hl [] [] ref note H)
        as (_ & _ & _ & changes & before & after & Hfile & Hfo & Hpassed).
      exists changes, before, after, bracketed_version_field,
        (Parser.name self).
      auto. }
  destruct T as (changes & before & after & vf & nm' & Hfile & Hfo & Hp).
  destruct (passed_inside _ _ _ _ _ _ _ Hp) as (x & y & Hafter).
  exists changes, before, x, y. split; [exact Hfile|].
  rewrite <- Hafter. split; [exact (proj1 Hfo) | exact Hfo].
Qed.

Lemma note_inside_changelog_witness :
  exists before x y,
    Examples.two_sections
    = before ++ Examples.start_line ++ x ++ lit "Fixed bug #42." ++ y.
Proof.
  assert (E : parse_changes (P := Release.packaging)
                (Examples.ctx Examples.two_sections) (lit "CHANGES.md")
                Examples.start_line Examples.head_line [] [] (lit "pkg")
              = Ok (lit "Fixed bug #42."))
    by (vm_compute; reflexivity).
  destruct (note_inside_changelog Release.packaging Examples.self _ _ _ _
              _ None _ (or_introl E))
    as (changes & before & x & y & Hfile & Hs & _).
  assert (F : files (Examples.ctx Examples.two_sections) (lit "CHANGES.md")
              = Some Examples.two_sections)
    by (vm_compute; reflexivity).
  rewrite F in Hfile. injection Hfile as <-.
  exists before, x, y. exact Hs.
Defined.

(** X7.  The result of [_parse_changes], note or error, depends only on
    the text after the first start mark, and not on whitespace at its two
    ends: the text before the mark, blank lines after the mark and blank
    lines at the end of the changelog change nothing. *)
Theorem only_text_after_mark_counts :
  forall (P : Packaging) changes before after changes' before' ws ws'
         changes_file declared start_line head_line fix_issue_regex
         fix_issue_repl name,
    first_occurrence changes start_line before after ->
    first_occurrence changes' start_line before' (ws ++ after ++ ws') ->
    whitespace ws -> whitespace ws' ->
    _parse_changes changes' changes_file declared start_line head_line
      fix_issue_regex fix_issue_repl name
    = _parse_changes changes changes_file declared start_line head_line
        fix_issue_regex fix_issue_repl name.
Proof.
  intros P changes before after changes' before' ws ws' cf d sl hl fr fp nm
         Hfo Hfo' Hws Hws'.
  destruct sl as [|c sl]; [reflexivity|].
  assert (Hne : c :: sl <> []) by discriminate.
  rewrite (parse_changes_from_remainder changes cf d (c :: sl) hl fr fp nm
             before after Hne Hfo).
  rewrite (parse_changes_from_remainder changes' cf d (c :: sl) hl fr fp nm
             before' (ws ++ after ++ ws') Hne Hfo').
  rewrite strip_whitespace by assumption. reflexivity.
Qed.

Lemma only_text_after_mark_counts_witness :
  _parse_changes (P := Release.packaging)
    (lit "Release notes" ++ Examples.nl ++ lit "=============" ++ Examples.nl
     ++ Examples.start_line
     ++ (Examples.nl ++ Examples.nl ++ lit "  ")
     ++ (lit "## [1.2.3] - 2024-01-01" ++ Examples.nl
         ++ lit "Fixed bug #42.")
     ++ (Examples.nl ++ Examples.nl))
    (lit "CHANGES.md") (lit "1.2.3") Examples.start_line Examples.head_line
    [] [] (lit "pkg")
  = Ok (lit "Fixed bug #42.").
Proof.
  set (after := lit "## [1.2.3] - 2024-01-01" ++ Examples.nl
                ++ lit "Fixed bug #42.").
  set (ws := Examples.nl ++ Examples.nl ++ lit "  ").
  set (ws' := Examples.nl ++ Examples.nl).
  set (before' := lit "Release notes" ++ Examples.nl ++ lit "============="
                  ++ Examples.nl).
  assert (Hfo : first_occurrence (Examples.start_line ++ after)
                  Examples.start_line [] after).
  { apply split_first_sound. vm_compute. reflexivity. }
  assert (Hfo' : first_occurrence
                   (before' ++ Examples.start_line ++ ws ++ after ++ ws')
                   Examples.start_line before' (ws ++ after ++ ws')).
  { apply split_first_sound. vm_compute. reflexivity. }
  assert (Hws : whitespace ws) by (repeat constructor).
  assert (Hws' : whitespace ws') by (repeat constructor).
  assert (E : lit "Release notes" ++ Examples.nl ++ lit "============="
              ++ Examples.nl ++ Examples.start_line ++ ws ++ after ++ ws'
              = before' ++ Examples.start_line ++ ws ++ after ++ ws')
    by (vm_compute; reflexivity).
  rewrite E.
  refine (eq_trans
            (only_text_after_mark_counts Release.packaging _ _ _ _ _ _ _
               (lit "CHANGES.md") (lit "1.2.3") Examples.start_line
               Examples.head_line [] [] (lit "pkg") Hfo Hfo' Hws Hws') _).
  vm_compute. reflexivity.
Defined.

(** ** The two programs side by side *)

(** The environment in which [INPUT_HEAD_LINE] has every [{version}]
    field written inside escaped square brackets. *)
Definition with_bracketed_head_line (environ : str -> option str)
  (name : str) : option str :=
  if Py.str_eqb name "INPUT_HEAD_LINE"
  then option_map (bracket_version None) (environ name)
  else environ name.

Section SideBySide.
Context {P : Packaging} {F : ReleaseFlags P} {D : Disk}.

(** With paired rewrite settings [Parser.parse] is [check_head] followed
    by [parse_changes] on the bracketed template. *)
Lemma Parser_parse_paired :
  forall self ctx start_line head_line fix_issue_regex fix_issue_repl
         input_check_ref,
    nonempty fix_issue_regex = nonempty fix_issue_repl ->
    Parser.parse self ctx start_line head_line fix_issue_regex
      fix_issue_repl input_check_ref
    = (check_head (version ctx) input_check_ref ;;;
       parse_changes ctx (Parser.changes_file self) start_line
         (bracket_version None head_line) fix_issue_regex fix_issue_repl
         (Parser.name self)).
Proof.
  intros self ctx sl hl fr fp ref Hfix.
  assert (G : nonempty fr && negb (nonempty fp)
              || negb (nonempty fr) && nonempty fp = false)
    by (rewrite Hfix; destruct (nonempty fp); reflexivity).
  unfold Parser.parse, parse_changes, check_fix_issue, _parse_changes.
  rewrite G.
  change (Parser.check_head (version ctx) ref)
    with (check_head (version ctx) ref).
  destruct (check_head (version ctx) ref) as [[]|e]; [|reflexivity].
  cbn [bind]. unfold read_file.
  destruct (files ctx (Parser.changes_file self)) as [changes|];
    [|reflexivity].
  cbn [bind].
  destruct (Py.partition changes sl) as [[[b sep] msg]|]; [|reflexivity].
  destruct (negb (nonempty sep)); [reflexivity|].
  change (Format.format hl _)
    with (Format.format hl
            (heading_kwargs bracketed_version_field (Parser.name self))).
  change (Format.format (bracket_version None hl) _)
    with (Format.format (bracket_version None hl)
            (heading_kwargs version_field (Parser.name self))).
  assert (S : Format.format hl
                (heading_kwargs bracketed_version_field (Parser.name self))
              = Format.format (bracket_version None hl)
                  (heading_kwargs version_field (Parser.name self)))
    by exact (proj1 (bracket_version_scan version_field (Parser.name self)
                       (length hl) hl (le_n _))).
  rewrite S. reflexivity.
Qed.

Lemma Parser_parse_unpaired :
  forall self ctx start_line head_line fix_issue_regex fix_issue_repl
         input_check_ref,
    nonempty fix_issue_regex <> nonempty fix_issue_repl ->
    Parser.parse self ctx start_line head_line fix_issue_regex
      fix_issue_repl input_check_ref
    = Raise FixIssueNotPaired.
Proof.
  intros self ctx sl hl fr fp ref H. unfold Parser.parse.
  destruct (nonempty fr), (nonempty fp); try reflexivity;
    exfalso; apply H; reflexivity.
Qed.

End SideBySide.

Ltac env_rewrite H := rewrite (getenv_some _ _ _ _ _ H).

(** X10.  When the nine inputs before the output file are set, the
    replacement fields of the heading template are plain names and the
    two rewrite settings are both empty or both set, the program of
    [src/main.py] does exactly what the program of [src/src/main.py] does
    with the heading template in which every [{version}] field is written
    in escaped square brackets: the same lines printed, the same file
    written, the same return value or the same error. *)
Theorem programs_agree_up_to_brackets :
  forall (P : Packaging) (F : ReleaseFlags P) (D : Disk) environ tree
         version_file version_input check_ref changes_file start_line
         head_line fix_issue_regex fix_issue_repl name,
    environ (lit "INPUT_VERSION_FILE") = Some version_file ->
    environ (lit "INPUT_VERSION") = Some version_input ->
    environ (lit "INPUT_CHECK_REF") = Some check_ref ->
    environ (lit "INPUT_CHANGES_FILE") = Some changes_file ->
    environ (lit "INPUT_START_LINE") = Some start_line ->
    environ (lit "INPUT_HEAD_LINE") = Some head_line ->
    environ (lit "INPUT_FIX_ISSUE_REGEX") = Some fix_issue_regex ->
    environ (lit "INPUT_FIX_ISSUE_REPL") = Some fix_issue_repl ->
    environ (lit "INPUT_NAME") = Some name ->
    plain_fields false head_line = true ->
    nonempty fix_issue_regex = nonempty fix_issue_repl ->
    Controller.main environ tree
    = main (with_bracketed_head_line environ) tree.
Proof.
  intros P F D environ tree vf vi ref cf sl hl fr fp nm E1 E2 E3 E4 E5 E6
         E7 E8 E9 _ Hfix.
  set (environ' := with_bracketed_head_line environ).
  assert (E1' : environ' (lit "INPUT_VERSION_FILE") = Some vf) by exact E1.
  assert (E2' : environ' (lit "INPUT_VERSION") = Some vi) by exact E2.
  assert (E3' : environ' (lit "INPUT_CHECK_REF") = Some ref) by exact E3.
  assert (E4' : environ' (lit "INPUT_CHANGES_FILE") = Some cf) by exact E4.
  assert (E5' : environ' (lit "INPUT_START_LINE") = Some sl) by exact E5.
  assert (E6' : environ' (lit "INPUT_HEAD_LINE")
                = Some (bracket_version None hl)).
  { unfold environ', with_bracketed_head_line.
    change (Py.str_eqb (lit "INPUT_HEAD_LINE") (lit "INPUT_HEAD_LINE"))
      with true.
    cbv iota. rewrite E6. reflexivity. }
  assert (E7' : environ' (lit "INPUT_FIX_ISSUE_REGEX") = Some fr)
    by exact E7.
  assert (E8' : environ' (lit "INPUT_FIX_ISSUE_REPL") = Some fp)
    by exact E8.
  assert (E9' : environ' (lit "INPUT_NAME") = Some nm) by exact E9.
  assert (E10 : environ' (lit "INPUT_OUTPUT_FILE")
                = environ (lit "INPUT_OUTPUT_FILE")) by reflexivity.
  clearbody environ'.
  unfold Controller.main, Controller.init, main.
  env_rewrite E4. env_rewrite E9. rewrite io_bind_ret.
  unfold Controller.start. cbn [Controller.tree Controller.parser].
  env_rewrite E1. env_rewrite E2. env_rewrite E1'. env_rewrite E2'.
  change (Parser.find_version {| files := tree; version := [] |} vf vi)
    with (find_version {| files := tree; version := [] |} vf vi).
  destruct (find_version {| files := tree; version := [] |} vf vi)
    as [found|e]; [|reflexivity].
  rewrite !(lift_ok _ _ _ _ _ eq_refl).
  destruct found as [v|]; [|reflexivity].
  destruct (parse_version v) as [parsed|] eqn:Hparse;
    [|unfold parse_found; rewrite Hparse; reflexivity].
  rewrite !(parse_found_ok _ v parsed _ Hparse).
  cbn [fst snd version].
  env_rewrite E5. env_rewrite E6. env_rewrite E7. env_rewrite E8.
  env_rewrite E3. env_rewrite E3'.
  rewrite (Parser_parse_paired _ _ sl hl fr fp (Some ref) Hfix).
  cbn [version Parser.changes_file Parser.name].
  destruct (check_head v (Some ref)) as [[]|e]; [|reflexivity].
  rewrite (lift_ok _ _ _ _ _ eq_refl). cbn [bind].
  env_rewrite E4'. env_rewrite E5'. env_rewrite E6'. env_rewrite E7'.
  env_rewrite E8'. env_rewrite E9'.
  destruct (parse_changes _ cf sl (bracket_version None hl) fr fp nm)
    as [note|e]; [|reflexivity].
  rewrite !(lift_ok _ _ _ _ _ eq_refl).
  rewrite show_then_write.
  change (finish environ v parsed note = finish environ' v parsed note).
  rewrite !finish_run, E10. reflexivity.
Qed.

Ltac eval_input H environ name :=
  let v := eval vm_compute in (environ (lit name)) in
  match v with
  | Some ?x => assert (H : environ (lit name) = Some x)
      by (vm_compute; reflexivity)
  end.

Ltac eval_inputs environ :=
  eval_input ipattern:(E1) environ "INPUT_VERSION_FILE";
  eval_input ipattern:(E2) environ "INPUT_VERSION";
  eval_input ipattern:(E3) environ "INPUT_CHECK_REF";
  eval_input ipattern:(E4) environ "INPUT_CHANGES_FILE";
  eval_input ipattern:(E5) environ "INPUT_START_LINE";
  eval_input ipattern:(E6) environ "INPUT_HEAD_LINE";
  eval_input ipattern:(E7) environ "INPUT_FIX_ISSUE_REGEX";
  eval_input ipattern:(E8) environ "INPUT_FIX_ISSUE_REPL";
  eval_input ipattern:(E9) environ "INPUT_NAME".

Lemma programs_agree_up_to_brackets_witness :
  Controller.main (P := Release.packaging) (D := ProgramExamples.disk)
    (ProgramExamples.environ
       (ProgramExamples.inputs "1.2.3" Examples.Parser_head_line "#(\d+)"
          "[#\1](issues/\1)" "refs/tags/v1.2.3" "release-note.md"))
    ProgramExamples.tree
  = ([Print "::set-output name=version::1.2.3";
      Print "::set-output name=prerelease::false";
      Print "::set-output name=devrelease::false";
      WriteText "release-note.md" "Fixed bug [#42](issues/42)."],
     Return 0).
Proof.
  set (environ :=
         ProgramExamples.environ
           (ProgramExamples.inputs "1.2.3" Examples.Parser_head_line
              "#(\d+)" "[#\1](issues/\1)" "refs/tags/v1.2.3"
              "release-note.md")).
  eval_inputs environ.
  assert (Hplain : plain_fields false Examples.Parser_head_line = true)
    by (vm_compute; reflexivity).
  assert (Hfix : nonempty (lit "#(\d+)")
                 = nonempty (lit "[#\1](issues/\1)"))
    by reflexivity.
  refine (eq_trans
            (programs_agree_up_to_brackets Release.packaging release_flags
               ProgramExamples.disk environ ProgramExamples.tree _ _ _ _ _
               _ _ _ _ E1 E2 E3 E4 E5 E6 E7 E8 E9 Hplain Hfix) _).
  vm_compute. reflexivity.
Defined.

(** X11.  The two programs check in a different order.  When one rewrite
    setting is given without the other and the git ref is refused by
    [check_head], the program of [src/src/main.py] fails with the error
    of [check_head], the program of [src/main.py] with the error about
    the rewrite settings; neither prints or writes anything. *)
Theorem programs_differ_on_error_order :
  forall (P : Packaging) (F : ReleaseFlags P) (D : Disk) environ tree
         version_file version_input check_ref changes_file start_line
         head_line fix_issue_regex fix_issue_repl name v parsed e,
    environ (lit "INPUT_VERSION_FILE") = Some version_file ->
    environ (lit "INPUT_VERSION") = Some version_input ->
    environ (lit "INPUT_CHECK_REF") = Some check_ref ->
    environ (lit "INPUT_CHANGES_FILE") = Some changes_file ->
    environ (lit "INPUT_START_LINE") = Some start_line ->
    environ (lit "INPUT_HEAD_LINE") = Some head_line ->
    environ (lit "INPUT_FIX_ISSUE_REGEX") = Some fix_issue_regex ->
    environ (lit "INPUT_FIX_ISSUE_REPL") = Some fix_issue_repl ->
    environ (lit "INPUT_NAME") = Some name ->
    find_version {| files := tree; version := [] |} version_file
      version_input
    = Ok (Some v) ->
    parse_version v = Some parsed ->
    nonempty fix_issue_regex <> nonempty fix_issue_repl ->
    check_head v (Some check_ref) = Raise e ->
    main environ tree = ([], Abort (Failed e))
    /\ Controller.main environ tree = ([], Abort (Failed FixIssueNotPaired)).
Proof.
  intros P F D environ tree vf vi ref cf sl hl fr fp nm v parsed e E1 E2
         E3 E4 E5 E6 E7 E8 E9 Hfind Hparse Hfix Hhead.
  split.
  - unfold main. env_rewrite E1. env_rewrite E2.
    rewrite (lift_ok _ _ _ _ _ Hfind).
    rewrite (parse_found_ok _ v parsed _ Hparse). cbn [fst snd version].
    env_rewrite E3. rewrite (lift_raise _ _ _ _ _ Hhead). reflexivity.
  - unfold Controller.main, Controller.init.
    env_rewrite E4. env_rewrite E9. rewrite io_bind_ret.
    unfold Controller.start. cbn [Controller.tree Controller.parser].
    env_rewrite E1. env_rewrite E2.
    change (Parser.find_version {| files := tree; version := [] |} vf vi)
      with (find_version {| files := tree; version := [] |} vf vi).
    rewrite (lift_ok _ _ _ _ _ Hfind).
    rewrite (parse_found_ok _ v parsed _ Hparse). cbn [fst snd version].
    env_rewrite E5. env_rewrite E6. env_rewrite E7. env_rewrite E8.
    env_rewrite E3.
    rewrite (lift_raise _ _ _ _ _
               (Parser_parse_unpaired _ _ sl hl fr fp (Some ref) Hfix)).
    reflexivity.
Qed.

Lemma programs_differ_on_error_order_witness :
  main (P := Release.packaging) (D := ProgramExamples.disk)
    (ProgramExamples.environ
       (ProgramExamples.inputs "1.2.3" Examples.head_line "#(\d+)" []
          "refs/heads/main" "release-note.md"))
    ProgramExamples.tree
  = ([], Abort (Failed (NotATag "refs/heads/main")))
  /\ Controller.main (P := Release.packaging) (D := ProgramExamples.disk)
       (ProgramExamples.environ
          (ProgramExamples.inputs "1.2.3" Examples.head_line "#(\d+)" []
             "refs/heads/main" "release-note.md"))
       ProgramExamples.tree
     = ([], Abort (Failed FixIssueNotPaired)).
Proof.
  set (environ :=
         ProgramExamples.environ
           (ProgramExamples.inputs "1.2.3" Examples.head_line "#(\d+)" []
              "refs/heads/main" "release-note.md")).
  eval_inputs environ.
  assert (Hfind : find_version
                    {| files := ProgramExamples.tree; version := [] |}
                    [] (lit "1.2.3")
                  = Ok (Some (lit "1.2.3")))
    by (vm_compute; reflexivity).
  assert (Hparse : Release.parse_release (lit "1.2.3") = Some [1; 2; 3])
    by (vm_compute; reflexivity).
  assert (Hhead : check_head (lit "1.2.3") (Some (lit "refs/heads/main"))
                  = Raise (NotATag "refs/heads/main"))
    by (vm_compute; reflexivity).
  assert (Hfix : nonempty (lit "#(\d+)") <> nonempty [])
    by discriminate.
  exact (programs_differ_on_error_order Release.packaging release_flags
           ProgramExamples.disk environ ProgramExamples.tree _ _ _ _ _ _ _
           _ _ _ _ _ E1 E2 E3 E4 E5 E6 E7 E8 E9 Hfind Hparse Hfix Hhead).
Defined.

(** X12.  A version text the version library cannot parse stops both
    programs right after [find_version], before the git ref and the
    changelog are looked at: the run fails with the invalid-version error
    and prints and writes nothing. *)
Theorem unparsable_version_aborts :
  forall (P : Packaging) (F : ReleaseFlags P) (D : Disk) environ tree
         version_file version_input changes_file name v,
    environ (lit "INPUT_VERSION_FILE") = Some version_file ->
    environ (lit "INPUT_VERSION") = Some version_input ->
    environ (lit "INPUT_CHANGES_FILE") = Some changes_file ->
    environ (lit "INPUT_NAME") = Some name ->
    find_version {| files := tree; version := [] |} version_file
      version_input
    = Ok (Some v) ->
    parse_version v = None ->
    main environ tree = ([], Abort (Failed (InvalidVersion v)))
    /\ Controller.main environ tree
       = ([], Abort (Failed (InvalidVersion v))).
Proof.
  intros P F D environ tree vf vi cf nm v E1 E2 E4 E9 Hfind Hparse.
  split.
  - unfold main. env_rewrite E1. env_rewrite E2.
    rewrite (lift_ok _ _ _ _ _ Hfind).
    unfold parse_found. rewrite Hparse. reflexivity.
  - unfold Controller.main, Controller.init.
    env_rewrite E4. env_rewrite E9. rewrite io_bind_ret.
    unfold Controller.start. cbn [Controller.tree Controller.parser].
    env_rewrite E1. env_rewrite E2.
    change (Parser.find_version {| files := tree; version := [] |} vf vi)
      with (find_version {| files := tree; version := [] |} vf vi).
    rewrite (lift_ok _ _ _ _ _ Hfind).
    unfold parse_found. rewrite Hparse. reflexivity.
Qed.

Lemma unparsable_version_aborts_witness :
  main (P := Release.packaging) (D := ProgramExamples.disk)
    (ProgramExamples.environ
       (ProgramExamples.inputs "latest" Examples.head_line [] [] []
          "release-note.md"))
    ProgramExamples.tree
  = ([], Abort (Failed (InvalidVersion "latest")))
  /\ Controller.main (P := Release.packaging) (D := ProgramExamples.disk)
       (ProgramExamples.environ
          (ProgramExamples.inputs "latest" Examples.head_line [] [] []
             "release-note.md"))
       ProgramExamples.tree
     = ([], Abort (Failed (InvalidVersion "latest"))).
Proof.
  set (environ :=
         ProgramExamples.environ
           (ProgramExamples.inputs "latest" Examples.head_line [] [] []
              "release-note.md")).
  eval_inputs environ.
  assert (Hfind : find_version
                    {| files := ProgramExamples.tree; version := [] |}
                    [] (lit "latest")
                  = Ok (Some (lit "latest")))
    by (vm_compute; reflexivity).
  assert (Hparse : Release.parse_release (lit "latest") = None)
    by (vm_compute; reflexivity).
  exact (unparsable_version_aborts Release.packaging release_flags
           ProgramExamples.disk environ ProgramExamples.tree _ _ _ _ _ E1
           E2 E4 E9 Hfind Hparse).
Defined.
